(** * The Anthropic -> Codex bridge of claude-relay-service

    A shallow embedding of
      - [src/utils/codexRequestAdapter.js] (the request-body adapter, and the
        vendored copy of it whose [none] mode is a strict no-op), and
      - the bridge service (request translation, the streaming converter
        [CodexToAnthropicStreamConverter], the non-streaming translator, and
        the part of [handleAnthropicMessagesToCodex] that builds the body it
        posts),
    followed by the properties of the specification that were checked
    against them, and by further properties of the code.

    Conventions of the embedding.
      - A JavaScript value that came out of [JSON.parse] is a [value]: a tree
        that holds no function.  A Number is a double: an integer, a dyadic
        fraction or an infinity ([num]), or NaN ([VNaN]); arithmetic rounds
        to the nearest double, ties to even.  The two zeros are one.
      - A string is a [string] whose characters are read as UTF-16 code units
        below 256.
      - A [TypeError] is [None] in the [option] monad: reading a property of
        [undefined] or [null], calling what is no function, and converting
        to a primitive an object that has a [toString] member of its own
        (which, parsed, is no function).
      - Objects the adapter copies and writes live in a [heap]; everything the
        code only reads is a tree.
      - [crypto.randomBytes] reads an entropy source carried in the state. *)

From Stdlib Require Import ZArith String Ascii List Bool Lia.
From Stdlib Require Import Numbers.DecimalString.
From stdpp Require Import base option list strings.

Open Scope string_scope.
Open Scope list_scope.

(** ** JavaScript values *)

Module JS.

(** *** Numbers *)

(** A Number other than NaN: an integer, a fraction [m / 2^e] with [m] odd,
    or an infinity.  The Numbers of the code are the [num]s that a double
    holds: every parsed Number is one, and the operations below return one
    when given some.  A [num] that no double holds (an integer of more than
    53 significant bits, say) is no value of the code. *)
Inductive num : Type :=
| Int (z : Z)
| Frac (m : Z) (e : positive)
| Inf (negative : bool).

Coercion Int : Z >-> num.

Bind Scope Z_scope with num.

(** A Number *)
Inductive number : Type :=
| Num (n : num)
| NaN.

(** The value of a finite [num], as a numerator over a positive denominator *)
Definition ratio (x : num) : Z * Z :=
  match x with
  | Int z => (z, 1%Z)
  | Frac m e => (m, (2 ^ Zpos e)%Z)
  | Inf _ => (0%Z, 1%Z)
  end.

Definition finite (x : num) : bool := match x with Inf _ => false | _ => true end.

(** [x === y] on Numbers other than NaN *)
Definition num_eqb (x y : num) : bool :=
  match x, y with
  | Int a, Int b => (a =? b)%Z
  | Inf s, Inf t => Bool.eqb s t
  | Inf _, _ | _, Inf _ => false
  | _, _ => (fst (ratio x) * snd (ratio y) =? fst (ratio y) * snd (ratio x))%Z
  end.

(** [x < y] *)
Definition num_ltb (x y : num) : bool :=
  match x, y with
  | Int a, Int b => (a <? b)%Z
  | Inf s, Inf t => s && negb t
  | Inf s, _ => s
  | _, Inf t => negb t
  | _, _ => (fst (ratio x) * snd (ratio y) <? fst (ratio y) * snd (ratio x))%Z
  end.

(** [x <= y] *)
Definition num_leb (x y : num) : bool := negb (num_ltb y x).

(** [floor (log2 (p / q))] for positive [p] and [q] *)
Definition floor_log2 (p q : Z) : Z :=
  let t := (Z.log2 p - Z.log2 q)%Z in
  if (if (0 <=? t)%Z then (q * 2 ^ t <=? p)%Z else (q <=? p * 2 ^ (- t))%Z)
  then t else (t - 1)%Z.

(** The [num] whose value is [p * 2^e] *)
Definition dyadic (p e : Z) : num :=
  if (0 <=? e)%Z then Int (p * 2 ^ e)
  else if (p =? 0)%Z then Int 0
  else
    let k := Z.min (Z.log2 (Z.land p (- p))) (- e) in
    if (e + k =? 0)%Z then Int (p / 2 ^ k)
    else Frac (p / 2 ^ k) (Z.to_pos (- (e + k))).

(** The double nearest to [p / q] for a positive [q], ties to the even
    significand: 53 bits, exponents down to the subnormals, overflow to an
    infinity *)
Definition round64 (p q : Z) : num :=
  if (p =? 0)%Z then Int 0
  else
    let a := Z.abs p in
    let e := Z.max (floor_log2 a q - 52) (-1074) in
    let n := if (0 <=? e)%Z then a else (a * 2 ^ (- e))%Z in
    let d := if (0 <=? e)%Z then (q * 2 ^ e)%Z else q in
    let m0 := (n / d)%Z in
    let r := (n mod d)%Z in
    let m :=
      if (d <? 2 * r)%Z || ((d =? 2 * r)%Z && Z.odd m0) then (m0 + 1)%Z else m0 in
    if (971 <? e)%Z || ((e =? 971)%Z && (m =? 2 ^ 53)%Z) then Inf (p <? 0)%Z
    else dyadic (Z.sgn p * m) e.

(** An integer as a double: exact up to 2^53 *)
Definition round_int (z : Z) : num :=
  if (Z.abs z <=? 2 ^ 53)%Z then Int z else round64 z 1.

(** [x - y] *)
Definition num_sub (x y : num) : number :=
  match x, y with
  | Int a, Int b => Num (round_int (a - b))
  | Inf s, Inf t => if Bool.eqb s t then NaN else Num (Inf s)
  | Inf s, _ => Num (Inf s)
  | _, Inf t => Num (Inf (negb t))
  | _, _ =>
      Num (round64 (fst (ratio x) * snd (ratio y) - fst (ratio y) * snd (ratio x))
                   (snd (ratio x) * snd (ratio y)))
  end.

(** [- x] *)
Definition num_opp (x : num) : num :=
  match x with
  | Int z => Int (- z)
  | Frac m e => Frac (- m) e
  | Inf s => Inf (negb s)
  end.

(** *** Values *)

#[warnings="-register-all"]
Inductive value : Type :=
| VUndef
| VNull
| VBool (b : bool)
| VNum (n : num)
| VNaN
| VStr (s : string)
| VArr (items : list value)
| VObj (fields : list (string * value)).

Arguments VNum n%_Z.

(** [!!v] *)
Definition truthy (v : value) : bool :=
  match v with
  | VUndef | VNull | VNaN => false
  | VBool b => b
  | VNum n => negb (num_eqb n 0)
  | VStr s => negb (String.eqb s "")
  | VArr _ | VObj _ => true
  end.

Definition typeof (v : value) : string :=
  match v with
  | VUndef => "undefined"
  | VNull | VArr _ | VObj _ => "object"
  | VBool _ => "boolean"
  | VNum _ | VNaN => "number"
  | VStr _ => "string"
  end.

(** [a || b] *)
Definition js_or (a b : value) : value := if truthy a then a else b.

Definition isArray (v : value) : bool :=
  match v with VArr _ => true | _ => false end.

(** [v === 'lit'] for a string literal *)
Definition is_str (v : value) (lit : string) : bool :=
  match v with VStr s => String.eqb s lit | _ => false end.

Fixpoint lookup_field (k : string) (fs : list (string * value)) : value :=
  match fs with
  | [] => VUndef
  | (k', v) :: rest => if String.eqb k k' then v else lookup_field k rest
  end.

(** [Object.prototype.hasOwnProperty.call(o, k)] *)
Definition has_field (k : string) (fs : list (string * value)) : bool :=
  existsb (fun p => String.eqb k (fst p)) fs.

(** [v.k] on a receiver that is neither [undefined] nor [null].  The code
    reads fixed property names only, none of which a prototype supplies,
    except [length]. *)
Definition field (v : value) (k : string) : value :=
  match v with
  | VObj fs => lookup_field k fs
  | VArr l => if String.eqb k "length" then VNum (Z.of_nat (length l)) else VUndef
  | VStr s => if String.eqb k "length" then VNum (Z.of_nat (String.length s)) else VUndef
  | _ => VUndef
  end.

(** [v.k]: a TypeError on [undefined] and [null] *)
Definition get (v : value) (k : string) : option value :=
  match v with
  | VUndef | VNull => None
  | _ => Some (field v k)
  end.

(** [v?.k] *)
Definition opt_get (v : value) (k : string) : value :=
  match v with
  | VUndef | VNull => VUndef
  | _ => field v k
  end.

(** [a === b].  Two objects or arrays met in one request are distinct nodes
    of the parsed tree, so they are never identical. *)
Definition strict_eq (a b : value) : bool :=
  match a, b with
  | VUndef, VUndef | VNull, VNull => true
  | VBool x, VBool y => Bool.eqb x y
  | VNum x, VNum y => num_eqb x y
  | VStr x, VStr y => String.eqb x y
  | _, _ => false
  end.

(** SameValueZero, the key equality of [Map]: as [===], and NaN equals NaN *)
Definition same_value_zero (a b : value) : bool :=
  match a, b with
  | VNaN, VNaN => true
  | _, _ => strict_eq a b
  end.

(** [for (const x of v)]: arrays and strings are iterable *)
Definition iterate (v : value) : option (list value) :=
  match v with
  | VArr l => Some l
  | VStr s => Some (map (fun a => VStr (String a "")) (list_ascii_of_string s))
  | _ => None
  end.

(** *** Strings *)

Definition nl : string := String "010"%char "".
Definition dquote : string := String "034"%char "".

Definition is_ws (a : ascii) : bool :=
  let n := nat_of_ascii a in
  (((9 <=? n) && (n <=? 13)) || (n =? 32) || (n =? 160))%nat.

Fixpoint trimStart (s : string) : string :=
  match s with
  | String a rest => if is_ws a then trimStart rest else s
  | EmptyString => EmptyString
  end.

Definition trimEnd (s : string) : string := String.rev (trimStart (String.rev s)).

Definition trim (s : string) : string := trimEnd (trimStart s).

(** [s.startsWith(p)] *)
Definition startsWith (s p : string) : bool := String.prefix p s.

Definition lower_char (a : ascii) : ascii :=
  let n := nat_of_ascii a in
  if (((65 <=? n) && (n <=? 90))
      || ((192 <=? n) && (n <=? 222) && negb (n =? 215)))%nat
  then ascii_of_nat (n + 32) else a.

Fixpoint toLowerCase (s : string) : string :=
  match s with
  | String a rest => String (lower_char a) (toLowerCase rest)
  | EmptyString => EmptyString
  end.

(** Scan of [s] from position [i]: the last position holding [c], or
    [found] when there is none *)
Fixpoint last_index_from (c : ascii) (s : string) (i found : Z) : Z :=
  match s with
  | String a rest =>
      last_index_from c rest (i + 1)%Z (if Ascii.eqb a c then i else found)
  | EmptyString => found
  end.

(** [s.lastIndexOf(c)] for a one-character [c]: -1 when absent *)
Definition lastIndexOf (s : string) (c : ascii) : Z :=
  last_index_from c s 0 (-1).

(** [s.slice(b, e)] *)
Definition slice (s : string) (b e : Z) : string :=
  let len := Z.of_nat (String.length s) in
  let from := if (b <? 0)%Z then Z.max (len + b) 0 else Z.min b len in
  let to := if (e <? 0)%Z then Z.max (len + e) 0 else Z.min e len in
  String.substring (Z.to_nat from) (Z.to_nat (Z.max (to - from) 0)) s.

(** [s.slice(b)] *)
Definition slice_from (s : string) (b : Z) : string :=
  slice s b (Z.of_nat (String.length s)).

(** *** Numbers as text *)

Definition string_of_Z (n : Z) : string := NilEmpty.string_of_int (Z.to_int n).

Definition is_digit (a : ascii) : bool :=
  let n := nat_of_ascii a in ((48 <=? n) && (n <=? 57))%nat.

(** The value of a digit in a base up to sixteen, in either case *)
Definition digit_value (base : Z) (a : ascii) : option Z :=
  let n := Z.of_nat (nat_of_ascii a) in
  let v := if (48 <=? n)%Z && (n <=? 57)%Z then (n - 48)%Z
           else if (97 <=? n)%Z && (n <=? 102)%Z then (n - 87)%Z
           else if (65 <=? n)%Z && (n <=? 70)%Z then (n - 55)%Z
           else 16%Z in
  if (v <? base)%Z then Some v else None.

(** The digits of [s] in [base], after [acc]; [None] at another character *)
Fixpoint digits_value (base : Z) (s : string) (acc : Z) : option Z :=
  match s with
  | EmptyString => Some acc
  | String a rest =>
      match digit_value base a with
      | Some v => digits_value base rest (base * acc + v)%Z
      | None => None
      end
  end.

(** The longest prefix of decimal digits, and what follows it *)
Fixpoint span_digits (s : string) : string * string :=
  match s with
  | String a rest =>
      if is_digit a then let (x, y) := span_digits rest in (String a x, y)
      else (EmptyString, s)
  | EmptyString => (EmptyString, EmptyString)
  end.

(** [p * 10^x] as a double *)
Definition decimal (p x : Z) : num :=
  if (0 <=? x)%Z then round64 (p * 10 ^ x) 1 else round64 p (10 ^ (- x)).

(** StrUnsignedDecimalLiteral other than [Infinity]: digits, a point and
    digits, an exponent; at least one digit before the exponent *)
Definition unsigned_decimal (s : string) : option num :=
  let (ip, r1) := span_digits s in
  let (fp, r2) :=
    match r1 with
    | String "."%char r => span_digits r
    | _ => (EmptyString, r1)
    end in
  if (String.length ip + String.length fp =? 0)%nat then None
  else
    mant ← digits_value 10 (ip +:+ fp) 0;
    let shift := Z.of_nat (String.length fp) in
    match r2 with
    | EmptyString => Some (decimal mant (- shift))
    | String c r3 =>
        if Ascii.eqb c "e" || Ascii.eqb c "E" then
          let (neg, ds) :=
            match r3 with
            | String "-"%char r => (true, r)
            | String "+"%char r => (false, r)
            | _ => (false, r3)
            end in
          if (String.length ds =? 0)%nat then None
          else
            x ← digits_value 10 ds 0;
            Some (decimal mant ((if neg then - x else x) - shift))
        else None
    end.

(** StringToNumber: white space is trimmed, the empty text is 0; then a
    signed decimal literal or [Infinity], or unsigned digits in base 16, 8
    or 2 behind [0x], [0o] or [0b]; anything else is NaN *)
Definition number_of_string (s : string) : number :=
  let of_option o := match o with Some n => Num n | None => NaN end in
  let based base ds :=
    if (String.length ds =? 0)%nat then NaN
    else of_option ((fun v => round64 v 1) <$> digits_value base ds 0) in
  match trim s with
  | EmptyString => Num 0%Z
  | String "0"%char (String "x"%char ds) | String "0"%char (String "X"%char ds) =>
      based 16%Z ds
  | String "0"%char (String "o"%char ds) | String "0"%char (String "O"%char ds) =>
      based 8%Z ds
  | String "0"%char (String "b"%char ds) | String "0"%char (String "B"%char ds) =>
      based 2%Z ds
  | String "-"%char u =>
      if String.eqb u "Infinity" then Num (Inf true)
      else of_option (num_opp <$> unsigned_decimal u)
  | String "+"%char u =>
      if String.eqb u "Infinity" then Num (Inf false) else of_option (unsigned_decimal u)
  | u => if String.eqb u "Infinity" then Num (Inf false) else of_option (unsigned_decimal u)
  end.

(** [10^g <= p / q] *)
Definition pow10_le (g p q : Z) : bool :=
  if (0 <=? g)%Z then (10 ^ g * q <=? p)%Z else (q <=? p * 10 ^ (- g))%Z.

Fixpoint step_up (fuel : nat) (g p q : Z) : Z :=
  match fuel with
  | O => g
  | S fuel' => if pow10_le (g + 1) p q then step_up fuel' (g + 1)%Z p q else g
  end.

(** [floor (log10 (p / q))] for positive [p] and [q]: an estimate from the
    binary logarithm that is at most three short, stepped up *)
Definition floor_log10 (p q : Z) : Z :=
  step_up 4 ((floor_log2 p q * 30103) / 100000 - 2)%Z p q.

(** The digits Number::toString prints for the double [x] nearest to
    [p / q]: [s] with [k] digits and [j] such that [s * 10^j] reads back as
    [x], for the least [k] from [k] on; of the two candidates around
    [p / q] the one that reads back, the closer one when both do.  At 17
    digits the closer one always reads back. *)
Fixpoint shortest (fuel : nat) (k : Z) (n0 p q : Z) (x : num) : Z * Z :=
  let j := (n0 - k)%Z in
  let nt := if (0 <=? j)%Z then p else (p * 10 ^ (- j))%Z in
  let dt := if (0 <=? j)%Z then (q * 10 ^ j)%Z else q in
  let lo := (nt / dt)%Z in
  let r := (nt mod dt)%Z in
  let hi := (lo + 1)%Z in
  let lo_ok := (0 <? lo)%Z && num_eqb (decimal lo j) x in
  let hi_ok := num_eqb (decimal hi j) x in
  let nearest :=
    if (2 * r <? dt)%Z || ((2 * r =? dt)%Z && Z.even lo) then lo else hi in
  match fuel with
  | O => (nearest, j)
  | S fuel' =>
      if lo_ok && hi_ok then (nearest, j)
      else if lo_ok then (lo, j)
      else if hi_ok then (hi, j)
      else shortest fuel' (k + 1)%Z n0 p q x
  end.

Fixpoint zeros (n : nat) : string :=
  match n with O => EmptyString | S n' => String "0" (zeros n') end.

(** Trailing zeros off [s], onto the exponent *)
Fixpoint strip_zeros (fuel : nat) (s j : Z) : Z * Z :=
  match fuel with
  | O => (s, j)
  | S fuel' =>
      if (s mod 10 =? 0)%Z && negb (s =? 0)%Z
      then strip_zeros fuel' (s / 10)%Z (j + 1)%Z
      else (s, j)
  end.

(** Number::toString on the digits [ds] of a positive Number that lies
    between [10^(n-1)] and [10^n]: plain up to 21 integer digits, a point
    inside, up to six zeros behind [0.], exponent form elsewhere *)
Definition layout (ds : string) (n : Z) : string :=
  let k := Z.of_nat (String.length ds) in
  if (k <=? n)%Z && (n <=? 21)%Z then ds +:+ zeros (Z.to_nat (n - k))
  else if (0 <? n)%Z && (n <=? 21)%Z then
    String.substring 0 (Z.to_nat n) ds +:+ "."
      +:+ String.substring (Z.to_nat n) (Z.to_nat (k - n)) ds
  else if (-6 <? n)%Z && (n <=? 0)%Z then "0." +:+ zeros (Z.to_nat (- n)) +:+ ds
  else
    (if (k =? 1)%Z then ds
     else String.substring 0 1 ds +:+ "." +:+ String.substring 1 (Z.to_nat (k - 1)) ds)
    +:+ "e" +:+ (if (0 <=? n - 1)%Z then "+" else "-") +:+ string_of_Z (Z.abs (n - 1)).

(** Number::toString of the positive [p / q] *)
Definition positive_to_string (p q : Z) : string :=
  let x := round64 p q in
  let n0 := (floor_log10 p q + 1)%Z in
  let (s0, j0) := shortest 17 1 n0 p q x in
  let (s, j) := strip_zeros 400 s0 j0 in
  let ds := string_of_Z s in
  layout ds (Z.of_nat (String.length ds) + j).

(** Number::toString.  An integer up to 2^53 prints all its digits. *)
Definition number_to_string (x : num) : string :=
  match x with
  | Inf s => if s then "-Infinity" else "Infinity"
  | Int z =>
      if (Z.abs z <=? 2 ^ 53)%Z then string_of_Z z
      else (if (z <? 0)%Z then "-" else "") +:+ positive_to_string (Z.abs z) 1
  | Frac m e =>
      if (m =? 0)%Z then "0"
      else (if (m <? 0)%Z then "-" else "") +:+ positive_to_string (Z.abs m) (2 ^ Zpos e)
  end.

(** *** Conversions *)

(** ToPrimitive returns on [v].  An object's own [toString] member hides
    [Object.prototype.toString]; parsed, it is no function, and neither is a
    [valueOf] member, so the conversion has nothing to call.  An array goes
    through [join], which converts its elements. *)
Fixpoint to_primitive_ok (v : value) : bool :=
  match v with
  | VObj fs => negb (has_field "toString" fs)
  | VArr l => forallb to_primitive_ok l
  | _ => true
  end.

(** ToString; [None] is the TypeError of ToPrimitive.  Inside [join] (and so
    inside the text of an array) [undefined] and [null] give the empty
    string. *)
Fixpoint ToString (v : value) : option string :=
  match v with
  | VUndef => Some "undefined"
  | VNull => Some "null"
  | VBool true => Some "true"
  | VBool false => Some "false"
  | VNum n => Some (number_to_string n)
  | VNaN => Some "NaN"
  | VStr s => Some s
  | VArr l =>
      String.concat "," <$>
        (fix texts (l : list value) : option (list string) :=
           match l with
           | [] => Some []
           | x :: rest =>
               t ← match x with VUndef | VNull => Some "" | _ => ToString x end;
               ts ← texts rest;
               Some (t :: ts)
           end) l
  | VObj fs => if has_field "toString" fs then None else Some "[object Object]"
  end.

(** The text of an element inside [join] *)
Definition element_text (x : value) : option string :=
  match x with VUndef | VNull => Some "" | _ => ToString x end.

(** [l.join(sep)] *)
Definition join (sep : string) (l : list value) : option string :=
  String.concat sep <$> mapM element_text l.

(** ToString where it cannot throw, on a primitive: the adapter converts
    the entries of its strip list, which the configuration types as strings,
    and a resolved text it has tested to be a string; the handler converts a
    header; [writeAnthropicSseEvent] converts what [JSON.stringify]
    returned.  Every other conversion of the code goes through [ToString].
    (On an object whose conversion throws, the text of a plain object is
    given; the source meets one here only in a strip list that breaks its
    type.) *)
Definition to_string (v : value) : string := default "[object Object]" (ToString v).

(** ToNumber; [None] is the TypeError of ToPrimitive *)
Definition to_number (v : value) : option number :=
  match v with
  | VUndef | VNaN => Some NaN
  | VNull => Some (Num 0%Z)
  | VBool b => Some (Num (if b then 1 else 0)%Z)
  | VNum n => Some (Num n)
  | VStr s => Some (number_of_string s)
  | VArr _ | VObj _ => number_of_string <$> ToString v
  end.

Definition of_number (n : number) : value :=
  match n with Num x => VNum x | NaN => VNaN end.

(** [a - b]: the operands are converted left to right *)
Definition js_sub (a b : value) : option value :=
  x ← to_number a;
  y ← to_number b;
  Some (match x, y with
        | Num p, Num q => of_number (num_sub p q)
        | _, _ => VNaN
        end).

(** [a > 0]: false on NaN *)
Definition gt_zero (a : value) : option bool :=
  x ← to_number a;
  Some (match x with Num p => num_ltb 0%Z p | NaN => false end).

(** [a <= n]: false on NaN *)
Definition js_le (a : value) (n : Z) : option bool :=
  x ← to_number a;
  Some (match x with Num p => num_leb p n | NaN => false end).

(** *** JSON.stringify *)

Definition hex_digit (n : nat) : ascii :=
  if (n <? 10)%nat then ascii_of_nat (48 + n) else ascii_of_nat (87 + n).

(** QuoteJSONString escapes the quote, the backslash and the C0 controls;
    every other code unit below 256 is written as it is, DEL and the C1
    controls included *)
Definition quote_char (a : ascii) : string :=
  let n := nat_of_ascii a in
  if (n =? 34)%nat then "\" +:+ dquote
  else if (n =? 92)%nat then "\\"
  else if (n =? 8)%nat then "\b"
  else if (n =? 12)%nat then "\f"
  else if (n =? 10)%nat then "\n"
  else if (n =? 13)%nat then "\r"
  else if (n =? 9)%nat then "\t"
  else if (n <? 32)%nat
       then "\u00" +:+ String (hex_digit (n / 16)) (String (hex_digit (n mod 16)) "")
       else String a "".

Fixpoint quote_body (s : string) : string :=
  match s with
  | String a rest => quote_char a +:+ quote_body rest
  | EmptyString => EmptyString
  end.

Definition quote (s : string) : string := dquote +:+ quote_body s +:+ dquote.

(** An array index: the decimal text, without a leading zero, of an integer
    from 0 to 2^32 - 2 *)
Definition array_index (k : string) : option Z :=
  match k with
  | EmptyString => None
  | String "0"%char EmptyString => Some 0%Z
  | String "0"%char _ => None
  | _ =>
      n ← digits_value 10 k 0;
      if (n <=? 4294967294)%Z then Some n else None
  end.

(** The members that a key seen before does not hide *)
Fixpoint first_members {A : Type} (seen : list string) (ms : list (string * A))
  : list (string * A) :=
  match ms with
  | [] => []
  | (k, x) :: rest =>
      if existsb (String.eqb k) seen then first_members seen rest
      else (k, x) :: first_members (k :: seen) rest
  end.

(** Insertion of a member under the index [i] into members sorted by index *)
Fixpoint insert_index {A : Type} (i : Z) (m : string * A) (l : list (Z * (string * A)))
  : list (Z * (string * A)) :=
  match l with
  | [] => [(i, m)]
  | (j, m') :: rest =>
      if (i <? j)%Z then (i, m) :: l else (j, m') :: insert_index i m rest
  end.

(** OrdinaryOwnPropertyKeys: the array indices in ascending order, then the
    other keys in the order in which they were created *)
Definition own_property_order {A : Type} (ms : list (string * A)) : list (string * A) :=
  let ms := first_members [] ms in
  map snd
      (fold_right (fun m l =>
                     match array_index (fst m) with
                     | Some i => insert_index i m l
                     | None => l
                     end) [] ms)
  ++ List.filter (fun m => match array_index (fst m) with Some _ => false | None => true end)
                 ms.

(** [JSON.stringify(v)] is [undefined] ([None]) for [undefined]; a member
    whose value is [undefined] is left out of an object and printed as [null]
    in an array; so is a Number that is not finite.  No parsed value has a
    [toJSON] that is a function. *)
Fixpoint stringify (v : value) : option string :=
  match v with
  | VUndef => None
  | VNull | VNaN | VNum (Inf _) => Some "null"
  | VBool true => Some "true"
  | VBool false => Some "false"
  | VNum n => Some (number_to_string n)
  | VStr s => Some (quote s)
  | VArr l =>
      Some ("[" +:+ String.concat ","
                      (map (fun x => default "null" (stringify x)) l) +:+ "]")
  | VObj fs =>
      Some ("{" +:+ String.concat ","
                      (concat (map (fun p =>
                                      match snd p with
                                      | Some t => [quote (fst p) +:+ ":" +:+ t]
                                      | None => []
                                      end)
                                   (own_property_order
                                      (map (fun p => (fst p, stringify (snd p))) fs)))) +:+ "}")
  end.

Definition JSON_stringify (v : value) : value :=
  match stringify v with Some s => VStr s | None => VUndef end.

(** *** Object fields, in insertion order *)

(** [o[k] = v]: in place when the key is there, else appended *)
Fixpoint set_field (k : string) (v : value) (fs : list (string * value))
  : list (string * value) :=
  match fs with
  | [] => [(k, v)]
  | (k', v') :: rest =>
      if String.eqb k k' then (k', v) :: rest else (k', v') :: set_field k v rest
  end.

(** [delete o[k]] *)
Definition delete_field (k : string) (fs : list (string * value))
  : list (string * value) :=
  List.filter (fun p => negb (String.eqb k (fst p))) fs.

(** *** Map, in insertion order *)

Definition jsmap := list (value * value).

Fixpoint map_get (m : jsmap) (k : value) : value :=
  match m with
  | [] => VUndef
  | (k', v) :: rest => if same_value_zero k' k then v else map_get rest k
  end.

Fixpoint map_set (m : jsmap) (k v : value) : jsmap :=
  match m with
  | [] => [(k, v)]
  | (k', v') :: rest =>
      if same_value_zero k' k then (k', v) :: rest else (k', v') :: map_set rest k v
  end.

(** *** crypto.randomBytes *)

Record rng := { entropy : nat -> Byte.byte; cursor : nat }.

Definition randomBytes (n : nat) (g : rng) : list Byte.byte * rng :=
  (map (entropy g) (seq (cursor g) n),
   {| entropy := entropy g; cursor := cursor g + n |}).

(** [buf.toString('hex')] *)
Fixpoint hex (bs : list Byte.byte) : string :=
  match bs with
  | [] => EmptyString
  | b :: rest =>
      let n := Byte.to_nat b in
      String (hex_digit (n / 16)) (String (hex_digit (n mod 16)) (hex rest))
  end.

Definition random_hex (n : nat) (g : rng) : string * rng :=
  let (bs, g') := randomBytes n g in (hex bs, g').

End JS.

(** ** The request-body adapter ([src/utils/codexRequestAdapter.js]) *)

Module Adapter.
Import JS.

Definition DEFAULT_NON_CODEX_FIELDS_TO_REMOVE : list value :=
  [VStr "temperature"; VStr "top_p"; VStr "max_output_tokens"; VStr "user";
   VStr "text_formatting"; VStr "truncation"; VStr "text"; VStr "service_tier";
   VStr "prompt_cache_retention"; VStr "safety_identifier"].

(** [typeof value === 'string' && value.trim()], read as a condition *)
Definition isNonEmptyString (v : value) : bool :=
  match v with
  | VStr s => negb (String.eqb (trim s) "")
  | _ => false
  end.

Definition normalizeInstructionsMode (v : value) : string :=
  let mode := match v with VStr s => toLowerCase s | _ => "" end in
  if String.eqb mode "prepend" || String.eqb mode "overwrite" || String.eqb mode "none"
  then mode else "overwrite".

Definition normalizeApplyWhen (v : value) : string :=
  let when := match v with VStr s => toLowerCase s | _ => "" end in
  if String.eqb when "all" then "all" else "non_codex".

Record instructions_settings := {
  mode : string;
  applyWhen : string;
  text : value
}.

Record strip_settings := {
  strip_enabled : bool;
  fields : list value
}.

Record settings := {
  enabled : bool;
  instructions : instructions_settings;
  stripFields : strip_settings
}.

(** [x && typeof x === 'object' ? x : {}] *)
Definition object_or_empty (x : value) : value :=
  if truthy x && String.eqb (typeof x) "object" then x else VObj [].

Definition resolveAdapterConfig (rawConfig defaultInstructionsText : value) : settings :=
  let safe := object_or_empty rawConfig in
  let enabled := negb (strict_eq (field safe "enabled") (VBool false)) in
  let instructionsRaw := object_or_empty (field safe "instructions") in
  let stripFieldsRaw := object_or_empty (field safe "stripFields") in
  let instructionsMode := normalizeInstructionsMode (field instructionsRaw "mode") in
  let instructionsApplyWhen :=
    normalizeApplyWhen (js_or (field instructionsRaw "applyWhen") (field safe "applyWhen")) in
  let instructionsText :=
    if isNonEmptyString (field instructionsRaw "text")
    then field instructionsRaw "text" else defaultInstructionsText in
  let stripFieldsEnabled := negb (strict_eq (field stripFieldsRaw "enabled") (VBool false)) in
  let stripFieldsFields :=
    match field stripFieldsRaw "fields" with
    | VArr (f :: fs) => f :: fs
    | _ => DEFAULT_NON_CODEX_FIELDS_TO_REMOVE
    end in
  {| enabled := enabled;
     instructions := {| mode := instructionsMode;
                        applyWhen := instructionsApplyWhen;
                        text := instructionsText |};
     stripFields := {| strip_enabled := stripFieldsEnabled;
                       fields := stripFieldsFields |} |}.

(** *** Objects with identity *)

Abbreviation loc := nat.

(** What each reference holds.  A caller that passes a primitive passes a
    reference to it; identity of primitives is never observed. *)
Abbreviation heap := (list value).

Definition read (h : heap) (l : loc) : value := default VUndef (h !! l).

Definition alloc (h : heap) (v : value) : heap * loc := ((h ++ [v])%list, List.length h).

Definition own_fields (v : value) : list (string * value) :=
  match v with VObj fs => fs | _ => [] end.

(** [{ ...v }]: the own enumerable properties, an array giving its indices *)
Definition spread (v : value) : list (string * value) :=
  match v with
  | VObj fs => fs
  | VArr l => imap (fun i x => (string_of_Z (Z.of_nat i), x)) l
  | VStr s =>
      imap (fun i a => (string_of_Z (Z.of_nat i), VStr (String a "")))
           (list_ascii_of_string s)
  | _ => []
  end.

(** [o.k = v] through the reference [l] *)
Definition write_field (h : heap) (l : loc) (k : string) (v : value) : heap :=
  <[l := VObj (set_field k v (own_fields (read h l)))]> h.

(** [delete o[k]] through the reference [l] *)
Definition remove_field (h : heap) (l : loc) (k : string) : heap :=
  <[l := VObj (delete_field k (own_fields (read h l)))]> h.

Record annotation := {
  a_mode : string;
  alreadyPresent : option bool;
  clientMissing : option bool;
  fallback : option bool
}.

Record changes := {
  strippedFields : list value;
  c_instructions : option annotation
}.

Record result := {
  body : loc;
  applied : bool;
  r_changes : changes
}.

(** One turn of the loop over [settings.stripFields.fields] *)
Definition strip_step (processedBody : loc) (st : heap * list value) (f : value)
  : heap * list value :=
  let key := to_string f in
  if has_field key (own_fields (read (fst st) processedBody))
  then (remove_field (fst st) processedBody key, (snd st ++ [f])%list)
  else st.

Definition strip_stage (h : heap) (processedBody : loc) (isCodexCLI : bool) (s : settings)
  : heap * list value :=
  if negb isCodexCLI && strip_enabled (stripFields s)
  then fold_left (strip_step processedBody) (fields (stripFields s)) (h, [])
  else (h, []).

Definition clientInstructionsOf (h : heap) (body : loc) : string :=
  match field (read h body) "instructions" with VStr c => c | _ => "" end.

(** Lines 100-131 of the adapter: the instructions stage *)
Definition instructions_stage (h : heap) (body processedBody : loc) (isCodexCLI : bool)
  (s : settings) : heap * option annotation :=
  let i := instructions s in
  let scopeAllowsInstructions := String.eqb (applyWhen i) "all" || negb isCodexCLI in
  let hasServerInstructions := isNonEmptyString (text i) in
  let clientInstructions := clientInstructionsOf h body in
  let hasClientInstructions := isNonEmptyString (VStr clientInstructions) in
  if scopeAllowsInstructions && hasServerInstructions then
    if String.eqb (mode i) "overwrite" then
      (write_field h processedBody "instructions" (text i),
       Some {| a_mode := "overwrite"; alreadyPresent := None;
               clientMissing := None; fallback := None |})
    else if String.eqb (mode i) "prepend" then
      let alreadyPresent :=
        startsWith clientInstructions (to_string (text i))
        || startsWith (trimStart clientInstructions) (to_string (text i)) in
      if hasClientInstructions && alreadyPresent then
        (write_field h processedBody "instructions" (field (read h body) "instructions"),
         Some {| a_mode := "prepend"; alreadyPresent := Some true;
                 clientMissing := None; fallback := None |})
      else if hasClientInstructions then
        (write_field h processedBody "instructions"
           (VStr (to_string (text i) +:+ nl +:+ nl +:+ clientInstructions)),
         Some {| a_mode := "prepend"; alreadyPresent := Some false;
                 clientMissing := None; fallback := None |})
      else
        (write_field h processedBody "instructions" (text i),
         Some {| a_mode := "prepend"; alreadyPresent := Some false;
                 clientMissing := Some true; fallback := None |})
    else if String.eqb (mode i) "none" then
      if negb hasClientInstructions then
        (write_field h processedBody "instructions" (text i),
         Some {| a_mode := "none"; alreadyPresent := None;
                 clientMissing := Some true; fallback := Some true |})
      else (h, None)
    else (h, None)
  else (h, None).

(** The same stage in the vendored copy: [none] switches the stage off *)
Definition instructions_stage_vendored (h : heap) (body processedBody : loc)
  (isCodexCLI : bool) (s : settings) : heap * option annotation :=
  let i := instructions s in
  let shouldApplyInstructions :=
    negb (String.eqb (mode i) "none")
    && isNonEmptyString (text i)
    && (String.eqb (applyWhen i) "all" || negb isCodexCLI) in
  if shouldApplyInstructions then
    if String.eqb (mode i) "overwrite" then
      (write_field h processedBody "instructions" (text i),
       Some {| a_mode := "overwrite"; alreadyPresent := None;
               clientMissing := None; fallback := None |})
    else if String.eqb (mode i) "prepend" then
      let clientText := clientInstructionsOf h body in
      let alreadyPresent :=
        startsWith clientText (to_string (text i))
        || startsWith (trimStart clientText) (to_string (text i)) in
      if truthy (VStr clientText) && alreadyPresent then
        (write_field h processedBody "instructions" (field (read h body) "instructions"),
         Some {| a_mode := "prepend"; alreadyPresent := Some true;
                 clientMissing := None; fallback := None |})
      else if truthy (VStr clientText) && truthy (VStr (trim clientText)) then
        (write_field h processedBody "instructions"
           (VStr (to_string (text i) +:+ nl +:+ nl +:+ clientText)),
         Some {| a_mode := "prepend"; alreadyPresent := Some false;
                 clientMissing := None; fallback := None |})
      else
        (write_field h processedBody "instructions" (text i),
         Some {| a_mode := "prepend"; alreadyPresent := Some false;
                 clientMissing := Some true; fallback := None |})
    else (h, None)
  else (h, None).

Definition no_changes : changes := {| strippedFields := []; c_instructions := None |}.

(** The frame both copies of [adaptCodexRequestBody] share, around the
    instructions stage [stage] *)
Definition adapt_with
  (stage : heap -> loc -> loc -> bool -> settings -> heap * option annotation)
  (h : heap) (body : loc) (isCodexCLI : bool)
  (adapterConfig defaultInstructionsText : value) : heap * result :=
  let b := read h body in
  if negb (truthy b) || negb (String.eqb (typeof b) "object") then
    (h, {| body := body; applied := false; r_changes := no_changes |})
  else
    let s := resolveAdapterConfig adapterConfig defaultInstructionsText in
    if negb (enabled s) then
      (h, {| body := body; applied := false; r_changes := no_changes |})
    else
      let (h1, processedBody) := alloc h (VObj (spread b)) in
      let (h2, stripped) := strip_stage h1 processedBody isCodexCLI s in
      let (h3, ann) := stage h2 body processedBody isCodexCLI s in
      let applied := (0 <? List.length stripped)%nat || bool_decide (ann <> None) in
      (h3, {| body := processedBody; applied := applied;
              r_changes := {| strippedFields := stripped; c_instructions := ann |} |}).

Definition adaptCodexRequestBody := adapt_with instructions_stage.

Definition adaptCodexRequestBody_vendored := adapt_with instructions_stage_vendored.

End Adapter.

(** ** The bridge service: request translation *)

Module Bridge.
Import JS.

Definition CODEX_RESPONSE_MODEL_ALIAS : string := "claude-sonnet-4-20250514".

(** [fold] over a loop body that may throw *)
Fixpoint fold_opt {A B : Type} (f : A -> B -> option A) (a : A) (l : list B) : option A :=
  match l with
  | [] => Some a
  | x :: rest => a' ← f a x; fold_opt f a' rest
  end.

Definition generateCodexCallId (g : rng) : string * rng :=
  let (x, g') := random_hex 12 g in ("call_" +:+ x, g').

Definition extractInstructionsFromSystem (system : value) : string :=
  if negb (truthy system) then ""
  else match system with
       | VStr s =>
           if startsWith (trim s) "x-anthropic-billing-header" then "" else s
       | VArr items =>
           String.concat (nl +:+ nl)
             (concat (map (fun item =>
                if negb (truthy item) || negb (is_str (field item "type") "text")
                then []
                else match field item "text" with
                     | VStr t =>
                         if startsWith (trim t) "x-anthropic-billing-header" then []
                         else if startsWith (trim t) "<system-reminder>" then []
                         else [t]
                     | _ => []
                     end) items))
       | _ => ""
       end.

(** What request translation has built so far: the [input] array, the
    Claude-id -> Codex-id map, and the entropy source *)
Record acc := {
  input : list value;
  toolIdMap : jsmap;
  gen : rng
}.

Definition push (a : acc) (item : value) : acc :=
  {| input := (input a ++ [item])%list; toolIdMap := toolIdMap a; gen := gen a |}.

Definition normalizeContent (content : value) : list value :=
  if negb (truthy content) then []
  else match content with
       | VStr _ => [VObj [("type", VStr "text"); ("text", content)]]
       | VArr l => l
       | _ => []
       end.

(** [l.filter((c) => c.type === 'text')] *)
Fixpoint filter_text (l : list value) : option (list value) :=
  match l with
  | [] => Some []
  | c :: rest =>
      ty ← get c "type";
      kept ← filter_text rest;
      Some (if is_str ty "text" then c :: kept else kept)
  end.

(** The text of a [tool_result] block *)
Definition outputTextOf (block : value) : option string :=
  match field block "content" with
  | VStr s => Some s
  | VArr l =>
      kept ← filter_text l;
      join nl (map (fun c => js_or (field c "text") (VStr "")) kept)
  | _ => Some ""
  end.

Definition user_block (a : acc) (block : value) : option acc :=
  ty ← get block "type";
  if is_str ty "text" then
    Some (push a (VObj [("role", VStr "user"); ("content", field block "text")]))
  else if is_str ty "tool_result" then
    let callId := js_or (map_get (toolIdMap a) (field block "tool_use_id"))
                        (field block "tool_use_id") in
    outputText ← outputTextOf block;
    Some (push a (VObj [("type", VStr "function_call_output");
                        ("call_id", callId);
                        ("output", VStr outputText)]))
  else Some a.

Definition assistant_block (a : acc) (block : value) : option acc :=
  ty ← get block "type";
  if is_str ty "thinking" then Some a
  else if is_str ty "text" then
    Some (push a (VObj [("type", VStr "message");
                        ("role", VStr "assistant");
                        ("content", VArr [VObj [("type", VStr "output_text");
                                                ("text", field block "text")]])]))
  else if is_str ty "tool_use" then
    let (callId, g') := generateCodexCallId (gen a) in
    Some {| input := (input a ++
                      [VObj [("type", VStr "function_call");
                             ("call_id", VStr callId);
                             ("name", field block "name");
                             ("arguments",
                               if String.eqb (typeof (field block "input")) "string"
                               then field block "input"
                               else JSON_stringify (field block "input"))]])%list;
            toolIdMap := map_set (toolIdMap a) (field block "id") (VStr callId);
            gen := g' |}
  else Some a.

(** One turn of the loop over [messages] *)
Definition message_step (a : acc) (msg : value) : option acc :=
  role ← get msg "role";
  if is_str role "user" then
    fold_opt user_block a (normalizeContent (field msg "content"))
  else if is_str role "assistant" then
    fold_opt assistant_block a (normalizeContent (field msg "content"))
  else Some a.

Definition convertMessagesToCodexInput (messages : value) (g : rng) : option acc :=
  msgs ← iterate messages;
  fold_opt message_step {| input := []; toolIdMap := []; gen := g |} msgs.

(** [tools.map(...)]: one Codex function per tool *)
Fixpoint map_tools (tools : list value) : option (list value) :=
  match tools with
  | [] => Some []
  | tool :: rest =>
      name ← get tool "name";
      rest' ← map_tools rest;
      Some (VObj [("type", VStr "function");
                  ("name", name);
                  ("description", js_or (field tool "description") (VStr ""));
                  ("parameters", js_or (field tool "input_schema") (VObj []))]
            :: rest')
  end.

(** [undefined] when there is nothing to send *)
Definition convertToolsToCodex (tools : value) : option value :=
  match tools with
  | VArr (t :: ts) => VArr <$> map_tools (t :: ts)
  | _ => Some VUndef
  end.

Definition convertToolChoiceToCodex (toolChoice : value) : value :=
  if negb (truthy toolChoice) then VUndef
  else if String.eqb (typeof toolChoice) "string" then
    if is_str toolChoice "auto" then VStr "auto"
    else if is_str toolChoice "any" then VStr "required"
    else if is_str toolChoice "none" then VStr "none"
    else toolChoice
  else if String.eqb (typeof toolChoice) "object" then
    if is_str (field toolChoice "type") "auto" then VStr "auto"
    else if is_str (field toolChoice "type") "any" then VStr "required"
    else if is_str (field toolChoice "type") "tool" && truthy (field toolChoice "name")
    then VObj [("type", VStr "function"); ("name", field toolChoice "name")]
    else VUndef
  else VUndef.

Definition KNOWN_REASONING_EFFORTS : list string := ["low"; "medium"; "high"; "xhigh"].

Record parsed_model := {
  actualModel : value;
  reasoningEffort : value
}.

Definition parseModelWithReasoning (modelName : value) : parsed_model :=
  match modelName with
  | VStr s =>
      if negb (truthy modelName)
      then {| actualModel := js_or modelName (VStr ""); reasoningEffort := VNull |}
      else
        let lastDash := lastIndexOf s "-" in
        if (lastDash <=? 0)%Z
        then {| actualModel := modelName; reasoningEffort := VNull |}
        else
          let suffix := toLowerCase (slice_from s (lastDash + 1)) in
          if existsb (String.eqb suffix) KNOWN_REASONING_EFFORTS
          then {| actualModel := VStr (slice s 0 lastDash);
                  reasoningEffort := VStr suffix |}
          else {| actualModel := modelName; reasoningEffort := VNull |}
  | _ => {| actualModel := js_or modelName (VStr ""); reasoningEffort := VNull |}
  end.

Definition thinkingBudgetToEffort (thinking : value) : option value :=
  if negb (truthy thinking)
     || negb (is_str (field thinking "type") "enabled")
     || negb (truthy (field thinking "budget_tokens"))
  then Some VNull
  else
    match js_le (field thinking "budget_tokens") 20000 with
    | Some small => Some (if small then VStr "medium" else VStr "high")
    | None => None
    end.

Record codex_request := {
  codexBody : list (string * value);
  r_toolIdMap : jsmap;
  r_actualModel : value;
  r_gen : rng
}.

(** [if (c) o[k] = v], while the object literal is being filled *)
Definition add_if (c : bool) (k : string) (v : value) (fs : list (string * value))
  : list (string * value) :=
  if c then set_field k v fs else fs.

Definition convertAnthropicRequestToCodex (body baseModel : value) (g : rng)
  : option codex_request :=
  let pm := parseModelWithReasoning baseModel in
  thinking ← get body "thinking";
  fallbackEffort ← thinkingBudgetToEffort thinking;
  let effort := js_or (js_or (reasoningEffort pm) fallbackEffort) (VStr "medium") in
  let instructions := extractInstructionsFromSystem (field body "system") in
  a ← convertMessagesToCodexInput (js_or (field body "messages") (VArr [])) g;
  tools ← convertToolsToCodex (field body "tools");
  let toolChoice := convertToolChoiceToCodex (field body "tool_choice") in
  let fs0 := [("model", actualModel pm); ("input", VArr (input a))] in
  let fs1 := add_if (truthy (VStr instructions)) "instructions" (VStr instructions) fs0 in
  let fs2 := add_if (truthy (field body "max_tokens")) "max_output_tokens"
                    (field body "max_tokens") fs1 in
  let fs3 := add_if (negb (strict_eq (field body "stream") VUndef)) "stream"
                    (field body "stream") fs2 in
  let fs4 := add_if (truthy tools) "tools" tools fs3 in
  let fs5 := add_if (negb (strict_eq toolChoice VUndef)) "tool_choice" toolChoice fs4 in
  let fs6 := add_if (truthy effort) "reasoning"
                    (VObj [("effort", effort); ("summary", VStr "auto")]) fs5 in
  Some {| codexBody := fs6; r_toolIdMap := toolIdMap a;
          r_actualModel := actualModel pm; r_gen := gen a |}.

(** ** The bridge service: the streaming converter *)

(** One call of [writeAnthropicSseEvent(res, event, data)] *)
Record sse := {
  event : string;
  data : value
}.

(** The two chunks that call writes *)
Definition frame (e : sse) : list string :=
  ["event: " +:+ event e +:+ nl;
   "data: " +:+ to_string (JSON_stringify (data e)) +:+ nl +:+ nl].

(** [CodexToAnthropicStreamConverter]; [res] is what the client has been
    sent, oldest first *)
Record converter := {
  res : list sse;
  baseModel : value;
  c_toolIdMap : jsmap;
  reverseToolIdMap : jsmap;
  currentBlockIndex : Z;
  messageId : string;
  inputTokens : value;
  outputTokens : value;
  cacheReadInputTokens : value;
  messageStartSent : bool;
  currentFunctionCallId : value;
  currentFunctionCallName : value;
  c_gen : rng
}.

Definition new_converter (baseModel : value) (toolIdMap : jsmap) (g : rng) : converter :=
  let (x, g') := random_hex 16 g in
  {| res := []; baseModel := baseModel; c_toolIdMap := toolIdMap;
     reverseToolIdMap := []; currentBlockIndex := 0;
     messageId := "msg_" +:+ x;
     inputTokens := VNum 0; outputTokens := VNum 0; cacheReadInputTokens := VNum 0;
     messageStartSent := false;
     currentFunctionCallId := VNull; currentFunctionCallName := VNull;
     c_gen := g' |}.

Definition writeAnthropicSseEvent (c : converter) (ev : string) (d : value) : converter :=
  {| res := (res c ++ [{| event := ev; data := d |}])%list;
     baseModel := baseModel c; c_toolIdMap := c_toolIdMap c;
     reverseToolIdMap := reverseToolIdMap c; currentBlockIndex := currentBlockIndex c;
     messageId := messageId c; inputTokens := inputTokens c;
     outputTokens := outputTokens c; cacheReadInputTokens := cacheReadInputTokens c;
     messageStartSent := messageStartSent c;
     currentFunctionCallId := currentFunctionCallId c;
     currentFunctionCallName := currentFunctionCallName c; c_gen := c_gen c |}.

Definition set_messageStartSent (c : converter) : converter :=
  {| res := res c; baseModel := baseModel c; c_toolIdMap := c_toolIdMap c;
     reverseToolIdMap := reverseToolIdMap c; currentBlockIndex := currentBlockIndex c;
     messageId := messageId c; inputTokens := inputTokens c;
     outputTokens := outputTokens c; cacheReadInputTokens := cacheReadInputTokens c;
     messageStartSent := true;
     currentFunctionCallId := currentFunctionCallId c;
     currentFunctionCallName := currentFunctionCallName c; c_gen := c_gen c |}.

Definition set_currentBlockIndex (c : converter) (i : Z) : converter :=
  {| res := res c; baseModel := baseModel c; c_toolIdMap := c_toolIdMap c;
     reverseToolIdMap := reverseToolIdMap c; currentBlockIndex := i;
     messageId := messageId c; inputTokens := inputTokens c;
     outputTokens := outputTokens c; cacheReadInputTokens := cacheReadInputTokens c;
     messageStartSent := messageStartSent c;
     currentFunctionCallId := currentFunctionCallId c;
     currentFunctionCallName := currentFunctionCallName c; c_gen := c_gen c |}.

Definition set_currentFunctionCall (c : converter) (id name : value) : converter :=
  {| res := res c; baseModel := baseModel c; c_toolIdMap := c_toolIdMap c;
     reverseToolIdMap := reverseToolIdMap c; currentBlockIndex := currentBlockIndex c;
     messageId := messageId c; inputTokens := inputTokens c;
     outputTokens := outputTokens c; cacheReadInputTokens := cacheReadInputTokens c;
     messageStartSent := messageStartSent c;
     currentFunctionCallId := id; currentFunctionCallName := name; c_gen := c_gen c |}.

Definition set_tokens (c : converter) (i o r : value) : converter :=
  {| res := res c; baseModel := baseModel c; c_toolIdMap := c_toolIdMap c;
     reverseToolIdMap := reverseToolIdMap c; currentBlockIndex := currentBlockIndex c;
     messageId := messageId c; inputTokens := i;
     outputTokens := o; cacheReadInputTokens := r;
     messageStartSent := messageStartSent c;
     currentFunctionCallId := currentFunctionCallId c;
     currentFunctionCallName := currentFunctionCallName c; c_gen := c_gen c |}.

Definition set_gen (c : converter) (g : rng) : converter :=
  {| res := res c; baseModel := baseModel c; c_toolIdMap := c_toolIdMap c;
     reverseToolIdMap := reverseToolIdMap c; currentBlockIndex := currentBlockIndex c;
     messageId := messageId c; inputTokens := inputTokens c;
     outputTokens := outputTokens c; cacheReadInputTokens := cacheReadInputTokens c;
     messageStartSent := messageStartSent c;
     currentFunctionCallId := currentFunctionCallId c;
     currentFunctionCallName := currentFunctionCallName c; c_gen := g |}.

Definition zero_usage : value :=
  VObj [("input_tokens", VNum 0); ("output_tokens", VNum 0);
        ("cache_creation_input_tokens", VNum 0); ("cache_read_input_tokens", VNum 0)].

Definition _ensureMessageStart (c : converter) : converter :=
  if messageStartSent c then c
  else
    writeAnthropicSseEvent (set_messageStartSent c) "message_start"
      (VObj [("type", VStr "message_start");
             ("message",
               VObj [("id", VStr (messageId c));
                     ("type", VStr "message");
                     ("role", VStr "assistant");
                     ("model", VStr CODEX_RESPONSE_MODEL_ALIAS);
                     ("content", VArr []);
                     ("stop_reason", VNull);
                     ("stop_sequence", VNull);
                     ("usage", zero_usage)])]).

(** Linear scan of the forward map; [null] when no entry maps to the id *)
Fixpoint _getAnthropicToolId (m : jsmap) (codexCallId : value) : value :=
  match m with
  | [] => VNull
  | (anthropicId, mappedCodexId) :: rest =>
      if strict_eq mappedCodexId codexCallId then anthropicId
      else _getAnthropicToolId rest codexCallId
  end.

(** [mapped || `toolu_${crypto.randomBytes(12).toString('hex')}`]: entropy
    is drawn only when [mapped] is falsy *)
Definition mapped_or_fresh (mapped : value) (g : rng) : value * rng :=
  if truthy mapped then (mapped, g)
  else let (x, g') := random_hex 12 g in (VStr ("toolu_" +:+ x), g').

Definition _handleOutputItemAdded (ev : value) (c : converter) : converter :=
  let c1 := _ensureMessageStart c in
  let item := js_or (field ev "item") (VObj []) in
  if is_str (field item "type") "function_call" then
    let c2 := set_currentFunctionCall c1 (field item "call_id") (field item "name") in
    let (anthropicId, g') :=
      mapped_or_fresh (_getAnthropicToolId (c_toolIdMap c2) (field item "call_id"))
                      (c_gen c2) in
    writeAnthropicSseEvent (set_gen c2 g') "content_block_start"
      (VObj [("type", VStr "content_block_start");
             ("index", VNum (currentBlockIndex c2));
             ("content_block",
               VObj [("type", VStr "tool_use");
                     ("id", anthropicId);
                     ("name", js_or (field item "name") (VStr ""));
                     ("input", VObj [])])])
  else c1.

Definition _handleReasoningSummaryPartAdded (c : converter) : converter :=
  let c1 := _ensureMessageStart c in
  writeAnthropicSseEvent c1 "content_block_start"
    (VObj [("type", VStr "content_block_start");
           ("index", VNum (currentBlockIndex c1));
           ("content_block", VObj [("type", VStr "thinking"); ("thinking", VStr "")])]).

(** The three delta handlers differ in the payload only *)
Definition write_delta (kind key : string) (ev : value) (c : converter) : converter :=
  let delta := js_or (field ev "delta") (VStr "") in
  if truthy delta then
    writeAnthropicSseEvent c "content_block_delta"
      (VObj [("type", VStr "content_block_delta");
             ("index", VNum (currentBlockIndex c));
             ("delta", VObj [("type", VStr kind); (key, delta)])])
  else c.

Definition _handleReasoningSummaryTextDelta := write_delta "thinking_delta" "thinking".

Definition _handleOutputTextDelta := write_delta "text_delta" "text".

Definition _handleFunctionCallArgumentsDelta := write_delta "input_json_delta" "partial_json".

Definition _handleContentPartAdded (ev : value) (c : converter) : converter :=
  let c1 := _ensureMessageStart c in
  let part := js_or (field ev "part") (VObj []) in
  if is_str (field part "type") "output_text" then
    writeAnthropicSseEvent c1 "content_block_start"
      (VObj [("type", VStr "content_block_start");
             ("index", VNum (currentBlockIndex c1));
             ("content_block", VObj [("type", VStr "text"); ("text", VStr "")])])
  else c1.

Definition _handleBlockStop (c : converter) : converter :=
  let c1 :=
    writeAnthropicSseEvent c "content_block_stop"
      (VObj [("type", VStr "content_block_stop");
             ("index", VNum (currentBlockIndex c))]) in
  set_currentBlockIndex c1 (currentBlockIndex c1 + 1).

Definition _handleOutputItemDone (ev : value) (c : converter) : converter :=
  let item := js_or (field ev "item") (VObj []) in
  if is_str (field item "type") "function_call"
  then set_currentFunctionCall (_handleBlockStop c) VNull VNull
  else c.

(** Whether a handler returned or threw.  Fields assigned before the throw
    keep their new values. *)
Inductive outcome := Returned | Threw.

(** [l.some((item) => item.type === 'function_call')]: stops at the first
    hit, throws at a [null] met before it *)
Fixpoint some_function_call (l : list value) : option bool :=
  match l with
  | [] => Some false
  | item :: rest =>
      ty ← get item "type";
      if is_str ty "function_call" then Some true else some_function_call rest
  end.

(** [(output || []).some(...)]: only arrays have [some] *)
Definition output_has_function_call (output : value) : option bool :=
  match js_or output (VArr []) with
  | VArr l => some_function_call l
  | _ => None
  end.

Definition _handleResponseCompleted (ev : value) (c : converter) : converter * outcome :=
  let response := js_or (field ev "response") (VObj []) in
  let usage := js_or (field response "usage") (VObj []) in
  let inputTokensDetails := js_or (field usage "input_tokens_details") (VObj []) in
  let c1 := set_tokens c (js_or (field usage "input_tokens") (VNum 0))
                         (js_or (field usage "output_tokens") (VNum 0))
                         (js_or (field inputTokensDetails "cached_tokens") (VNum 0)) in
  let stopReason :=
    if is_str (field response "status") "incomplete"
       && is_str (opt_get (field response "incomplete_details") "reason") "max_output_tokens"
    then "max_tokens" else "end_turn" in
  match output_has_function_call (field response "output") with
  | None => (c1, Threw)
  | Some hasToolUse =>
      let stopReason := if hasToolUse then "tool_use" else stopReason in
      match js_sub (inputTokens c1) (cacheReadInputTokens c1) with
      | None => (c1, Threw)
      | Some netInputTokens =>
          let c2 :=
            writeAnthropicSseEvent c1 "message_delta"
              (VObj [("type", VStr "message_delta");
                     ("delta", VObj [("stop_reason", VStr stopReason);
                                     ("stop_sequence", VNull)]);
                     ("usage",
                       VObj [("input_tokens", netInputTokens);
                             ("output_tokens", outputTokens c1);
                             ("cache_read_input_tokens", cacheReadInputTokens c1);
                             ("cache_creation_input_tokens", VNum 0)])]) in
          (writeAnthropicSseEvent c2 "message_stop" (VObj [("type", VStr "message_stop")]),
           Returned)
      end
  end.

Definition processEvent (ev : value) (c : converter) : converter * outcome :=
  if negb (truthy ev) || negb (truthy (field ev "type")) then (c, Returned)
  else
    let ty := field ev "type" in
    if is_str ty "response.created" then (_ensureMessageStart c, Returned)
    else if is_str ty "response.output_item.added" then (_handleOutputItemAdded ev c, Returned)
    else if is_str ty "response.reasoning_summary_part.added"
      then (_handleReasoningSummaryPartAdded c, Returned)
    else if is_str ty "response.reasoning_summary_text.delta"
      then (_handleReasoningSummaryTextDelta ev c, Returned)
    else if is_str ty "response.reasoning_summary_part.done" then (_handleBlockStop c, Returned)
    else if is_str ty "response.content_part.added" then (_handleContentPartAdded ev c, Returned)
    else if is_str ty "response.output_text.delta" then (_handleOutputTextDelta ev c, Returned)
    else if is_str ty "response.content_part.done" then (_handleBlockStop c, Returned)
    else if is_str ty "response.function_call_arguments.delta"
      then (_handleFunctionCallArgumentsDelta ev c, Returned)
    else if is_str ty "response.output_item.done" then (_handleOutputItemDone ev c, Returned)
    else if is_str ty "response.completed" then _handleResponseCompleted ev c
    else (c, Returned).

Record stream_usage := {
  u_inputTokens : value;
  u_outputTokens : value;
  u_cacheReadInputTokens : value
}.

Definition getUsage (c : converter) : option stream_usage :=
  netInputTokens ← js_sub (inputTokens c) (cacheReadInputTokens c);
  Some {| u_inputTokens := netInputTokens;
          u_outputTokens := outputTokens c;
          u_cacheReadInputTokens := cacheReadInputTokens c |}.

(** The converter fed a sequence of upstream events, one [processEvent] call
    each.  When a call throws, [handleStreamResponse] logs the error, drops
    the rest of that chunk and goes on with the next one, so what the
    converter sees is again a sequence of calls. *)
Definition feed (evs : list value) (c : converter) : converter :=
  fold_left (fun c ev => fst (processEvent ev c)) evs c.

(** The arguments of [apiKeyService.recordUsage] that carry token counts *)
Record recorded_usage := {
  rec_inputTokens : value;
  rec_outputTokens : value;
  rec_cacheCreateTokens : value;
  rec_cacheReadTokens : value
}.

(** [a > 0 || b > 0]: [b] is converted only when [a > 0] is false *)
Definition some_positive (a b : value) : option bool :=
  match gt_zero a with
  | Some true => Some true
  | Some false => gt_zero b
  | None => None
  end.

(** What [handleStreamResponse] hands to the sink at the end of the stream:
    nothing ([Some None]) unless some count is positive; [None] is a
    TypeError of [getUsage] or of the comparison *)
Definition stream_recordUsage (c : converter) : option (option recorded_usage) :=
  usage ← getUsage c;
  match some_positive (u_inputTokens usage) (u_outputTokens usage) with
  | Some true =>
      Some (Some {| rec_inputTokens := u_inputTokens usage;
                    rec_outputTokens := u_outputTokens usage;
                    rec_cacheCreateTokens := VNum 0;
                    rec_cacheReadTokens := u_cacheReadInputTokens usage |})
  | Some false => Some None
  | None => None
  end.

(** ** The bridge service: the non-streaming translator *)

Section NonStream.

(** [JSON.parse] of the runtime on a text; [None] is its SyntaxError.  Its
    argument is converted to a text first; the translator catches what
    either step throws. *)
Variable JSON_parse : string -> option value.

(** [summaryParts.map((p) => p.text || '')] *)
Fixpoint summary_texts (parts : list value) : option (list value) :=
  match parts with
  | [] => Some []
  | p :: rest =>
      t ← get p "text";
      ts ← summary_texts rest;
      Some (js_or t (VStr "") :: ts)
  end.

Definition message_part (content : list value) (part : value) : option (list value) :=
  ty ← get part "type";
  if is_str ty "output_text"
  then Some (content ++ [VObj [("type", VStr "text");
                               ("text", js_or (field part "text") (VStr ""))]])%list
  else Some content.

(** One turn of the loop over [codexResponse.output] *)
Definition output_item (reverse : jsmap) (st : list value * rng) (item : value)
  : option (list value * rng) :=
  let (content, g) := st in
  ty ← get item "type";
  if is_str ty "reasoning" then
    match js_or (field item "summary") (VArr []) with
    | VArr summaryParts =>
        texts ← summary_texts summaryParts;
        thinkingText ← join "" texts;
        if truthy (VStr thinkingText)
        then Some ((content ++ [VObj [("type", VStr "thinking");
                                      ("thinking", VStr thinkingText)]])%list, g)
        else Some (content, g)
    | _ => None
    end
  else if is_str ty "message" then
    msgContent ← iterate (js_or (field item "content") (VArr []));
    content' ← fold_opt message_part content msgContent;
    Some (content', g)
  else if is_str ty "function_call" then
    let (anthropicId, g') := mapped_or_fresh (map_get reverse (field item "call_id")) g in
    let parsedInput :=
      if truthy (field item "arguments")
      then match ToString (field item "arguments") ≫= JSON_parse with
           | Some v => v
           | None => VObj [("raw", field item "arguments")]
           end
      else VObj [] in
    Some ((content ++ [VObj [("type", VStr "tool_use");
                             ("id", anthropicId);
                             ("name", field item "name");
                             ("input", parsedInput)]])%list, g')
  else Some (content, g).

Definition convertCodexResponseToAnthropic (codexResponse baseModel : value)
  (toolIdMap : jsmap) (g : rng) : option (value * rng) :=
  let reverseToolIdMap := fold_left (fun m e => map_set m (snd e) (fst e)) toolIdMap [] in
  out ← get codexResponse "output";
  output ← iterate (js_or out (VArr []));
  '(content, g1) ← fold_opt (output_item reverseToolIdMap) ([], g) output;
  let stopReason :=
    if is_str (field codexResponse "status") "incomplete"
       && is_str (opt_get (field codexResponse "incomplete_details") "reason")
                 "max_output_tokens"
    then "max_tokens" else "end_turn" in
  let stopReason :=
    if existsb (fun c => is_str (field c "type") "tool_use") content
    then "tool_use" else stopReason in
  let codexUsage := js_or (field codexResponse "usage") (VObj []) in
  let inputTokens := js_or (field codexUsage "input_tokens") (VNum 0) in
  let outputTokens := js_or (field codexUsage "output_tokens") (VNum 0) in
  let inputTokensDetails := js_or (field codexUsage "input_tokens_details") (VObj []) in
  let cacheReadInputTokens := js_or (field inputTokensDetails "cached_tokens") (VNum 0) in
  let (x, g2) := random_hex 16 g1 in
  netInputTokens ← js_sub inputTokens cacheReadInputTokens;
  Some (VObj [("id", VStr ("msg_" +:+ x));
              ("type", VStr "message");
              ("role", VStr "assistant");
              ("model", VStr CODEX_RESPONSE_MODEL_ALIAS);
              ("content", VArr content);
              ("stop_reason", VStr stopReason);
              ("stop_sequence", VNull);
              ("usage",
                VObj [("input_tokens", netInputTokens);
                      ("output_tokens", outputTokens);
                      ("cache_creation_input_tokens", VNum 0);
                      ("cache_read_input_tokens", cacheReadInputTokens)])],
        g2).

End NonStream.


End Bridge.

(** ** The bridge service: the request sent upstream *)

Module Handler.
Import JS Adapter Bridge.

(** What is left of [s] after the literal [p], when [s] starts with it *)
Fixpoint after_literal (p s : string) : option string :=
  match p, s with
  | EmptyString, _ => Some s
  | String a p', String b s' => if Ascii.eqb a b then after_literal p' s' else None
  | String _ _, EmptyString => None
  end.

(** [/^(codex_vscode|codex_cli_rs|codex_exec)\/[\d.]+/i.test(userAgent)]:
    one of the three names in either case, a slash, and at least one digit
    or dot; nothing is asked of what follows *)
Definition codexCliPattern_test (userAgent : string) : bool :=
  existsb (fun name =>
             match after_literal (name +:+ "/") (toLowerCase userAgent) with
             | Some (String a _) => is_digit a || Ascii.eqb a "."
             | _ => false
             end)
          ["codex_vscode"; "codex_cli_rs"; "codex_exec"].

(** Steps 3 to 8 of [handleAnthropicMessagesToCodex], from the translation
    of the request to the [finalBody] that is posted: the heap with
    [finalBody] in it, and the reference.  [accountType] is what account
    selection returned, [userAgent] the request's [user-agent] header and
    [adapterConfig] the configured [codexAdapter].  A throw of the
    translation ends the request before anything is posted. *)
Definition handleAnthropicMessagesToCodex (reqBody baseModel : value)
  (accountType : string) (userAgent adapterConfig : value) (g : rng)
  : option (heap * loc) :=
  r ← convertAnthropicRequestToCodex reqBody baseModel g;
  let (h0, cb) := alloc [] (VObj (codexBody r)) in
  let h1 :=
    if String.eqb accountType "openai-responses" then h0
    else write_field h0 cb "store" (VBool false) in
  let isCodexCLI := codexCliPattern_test (to_string (js_or userAgent (VStr ""))) in
  let (h2, adapterResult) := adaptCodexRequestBody h1 cb isCodexCLI adapterConfig VUndef in
  let finalBody := if applied adapterResult then body adapterResult else cb in
  Some (write_field h2 finalBody "stream" (VBool true), finalBody).

End Handler.

(** * Vocabulary of the properties *)

Import JS.
Import Adapter.
Import Bridge.
Import Handler.

(** ** The model-name parser *)

(** The round trip as the specification words it: putting the effort back
    behind a dash gives the model name that was parsed *)
Definition reattach_reconstructs (s : string) : Prop :=
  forall m e,
    parseModelWithReasoning (VStr s)
      = {| actualModel := VStr m; reasoningEffort := VStr e |} ->
    m +:+ "-" +:+ e = s.

(** ** Tool choice *)

(** The six forms the specification lists *)
Definition listed_tool_choice (tc : value) : bool :=
  is_str tc "auto" || is_str tc "none" || is_str tc "any"
  || (String.eqb (typeof tc) "object"
      && (is_str (field tc "type") "auto"
          || is_str (field tc "type") "any"
          || is_str (field tc "type") "tool")).

(** The values that are sent on in some form: non-empty strings, and objects
    of type [auto], [any], or [tool] with a non-empty name *)
Definition sent_tool_choice (tc : value) : bool :=
  match tc with
  | VStr s => negb (String.eqb s "")
  | VObj _ | VArr _ =>
      is_str (field tc "type") "auto"
      || is_str (field tc "type") "any"
      || (is_str (field tc "type") "tool" && truthy (field tc "name"))
  | _ => false
  end.

(** The last clause of the specification: any value outside the list is
    left out *)
Definition unlisted_is_omitted (tc : value) : Prop :=
  listed_tool_choice tc = false -> convertToolChoiceToCodex tc = VUndef.

(** ** The adapter: frames and stripping *)

Definition frame_of (h h' : heap) (processedBody : loc) : Prop :=
  length h' = length h /\ forall l', l' <> processedBody -> h' !! l' = h !! l'.

(** The fields that survive once the values [stripped] have been deleted *)
Definition kept (stripped : list value) (key : string) : bool :=
  negb (existsb (fun f => String.eqb (to_string f) key) stripped).

Definition stripped_state (h0 : heap) (processedBody : loc) (fs0 : list (string * value))
  (st : heap * list value) : Prop :=
  frame_of h0 (fst st) processedBody
  /\ read (fst st) processedBody
     = VObj (List.filter (fun p => kept (snd st) (fst p)) fs0).

(** ** The adapter: the instructions stage *)

(** The [instructions] field the result holds when the stage wrote nothing:
    the client's, unless field stripping removed it *)
Definition after_stripping (stripped : list value) (client : value) : value :=
  if existsb (fun f => String.eqb (to_string f) "instructions") stripped
  then VUndef else client.

(** C9 as the specification words it, at one call *)
Definition instructions_left_unchanged (h : heap) (body : loc) (cli : bool)
  (cfg dflt : value) : Prop :=
  isNonEmptyString (text (instructions (resolveAdapterConfig cfg dflt))) = false ->
  let (h', r) := adaptCodexRequestBody h body cli cfg dflt in
  c_instructions (r_changes r) = None
  /\ field (read h' (Adapter.body r)) "instructions" = field (read h body) "instructions".

(** C4 as the specification words its second half, at one call *)
Definition client_instructions_kept (h : heap) (body : loc) (cli : bool)
  (cfg dflt : value) : Prop :=
  let s := resolveAdapterConfig cfg dflt in
  mode (instructions s) = "none" ->
  String.eqb (applyWhen (instructions s)) "all" || negb cli = true ->
  isNonEmptyString (text (instructions s)) = true ->
  isNonEmptyString (field (read h body) "instructions") = true ->
  let (h', r) := adaptCodexRequestBody h body cli cfg dflt in
  field (read h' (Adapter.body r)) "instructions" = field (read h body) "instructions"
  /\ c_instructions (r_changes r) = None.

(** ** The streaming converter *)

(** The kinds of the events written so far, oldest first *)
Definition names (c : converter) : list string := map event (res c).

Definition has_start (tr : list string) : bool := existsb (String.eqb "message_start") tr.

(** One pass over a trace: [message_start] only while none was seen,
    [content_block_start] only after one *)
Fixpoint scan (seen : bool) (tr : list string) : bool :=
  match tr with
  | [] => true
  | e :: rest =>
      if String.eqb e "message_start" then negb seen && scan true rest
      else if String.eqb e "content_block_start" then seen && scan seen rest
      else scan seen rest
  end.

(** The upstream events on which the converter makes sure that
    [message_start] is out *)
Definition opens (ev : value) : bool :=
  truthy ev
  && (is_str (field ev "type") "response.created"
      || is_str (field ev "type") "response.output_item.added"
      || is_str (field ev "type") "response.reasoning_summary_part.added"
      || is_str (field ev "type") "response.content_part.added").

(** [messageStartSent] tells whether [message_start] is out, and the trace
    is in order *)
Definition start_flag_ok (c : converter) : Prop :=
  scan false (names c) = true /\ messageStartSent c = has_start (names c).

(** What one [processEvent] call writes and what it leaves in
    [messageStartSent], as a function of the event and of the flag alone *)
Definition ensured (sent : bool) : list string :=
  if sent then [] else ["message_start"].

Definition delta_names (ev : value) : list string :=
  if truthy (js_or (field ev "delta") (VStr "")) then ["content_block_delta"] else [].

(** [_handleResponseCompleted] gets to its two writes: neither the scan of
    [output] nor the subtraction of the counts throws *)
Definition completed_returns (ev : value) : bool :=
  let response := js_or (field ev "response") (VObj []) in
  let usage := js_or (field response "usage") (VObj []) in
  let inputTokensDetails := js_or (field usage "input_tokens_details") (VObj []) in
  match output_has_function_call (field response "output"),
        js_sub (js_or (field usage "input_tokens") (VNum 0))
               (js_or (field inputTokensDetails "cached_tokens") (VNum 0)) with
  | Some _, Some _ => true
  | _, _ => false
  end.

Definition step_names (ev : value) (sent : bool) : list string * bool :=
  if negb (truthy ev) || negb (truthy (field ev "type")) then ([], sent)
  else
    let ty := field ev "type" in
    if is_str ty "response.created" then (ensured sent, true)
    else if is_str ty "response.output_item.added" then
      (ensured sent ++
         (if is_str (field (js_or (field ev "item") (VObj [])) "type") "function_call"
          then ["content_block_start"] else []), true)
    else if is_str ty "response.reasoning_summary_part.added"
      then (ensured sent ++ ["content_block_start"], true)
    else if is_str ty "response.reasoning_summary_text.delta" then (delta_names ev, sent)
    else if is_str ty "response.reasoning_summary_part.done"
      then (["content_block_stop"], sent)
    else if is_str ty "response.content_part.added" then
      (ensured sent ++
         (if is_str (field (js_or (field ev "part") (VObj [])) "type") "output_text"
          then ["content_block_start"] else []), true)
    else if is_str ty "response.output_text.delta" then (delta_names ev, sent)
    else if is_str ty "response.content_part.done" then (["content_block_stop"], sent)
    else if is_str ty "response.function_call_arguments.delta" then (delta_names ev, sent)
    else if is_str ty "response.output_item.done" then
      (if is_str (field (js_or (field ev "item") (VObj [])) "type") "function_call"
       then ["content_block_stop"] else [], sent)
    else if is_str ty "response.completed" then
      (if completed_returns ev then ["message_delta"; "message_stop"] else [], sent)
    else ([], sent).

Definition at_most_once (tr : list string) : Prop :=
  count_occ string_dec tr "message_start" <= 1.

(** [message_start] stands before every event of one of the [kinds] *)
Definition precedes_every (kinds : list string) (tr : list string) : Prop :=
  forall pre e post, tr = pre ++ e :: post -> In e kinds -> In "message_start" pre.

(** C1 as the specification words it *)
Definition start_before_all_blocks (tr : list string) : Prop :=
  at_most_once tr
  /\ precedes_every ["content_block_start"; "content_block_delta"; "content_block_stop"] tr.

(** ** The terminal payload *)

(** Neither [undefined] nor [null]: a value whose properties can be read *)
Definition non_nullish (v : value) : bool :=
  match v with VUndef | VNull => false | _ => true end.

(** The response both paths read off a [response.completed] event:
    [event.response || {}] *)
Definition response_of (ev : value) : value := js_or (field ev "response") (VObj []).

(** The counts both paths read: [usage.input_tokens || 0],
    [usage.output_tokens || 0] and
    [usage.input_tokens_details.cached_tokens || 0], with [{}] for a falsy
    [usage] or [input_tokens_details] *)
Definition input_count (resp : value) : value :=
  js_or (field (js_or (field resp "usage") (VObj [])) "input_tokens") (VNum 0).

Definition output_count (resp : value) : value :=
  js_or (field (js_or (field resp "usage") (VObj [])) "output_tokens") (VNum 0).

Definition cached_count (resp : value) : value :=
  js_or (field (js_or (field (js_or (field resp "usage") (VObj [])) "input_tokens_details")
                      (VObj []))
               "cached_tokens")
        (VNum 0).

(** The two counts that are subtracted convert to a number, so the
    subtraction returns *)
Definition counts_subtract (resp : value) : bool :=
  to_primitive_ok (input_count resp) && to_primitive_ok (cached_count resp).

Definition is_function_call (item : value) : bool :=
  is_str (field item "type") "function_call".

(** [some] reads the items up to the first function call: none of them is
    [null] *)
Fixpoint some_reads (items : list value) : bool :=
  match items with
  | [] => true
  | item :: rest => non_nullish item && (is_function_call item || some_reads rest)
  end.

(** The payloads on which the streaming converter returns: [output] is
    falsy or a list that [some] can read, and the counts subtract *)
Definition stream_reads (resp : value) : bool :=
  match js_or (field resp "output") (VArr []) with
  | VArr items => some_reads items
  | _ => false
  end
  && counts_subtract resp.

(** A part of a reasoning summary the translator can read: not [null], and
    its text converts to a string *)
Definition summary_part_ok (p : value) : bool :=
  non_nullish p && to_primitive_ok (js_or (field p "text") (VStr "")).

(** An output item the translator can read: not [null]; the [summary] of a
    reasoning item is falsy or a list of readable parts; the [content] of a
    message is falsy, a string, or a list without [null] *)
Definition output_item_ok (item : value) : bool :=
  non_nullish item
  && (if is_str (field item "type") "reasoning" then
        match js_or (field item "summary") (VArr []) with
        | VArr parts => forallb summary_part_ok parts
        | _ => false
        end
      else if is_str (field item "type") "message" then
        match js_or (field item "content") (VArr []) with
        | VArr parts => forallb non_nullish parts
        | VStr _ => true
        | _ => false
        end
      else true).

(** The payloads on which the non-streaming translator returns: [output] is
    falsy, a string, or a list of readable items, and the counts subtract *)
Definition translator_reads (resp : value) : bool :=
  non_nullish resp
  && match js_or (field resp "output") (VArr []) with
     | VArr items => forallb output_item_ok items
     | VStr _ => true
     | _ => false
     end
  && counts_subtract resp.

Definition has_function_call_item (resp : value) : bool :=
  match field resp "output" with
  | VArr items => existsb is_function_call items
  | _ => false
  end.

(** The stop reason as the specification derives it: [end_turn] by default,
    [max_tokens] for an incomplete response that ran out of output tokens,
    [tool_use] over both when an output item is a function call *)
Definition derived_stop_reason (resp : value) : string :=
  if has_function_call_item resp then "tool_use"
  else if is_str (field resp "status") "incomplete"
          && is_str (field (field resp "incomplete_details") "reason") "max_output_tokens"
       then "max_tokens"
       else "end_turn".




(** The usage object with the net input [net] *)
Definition usage_of (resp net : value) : value :=
  VObj [("input_tokens", net);
        ("output_tokens", output_count resp);
        ("cache_read_input_tokens", cached_count resp);
        ("cache_creation_input_tokens", VNum 0)].


Definition recorded (i o k : Z) : recorded_usage :=
  {| rec_inputTokens := VNum (i - k); rec_outputTokens := VNum o;
     rec_cacheCreateTokens := VNum 0; rec_cacheReadTokens := VNum k |}.


Definition is_tool_use (block : value) : bool := is_str (field block "type") "tool_use".

Definition message_delta_of (stop_reason : string) (usage : value) : sse :=
  {| event := "message_delta";
     data := VObj [("type", VStr "message_delta");
                   ("delta", VObj [("stop_reason", VStr stop_reason);
                                   ("stop_sequence", VNull)]);
                   ("usage", usage)] |}.

Definition message_stop_event : sse :=
  {| event := "message_stop"; data := VObj [("type", VStr "message_stop")] |}.


Definition overcached : value :=
  VObj [("type", VStr "response.completed");
        ("response",
          VObj [("status", VStr "completed");
                ("output", VArr []);
                ("usage",
                  VObj [("input_tokens", VNum 10);
                        ("output_tokens", VNum 5);
                        ("input_tokens_details", VObj [("cached_tokens", VNum 40)])])])].

(** C6 as the specification words it: both paths derive a stop reason from
    the payload of the event, and it is the same one *)
Definition same_stop_reason (parse : string -> option value) (ev baseModel : value)
  (toolIdMap : jsmap) (g : rng) (c : converter) : Prop :=
  exists s c' usage a g',
    processEvent ev c = (c', Returned)
    /\ res c' = (res c ++ [message_delta_of s usage; message_stop_event])%list
    /\ convertCodexResponseToAnthropic parse (response_of ev) baseModel toolIdMap g
       = Some (a, g')
    /\ field a "stop_reason" = VStr s.

(** A function call followed by [null] in [output] *)
Definition call_then_null : value :=
  VObj [("type", VStr "response.completed");
        ("response",
          VObj [("status", VStr "completed");
                ("output",
                  VArr [VObj [("type", VStr "function_call"); ("call_id", VStr "call_A");
                              ("name", VStr "run"); ("arguments", VStr "{}")];
                        VNull])])].

(** ** Request translation *)

(** A part of a [tool_result] content list that can be read: it is not
    [null], and if it is a text part, its text converts to a string *)
Definition result_part_ok (c : value) : bool :=
  non_nullish c
  && (negb (is_str (field c "type") "text")
      || to_primitive_ok (js_or (field c "text") (VStr ""))).

(** The content of a [tool_result] block can be read: if it is a list,
    every part of the list can be read *)
Definition result_content_ok (b : value) : bool :=
  match field b "content" with
  | VArr parts => forallb result_part_ok parts
  | _ => true
  end.

(** A block of a user turn that can be read: it is not [null], and if it is
    a [tool_result], its content can be read *)
Definition user_block_ok (b : value) : bool :=
  non_nullish b
  && (if is_str (field b "type") "tool_result" then result_content_ok b else true).

(** A turn that can be read: it is not [null]; the blocks of a user turn can
    be read; no block of an assistant turn is [null] *)
Definition turn_ok (m : value) : bool :=
  non_nullish m
  && (if is_str (field m "role") "user"
      then forallb user_block_ok (normalizeContent (field m "content"))
      else if is_str (field m "role") "assistant"
           then forallb non_nullish (normalizeContent (field m "content"))
           else true).

(** C10 as the specification words it: translation of the messages returns *)
Definition translation_returns (messages : value) (g : rng) : Prop :=
  exists a, convertMessagesToCodexInput messages g = Some a.

Definition is_call_output (item : value) : bool :=
  is_str (field item "type") "function_call_output".

(** The [function_call] and [function_call_output] items of the input *)
Definition calls (a : acc) : list value := List.filter is_function_call (input a).

Definition call_outputs (a : acc) : list value := List.filter is_call_output (input a).

(** Blocks and turns that neither call a tool nor answer a call *)
Definition quiet_user_block (b : value) : bool :=
  negb (is_str (field b "type") "tool_result").

Definition quiet_assistant_block (b : value) : bool :=
  negb (is_str (field b "type") "tool_use").

Definition quiet_turn (m : value) : bool :=
  if is_str (field m "role") "user"
  then forallb quiet_user_block (normalizeContent (field m "content"))
  else if is_str (field m "role") "assistant"
       then forallb quiet_assistant_block (normalizeContent (field m "content"))
       else true.

(** A [tool_use] block whose id is the map key [q] *)
Definition remaps (q : value) (b : value) : bool :=
  is_tool_use b && same_value_zero (field b "id") q.

(** An assistant turn with such a block *)
Definition turn_remaps (q : value) (m : value) : bool :=
  is_str (field m "role") "assistant"
  && existsb (remaps q) (normalizeContent (field m "content")).


Fixpoint all_chars (P : ascii -> bool) (s : string) : bool :=
  match s with
  | String a rest => P a && all_chars P rest
  | EmptyString => true
  end.


(** The input has grown from [base], and the tool-id map holds [v] under
    the key [q] *)
Definition holds (q v : value) (base : list value) (a : acc) : Prop :=
  map_get (toolIdMap a) q = v /\ exists items, input a = base ++ items.

(** Nothing about calls has changed between two states of the translation *)
Definition unchanged_calls (a a' : acc) : Prop :=
  toolIdMap a' = toolIdMap a /\ gen a' = gen a
  /\ calls a' = calls a /\ call_outputs a' = call_outputs a.

(** The item a [tool_use] block becomes *)
Definition call_item (callId : string) (block : value) : value :=
  VObj [("type", VStr "function_call");
        ("call_id", VStr callId);
        ("name", field block "name");
        ("arguments",
          if String.eqb (typeof (field block "input")) "string"
          then field block "input"
          else JSON_stringify (field block "input"))].

(** The item a [tool_result] block becomes *)
Definition call_output_item (callId : value) (outputText : string) : value :=
  VObj [("type", VStr "function_call_output");
        ("call_id", callId);
        ("output", VStr outputText)].

(** The shape of the JSON text [t] of a value other than a string *)
Definition json_shape (v : value) (t : string) : Prop :=
  match v with
  | VArr _ => exists body, t = "[" +:+ body +:+ "]"
  | VObj _ => exists body, t = "{" +:+ body +:+ "}"
  | VNull | VNaN => t = "null"
  | VBool b => t = if b then "true" else "false"
  | VNum n => t = if finite n then number_to_string n else "null"
  | _ => True
  end.



(** ** The adapter: blank texts and listed fields *)

(** Nothing but white space, as [trim] sees it *)
Definition blank (s : string) : bool := all_chars is_ws s.

(** The key [k] is named by one of the values [fs], each read as a property
    key *)
Definition listed (fs : list value) (k : string) : bool :=
  existsb (fun f => String.eqb (to_string f) k) fs.

(** The one situation in which the two copies of the adapter part ways *)
Definition backfill_case (h : heap) (body : loc) (cli : bool) (s : settings) : bool :=
  String.eqb (mode (instructions s)) "none"
  && (String.eqb (applyWhen (instructions s)) "all" || negb cli)
  && isNonEmptyString (text (instructions s))
  && negb (isNonEmptyString (field (read h body) "instructions")).

(** The adapter goes past its two early returns *)
Definition adapter_runs (h : heap) (body : loc) (s : settings) : bool :=
  truthy (read h body) && String.eqb (typeof (read h body)) "object" && enabled s.

(** ** Request translation: system parts, tools and call ids *)

(** A part of a [system] list that [extractInstructionsFromSystem] passes
    over *)
Definition skipped_system_part (item : value) : bool :=
  negb (truthy item)
  || negb (is_str (field item "type") "text")
  || match field item "text" with
     | VStr t =>
         startsWith (trim t) "x-anthropic-billing-header"
         || startsWith (trim t) "<system-reminder>"
     | _ => true
     end.

(** [{ type: 'text', text: t }] *)
Definition text_part (t : string) : value := VObj [("type", VStr "text"); ("text", VStr t)].

(** The Codex function a tool becomes *)
Definition function_of (tool fn : value) : Prop :=
  field fn "type" = VStr "function"
  /\ field fn "name" = field tool "name"
  /\ strict_eq (field fn "description") VUndef = false
  /\ (truthy (field tool "description") = true ->
      field fn "description" = field tool "description")
  /\ truthy (field fn "parameters") = true
  /\ (truthy (field tool "input_schema") = true ->
      field fn "parameters" = field tool "input_schema").

(** The id drawn for the [i]-th call of a request that started from [g] *)
Definition nth_call_id (g : rng) (i : nat) : string :=
  "call_" +:+ hex (map (entropy g) (seq (cursor g + 12 * i) 12)).

(** Every block either leaves the state alone, pushes one item that is no
    call, or (a [tool_use]) pushes a call under a fresh id *)
Inductive block_effect (a a' : acc) : Prop :=
| effect_none : a' = a -> block_effect a a'
| effect_push (item : value) :
    a' = push a item -> is_function_call item = false -> block_effect a a'
| effect_call (block : value) :
    input a' = input a ++ [call_item (fst (generateCodexCallId (gen a))) block] ->
    toolIdMap a'
      = map_set (toolIdMap a) (field block "id")
                (VStr (fst (generateCodexCallId (gen a)))) ->
    gen a' = snd (generateCodexCallId (gen a)) ->
    block_effect a a'.

(** The calls made so far hold the ids drawn so far, in order, and the tool
    map holds no other *)
Definition call_ids_in_order (g : rng) (a : acc) : Prop :=
  entropy (gen a) = entropy g
  /\ cursor (gen a) = cursor g + 12 * length (calls a)
  /\ (forall i c, calls a !! i = Some c -> field c "call_id" = VStr (nth_call_id g i))
  /\ Forall (fun e => exists i, i < length (calls a) /\ snd e = VStr (nth_call_id g i))
            (toolIdMap a).

(** ** The streaming converter: block indices and tool ids *)

(** The events that close a block, and those that belong to one *)
Definition is_stop (e : sse) : bool := String.eqb (event e) "content_block_stop".

Definition is_block_event (e : sse) : bool :=
  String.eqb (event e) "content_block_start"
  || String.eqb (event e) "content_block_delta"
  || is_stop e.

(** The number of blocks closed in what was written *)
Definition stops (l : list sse) : Z := Z.of_nat (length (List.filter is_stop l)).

(** Every block event carries the number of blocks closed before it,
    counting from [n] *)
Fixpoint indexed_from (n : Z) (l : list sse) : bool :=
  match l with
  | [] => true
  | e :: rest =>
      (if is_block_event e then strict_eq (field (data e) "index") (VNum n) else true)
      && indexed_from (if is_stop e then n + 1 else n)%Z rest
  end.

(** What was written is indexed from 0, and [currentBlockIndex] counts the
    blocks closed *)
Definition index_ok (c : converter) : Prop :=
  indexed_from 0 (res c) = true /\ currentBlockIndex c = stops (res c).

(** A tool-id map all of whose Codex ids are strings *)
Definition string_valued (m : jsmap) : Prop :=
  Forall (fun e => exists s, snd e = VStr s) m.

(** ** The frames on the wire *)

(** Not a C0 control character: a code unit from 32 on.  DEL and the C1
    controls (128 to 159) are among them. *)
Definition above_c0 (a : ascii) : bool := (32 <=? nat_of_ascii a)%nat.

(** A text without a C0 control character, so without a line feed and
    without a carriage return: it stays on one line of the stream *)
Definition one_line (s : string) : bool := all_chars above_c0 s.

(** ** The request sent upstream *)

(** The translated body as the handler hands it to the adapter *)
Definition translated_body (accountType : string) (r : codex_request)
  : list (string * value) :=
  if String.eqb accountType "openai-responses" then codexBody r
  else set_field "store" (VBool false) (codexBody r).

(** * Properties *)

(** Case analysis on every test and pair the goal branches on *)
Ltac split_ifs :=
  repeat match goal with
         | |- context [if ?b then _ else _] => destruct b eqn:?
         | |- context [let (_, _) := ?p in _] => destruct p eqn:?
         | |- context [match ?o with Some _ => _ | None => _ end] => destruct o eqn:?
         end.


(** ** Strings *)

Section StringFacts.

Lemma append_cons (x : ascii) (a b : string) : String x a +:+ b = String x (a +:+ b).
Proof. reflexivity. Qed.

Lemma append_nil (b : string) : "" +:+ b = b.
Proof. reflexivity. Qed.

Lemma append_assoc (a b c : string) : (a +:+ b) +:+ c = a +:+ (b +:+ c).
Proof.
  induction a as [|x a IH]; [reflexivity |].
  rewrite !append_cons. f_equal. exact IH.
Qed.

Lemma substring_prefix (pre rest : string) :
  String.substring 0 (String.length pre) (pre +:+ rest) = pre.
Proof.
  induction pre as [|x pre IH].
  - rewrite append_nil. now destruct rest.
  - rewrite append_cons. simpl. f_equal. exact IH.
Qed.

Lemma substring_all (s : string) : String.substring 0 (String.length s) s = s.
Proof. induction s as [|y s IH]; simpl; [reflexivity | f_equal; exact IH]. Qed.

Lemma substring_suffix (pre rest : string) :
  String.substring (String.length pre) (String.length rest) (pre +:+ rest) = rest.
Proof.
  induction pre as [|x pre IH].
  - rewrite append_nil. apply substring_all.
  - rewrite append_cons. simpl. exact IH.
Qed.

Lemma length_append (a b : string) :
  String.length (a +:+ b) = (String.length a + String.length b)%nat.
Proof.
  induction a as [|x a IH]; [reflexivity |].
  rewrite append_cons. simpl. f_equal. exact IH.
Qed.

(** The scan returns either what it was given or the position of a [c] *)
Lemma last_index_from_split (c : ascii) (s : string) (i found : Z) :
  last_index_from c s i found = found
  \/ exists pre post,
       s = pre +:+ String c post
       /\ last_index_from c s i found = (i + Z.of_nat (String.length pre))%Z.
Proof.
  revert i found. induction s as [|a s IH]; intros i found; simpl.
  - now left.
  - destruct (IH (i + 1)%Z (if Ascii.eqb a c then i else found)) as [E | (pre & post & -> & E)].
    + rewrite E. destruct (Ascii.eqb_spec a c) as [-> | _].
      * right. exists "", s. rewrite append_nil. simpl. split; [reflexivity | lia].
      * now left.
    + right. exists (String a pre), post. rewrite append_cons. split; [reflexivity |].
      rewrite E. simpl String.length. lia.
Qed.

Lemma slice_head (pre post : string) (c : ascii) :
  slice (pre +:+ String c post) 0 (Z.of_nat (String.length pre)) = pre.
Proof.
  unfold slice. rewrite length_append. simpl String.length.
  replace (0 <? 0)%Z with false by reflexivity.
  destruct (Z.ltb_spec (Z.of_nat (String.length pre)) 0); [lia |].
  replace (Z.to_nat (Z.min 0 _)) with 0%nat by lia.
  match goal with |- String.substring 0 ?n _ = _ =>
    replace n with (String.length pre) by lia end.
  apply substring_prefix.
Qed.

Lemma slice_tail (pre post : string) (c : ascii) :
  slice_from (pre +:+ String c post) (Z.of_nat (String.length pre) + 1) = post.
Proof.
  unfold slice_from, slice. rewrite length_append. simpl String.length.
  destruct (Z.ltb_spec (Z.of_nat (String.length pre) + 1) 0); [lia |].
  destruct (Z.ltb_spec (Z.of_nat (String.length pre + S (String.length post))) 0); [lia |].
  replace (pre +:+ String c post) with ((pre +:+ String c "") +:+ post)
    by (now rewrite append_assoc).
  match goal with |- String.substring ?a ?n _ = _ =>
    replace a with (String.length (pre +:+ String c ""))
      by (rewrite length_append; simpl; lia);
    replace n with (String.length post) by lia end.
  apply substring_suffix.
Qed.

End StringFacts.

(** ** Objects *)

Section FieldFacts.

Lemma has_field_set (k k' : string) (v : value) (fs : list (string * value)) :
  has_field k (set_field k' v fs) = String.eqb k k' || has_field k fs.
Proof.
  induction fs as [|[k0 v0] fs IH]; simpl.
  - now rewrite orb_false_r.
  - destruct (String.eqb_spec k' k0) as [-> | Hne]; simpl.
    + now destruct (String.eqb k k0).
    + rewrite IH. destruct (String.eqb k k'), (String.eqb k k0); reflexivity.
Qed.

Lemma lookup_field_set_eq (k : string) (v : value) (fs : list (string * value)) :
  lookup_field k (set_field k v fs) = v.
Proof.
  induction fs as [|[k0 v0] fs IH]; simpl.
  - now rewrite String.eqb_refl.
  - destruct (String.eqb_spec k k0) as [-> | Hne]; simpl.
    + now rewrite String.eqb_refl.
    + destruct (String.eqb_spec k k0); [contradiction | exact IH].
Qed.

Lemma lookup_field_set_ne (k k' : string) (v : value) (fs : list (string * value)) :
  k <> k' -> lookup_field k (set_field k' v fs) = lookup_field k fs.
Proof.
  intros Hne. induction fs as [|[k0 v0] fs IH]; simpl.
  - destruct (String.eqb_spec k k'); [contradiction | reflexivity].
  - destruct (String.eqb_spec k' k0) as [-> | Hne']; simpl.
    + destruct (String.eqb_spec k k0); [contradiction | reflexivity].
    + now rewrite IH.
Qed.

End FieldFacts.

(** ** The model-name parser *)

Section ModelParser.

(** C5 as stated fails: the effort is returned in lower case, so a suffix
    written in upper case does not come back. *)
Lemma reattach_uppercase_suffix : ~ reattach_reconstructs "gpt-5-HIGH".
Proof.
  intros H. specialize (H "gpt-5" "high" eq_refl). discriminate H.
Qed.

Lemma known_effort_in (e : string) :
  existsb (String.eqb e) KNOWN_REASONING_EFFORTS = true -> In e KNOWN_REASONING_EFFORTS.
Proof.
  intros H. apply existsb_exists in H as (x & Hin & Hx).
  apply String.eqb_eq in Hx. now subst.
Qed.

(** C5 (amended): when the parser finds an effort [e] in the model name [s],
    [s] is the returned model, a dash, and a tail whose lower-case form is
    [e]; reattaching [e] therefore rebuilds [s] with its tail in lower case,
    and rebuilds [s] itself exactly when the tail was already lower case. *)
Theorem parse_model_reattach (s e : string) :
  reasoningEffort (parseModelWithReasoning (VStr s)) = VStr e ->
  exists m tail,
    actualModel (parseModelWithReasoning (VStr s)) = VStr m
    /\ s = m +:+ "-" +:+ tail
    /\ e = toLowerCase tail
    /\ In e KNOWN_REASONING_EFFORTS
    /\ (toLowerCase tail = tail -> m +:+ "-" +:+ e = s).
Proof.
  unfold parseModelWithReasoning. simpl truthy.
  destruct (String.eqb s "") eqn:Hs; simpl negb; cbv iota; [discriminate |].
  unfold lastIndexOf.
  destruct (last_index_from_split "-" s 0 (-1)) as [E | (pre & post & -> & E)];
    rewrite E.
  { simpl. discriminate. }
  rewrite Z.add_0_l.
  destruct (Z.leb_spec (Z.of_nat (String.length pre)) 0) as [_ | Hpos]; [discriminate |].
  rewrite slice_tail, slice_head.
  destruct (existsb _ KNOWN_REASONING_EFFORTS) eqn:Hk; simpl; [| discriminate].
  intros [= <-]. exists pre, post.
  repeat split; try reflexivity.
  - now apply known_effort_in.
  - intros ->. reflexivity.
Qed.

Lemma parse_model_reattach_witness :
  exists m tail,
    actualModel (parseModelWithReasoning (VStr "gpt-5.2-codex-xhigh")) = VStr m
    /\ "gpt-5.2-codex-xhigh" = m +:+ "-" +:+ tail
    /\ "xhigh" = toLowerCase tail
    /\ In "xhigh" KNOWN_REASONING_EFFORTS
    /\ (toLowerCase tail = tail -> m +:+ "-" +:+ "xhigh" = "gpt-5.2-codex-xhigh").
Proof. apply (parse_model_reattach "gpt-5.2-codex-xhigh" "xhigh"). reflexivity. Defined.

End ModelParser.

(** ** Tool choice *)

Section ToolChoice.

(** C3 as stated fails: a string outside the list is sent on as it is. *)
Lemma tool_choice_required_passes : ~ unlisted_is_omitted (VStr "required").
Proof. intros H. specialize (H eq_refl). discriminate H. Qed.

Lemma has_field_add_if (k k' : string) (c : bool) (v : value) (fs : list (string * value)) :
  has_field k (add_if c k' v fs) = (c && String.eqb k k') || has_field k fs.
Proof. destruct c; simpl; [apply has_field_set | reflexivity]. Qed.

Lemma lookup_field_add_if_ne (k k' : string) (c : bool) (v : value)
  (fs : list (string * value)) :
  k <> k' -> lookup_field k (add_if c k' v fs) = lookup_field k fs.
Proof. intros H. destruct c; simpl; [now apply lookup_field_set_ne | reflexivity]. Qed.

Lemma lookup_field_add_if_eq (k : string) (v : value) (fs : list (string * value)) :
  lookup_field k (add_if true k v fs) = v.
Proof. apply lookup_field_set_eq. Qed.

(** What the outbound body holds under [tool_choice] *)
Lemma outbound_tool_choice (body baseModel : value) (g : rng) (r : codex_request) :
  convertAnthropicRequestToCodex body baseModel g = Some r ->
  lookup_field "tool_choice" (codexBody r)
    = convertToolChoiceToCodex (field body "tool_choice")
  /\ has_field "tool_choice" (codexBody r)
     = negb (strict_eq (convertToolChoiceToCodex (field body "tool_choice")) VUndef).
Proof.
  unfold convertAnthropicRequestToCodex. intros H.
  destruct (get body "thinking") as [thinking|]; [simpl in H | discriminate].
  destruct (thinkingBudgetToEffort thinking) as [fallbackEffort|];
    [simpl in H | discriminate].
  destruct (convertMessagesToCodexInput _ g) as [a|]; [simpl in H | discriminate].
  destruct (convertToolsToCodex _) as [tools|]; [simpl in H | discriminate].
  injection H as <-. cbn [codexBody].
  set (tc := convertToolChoiceToCodex (field body "tool_choice")).
  split.
  - rewrite lookup_field_add_if_ne by discriminate.
    destruct (strict_eq tc VUndef) eqn:E; cbn [negb].
    + cbn [add_if]. rewrite !lookup_field_add_if_ne by discriminate. simpl.
      destruct tc; try discriminate E. reflexivity.
    + apply lookup_field_add_if_eq.
  - rewrite !has_field_add_if. simpl.
    rewrite !andb_false_r, !orb_false_r. simpl. now rewrite andb_true_r.
Qed.

(** C3 (amended): ['auto'], ['none'] and ['any'] map to ['auto'], ['none']
    and ['required']; the objects [{type:'auto'}] and [{type:'any'}] map to
    ['auto'] and ['required']; [{type:'tool', name}] with a non-empty name
    maps to [{type:'function', name}]; every other non-empty string is passed
    through unchanged; every remaining value is omitted, and an omitted value
    leaves no [tool_choice] in the outbound body. *)
Theorem tool_choice_mapping (tc : value) :
  (is_str tc "auto" = true -> convertToolChoiceToCodex tc = VStr "auto")
  /\ (is_str tc "none" = true -> convertToolChoiceToCodex tc = VStr "none")
  /\ (is_str tc "any" = true -> convertToolChoiceToCodex tc = VStr "required")
  /\ (forall fs, tc = VObj fs -> is_str (lookup_field "type" fs) "auto" = true ->
        convertToolChoiceToCodex tc = VStr "auto")
  /\ (forall fs, tc = VObj fs -> is_str (lookup_field "type" fs) "any" = true ->
        convertToolChoiceToCodex tc = VStr "required")
  /\ (forall fs, tc = VObj fs -> is_str (lookup_field "type" fs) "tool" = true ->
        truthy (lookup_field "name" fs) = true ->
        convertToolChoiceToCodex tc
          = VObj [("type", VStr "function"); ("name", lookup_field "name" fs)])
  /\ (forall s, tc = VStr s -> s <> "" -> listed_tool_choice tc = false ->
        convertToolChoiceToCodex tc = tc)
  /\ (sent_tool_choice tc = false -> convertToolChoiceToCodex tc = VUndef)
  /\ (forall body baseModel g r,
        field body "tool_choice" = tc ->
        convertAnthropicRequestToCodex body baseModel g = Some r ->
        convertToolChoiceToCodex tc = VUndef ->
        has_field "tool_choice" (codexBody r) = false).
Proof.
  repeat apply conj.
  - destruct tc; try discriminate. simpl. intros ->%String.eqb_eq. reflexivity.
  - destruct tc; try discriminate. simpl. intros ->%String.eqb_eq. reflexivity.
  - destruct tc; try discriminate. simpl. intros ->%String.eqb_eq. reflexivity.
  - intros fs -> H. unfold convertToolChoiceToCodex. simpl. now rewrite H.
  - intros fs -> H. unfold convertToolChoiceToCodex. simpl. rewrite H.
    destruct (lookup_field "type" fs); try discriminate H. simpl in *.
    apply String.eqb_eq in H as ->. reflexivity.
  - intros fs -> H Hn. unfold convertToolChoiceToCodex. simpl. rewrite H, Hn.
    destruct (lookup_field "type" fs); try discriminate H. simpl in *.
    apply String.eqb_eq in H as ->. reflexivity.
  - intros s -> Hs. unfold listed_tool_choice, convertToolChoiceToCodex. simpl.
    destruct (String.eqb_spec s ""); [contradiction |]. simpl.
    rewrite !orb_false_r.
    destruct (String.eqb s "auto"), (String.eqb s "any"), (String.eqb s "none");
      simpl; try discriminate; reflexivity.
  - unfold sent_tool_choice, convertToolChoiceToCodex. intros H.
    destruct tc as [| | b | n | | s | l | fs]; simpl in *; try reflexivity.
    + destruct b; reflexivity.
    + match goal with |- context [negb ?c] => destruct c end; reflexivity.
    + rewrite H. reflexivity.
    + destruct (is_str (lookup_field "type" fs) "auto"); [discriminate |].
      destruct (is_str (lookup_field "type" fs) "any"); [discriminate |].
      simpl in H. now rewrite H.
  - intros body baseModel g r <- Hr E.
    destruct (outbound_tool_choice _ _ _ _ Hr) as [_ ->]. now rewrite E.
Qed.

Lemma tool_choice_mapping_witness :
  convertToolChoiceToCodex (VStr "any") = VStr "required"
  /\ convertToolChoiceToCodex (VObj [("type", VStr "tool"); ("name", VStr "X")])
     = VObj [("type", VStr "function"); ("name", VStr "X")]
  /\ convertToolChoiceToCodex (VStr "required") = VStr "required"
  /\ convertToolChoiceToCodex (VNum 7) = VUndef.
Proof.
  destruct (tool_choice_mapping (VStr "any")) as (_ & _ & Hany & _).
  destruct (tool_choice_mapping (VObj [("type", VStr "tool"); ("name", VStr "X")]))
    as (_ & _ & _ & _ & _ & Htool & _).
  destruct (tool_choice_mapping (VStr "required")) as (_ & _ & _ & _ & _ & _ & Hpass & _).
  destruct (tool_choice_mapping (VNum 7)) as (_ & _ & _ & _ & _ & _ & _ & Homit & _).
  repeat apply conj.
  - apply Hany. reflexivity.
  - apply (Htool [("type", VStr "tool"); ("name", VStr "X")]); reflexivity.
  - apply (Hpass "required"); [reflexivity | discriminate | reflexivity].
  - apply Homit. reflexivity.
Defined.

End ToolChoice.

(** ** Values and their conversions *)

Section ValueFacts.

(** Induction over values, through the lists they nest *)
Lemma value_nested_ind (P : value -> Prop) :
  P VUndef -> P VNull -> (forall b, P (VBool b)) -> (forall n, P (VNum n)) -> P VNaN ->
  (forall s, P (VStr s)) ->
  (forall l, Forall P l -> P (VArr l)) ->
  (forall fs, Forall (fun p => P (snd p)) fs -> P (VObj fs)) ->
  forall v, P v.
Proof.
  intros Hu Hn Hb Hz Hnan Hs Ha Ho.
  fix IH 1.
  intros [| | b | n | | s | l | fs];
    [exact Hu | exact Hn | apply Hb | apply Hz | exact Hnan | apply Hs | |].
  - apply Ha. induction l as [|x l IHl]; constructor; [apply IH | exact IHl].
  - apply Ho. induction fs as [|[k x] fs IHfs]; constructor; [apply IH | exact IHfs].
Qed.

Lemma get_non_nullish (v : value) (k : string) :
  non_nullish v = true -> get v k = Some (field v k).
Proof. now destruct v. Qed.

Lemma get_some (v : value) (k : string) (x : value) :
  get v k = Some x -> x = field v k /\ non_nullish v = true.
Proof. destruct v; cbn; intros [= <-]; now split. Qed.

Lemma get_returns (v : value) (k : string) : is_Some (get v k) <-> non_nullish v = true.
Proof.
  destruct v; cbn; (split; [first [reflexivity | intros [? [=]]] | first [discriminate | eauto]]).
Qed.

(** The text of an array is the [join] of its elements *)
Lemma ToString_array (l : list value) : ToString (VArr l) = join "," l.
Proof.
  reflexivity.
Qed.

Lemma mapM_returns {A B : Type} (f : A -> option B) (P : A -> bool) (l : list A) :
  Forall (fun x => P x = true <-> is_Some (f x)) l ->
  forallb P l = true <-> is_Some (mapM f l).
Proof.
  induction 1 as [|x l Hx _ IH]; [cbn; split; eauto |].
  cbn [forallb mapM]. rewrite andb_true_iff, Hx, IH.
  destruct (f x) as [y|]; cbn.
  - destruct (mapM f l) as [ys|]; cbn; split.
    + eauto.
    + intros _. split; eauto.
    + intros [_ [? [=]]].
    + intros [? [=]].
  - split; [intros [[? [=]] _] | intros [? [=]]].
Qed.

(** ToString returns exactly on the values ToPrimitive returns on *)
Lemma ToString_returns (v : value) : to_primitive_ok v = true <-> is_Some (ToString v).
Proof.
  induction v as [| | b | n | | s | l IH | fs _] using value_nested_ind;
    try (cbn; split; eauto; fail).
  - destruct b; cbn; split; eauto.
  - rewrite ToString_array. unfold join. cbn [to_primitive_ok].
    rewrite fmap_is_Some. apply mapM_returns.
    eapply Forall_impl; [exact IH |]. intros x Hx.
    destruct x; try exact Hx; cbn; split; eauto.
  - cbn. destruct (has_field "toString" fs); cbn; split; eauto; try discriminate.
    intros [? [=]].
Qed.

Lemma join_returns (sep : string) (l : list value) :
  forallb to_primitive_ok l = true <-> is_Some (join sep l).
Proof.
  unfold join. rewrite fmap_is_Some. apply mapM_returns.
  apply Forall_forall. intros x _.
  destruct x; try apply ToString_returns; cbn; split; eauto.
Qed.

Lemma to_string_str (s : string) : to_string (VStr s) = s.
Proof. reflexivity. Qed.

(** Where ToString returns, [to_string] is its result *)
Lemma to_string_ToString (v : value) (s : string) : ToString v = Some s -> to_string v = s.
Proof. unfold to_string. now intros ->. Qed.

Lemma to_number_returns (v : value) : to_primitive_ok v = true <-> is_Some (to_number v).
Proof.
  destruct v; try (cbn; split; eauto; fail);
    unfold to_number; rewrite fmap_is_Some; apply ToString_returns.
Qed.

Lemma js_sub_returns (a b : value) :
  to_primitive_ok a && to_primitive_ok b = true <-> is_Some (js_sub a b).
Proof.
  rewrite andb_true_iff, !to_number_returns. unfold js_sub.
  destruct (to_number a) as [x|]; cbn.
  - destruct (to_number b) as [y|]; cbn; split; eauto.
    + intros [_ [? [=]]].
    + intros [? [=]].
  - split; [intros [[? [=]] _] | intros [? [=]]].
Qed.



(** *** Equality of values *)

Lemma ratio_positive (x : num) : (0 < snd (ratio x))%Z.
Proof. destruct x; cbn; lia. Qed.


Lemma cross_eqb (a b c d e f : Z) :
  (0 < b)%Z -> (0 < d)%Z -> (0 < f)%Z -> (a * d = c * b)%Z ->
  (a * f =? e * b)%Z = (c * f =? e * d)%Z.
Proof.
  intros Hb Hd Hf H.
  destruct (Z.eqb_spec (a * f) (e * b)) as [E | E];
    destruct (Z.eqb_spec (c * f) (e * d)) as [E' | E']; try reflexivity; exfalso.
  - apply E'. apply (Z.mul_cancel_l _ _ b); [lia |].
    replace (b * (c * f))%Z with ((c * b) * f)%Z by ring. rewrite <- H.
    replace (a * d * f)%Z with ((a * f) * d)%Z by ring. rewrite E. ring.
  - apply E. apply (Z.mul_cancel_l _ _ d); [lia |].
    replace (d * (a * f))%Z with ((a * d) * f)%Z by ring. rewrite H.
    replace (c * b * f)%Z with ((c * f) * b)%Z by ring. rewrite E'. ring.
Qed.

Lemma num_eqb_ratio (x y : num) :
  finite x = true -> finite y = true ->
  num_eqb x y = (fst (ratio x) * snd (ratio y) =? fst (ratio y) * snd (ratio x))%Z.
Proof.
  destruct x, y; try discriminate; intros _ _; cbn [num_eqb ratio fst snd];
    now rewrite ?Z.mul_1_r.
Qed.

Lemma num_eqb_infinite (x y : num) : finite x = negb (finite y) -> num_eqb x y = false.
Proof. destruct x, y; try discriminate; reflexivity. Qed.

Lemma num_eqb_trans (x y z : num) : num_eqb x y = true -> num_eqb x z = num_eqb y z.
Proof.
  intros H.
  destruct (finite x) eqn:Fx, (finite y) eqn:Fy;
    try (rewrite num_eqb_infinite in H by (now rewrite Fx, Fy); discriminate).
  - destruct (finite z) eqn:Fz.
    + rewrite num_eqb_ratio in H by assumption. apply Z.eqb_eq in H.
      rewrite !num_eqb_ratio by assumption.
      apply cross_eqb; try apply ratio_positive. exact H.
    + rewrite !num_eqb_infinite by (now rewrite ?Fx, ?Fy, Fz). reflexivity.
  - destruct x as [| | s], y as [| | t]; try discriminate.
    cbn in H. apply eqb_prop in H. now subst.
Qed.


(** SameValueZero is transitive *)
Lemma same_value_zero_trans (a b c : value) :
  same_value_zero a b = true -> same_value_zero a c = same_value_zero b c.
Proof.
  destruct a, b; cbn; try discriminate; intros H; destruct c; cbn; try reflexivity.
  - apply eqb_prop in H. now subst.
  - now apply num_eqb_trans.
  - apply String.eqb_eq in H. now subst.
Qed.

(** *** Map lookups *)


Lemma map_get_set_ne (m : jsmap) (k v q : value) :
  same_value_zero k q = false -> map_get (map_set m k v) q = map_get m q.
Proof.
  intros Hq. induction m as [|[k' v'] m IH]; cbn [map_set map_get].
  - now rewrite Hq.
  - destruct (same_value_zero k' k) eqn:E; cbn [map_get].
    + now rewrite (same_value_zero_trans k' k q E), Hq.
    + now rewrite IH.
Qed.

End ValueFacts.

(** ** Loops that may throw *)

Section LoopFacts.

Lemma fold_opt_app {A B : Type} (f : A -> B -> option A) (a : A) (l1 l2 : list B) :
  fold_opt f a (l1 ++ l2) = fold_opt f a l1 ≫= fun a' => fold_opt f a' l2.
Proof.
  revert a. induction l1 as [|x l1 IH]; intros a; [reflexivity |].
  cbn [fold_opt app]. destruct (f a x) as [a'|]; [apply IH | reflexivity].
Qed.

(** The loop returns exactly when every turn of it does *)
Lemma fold_opt_returns {A B : Type} (f : A -> B -> option A) (P : B -> bool) (l : list B) :
  (forall a x, P x = true <-> is_Some (f a x)) ->
  forall a, forallb P l = true <-> is_Some (fold_opt f a l).
Proof.
  intros Hf. induction l as [|x l IH]; intros a; [cbn; split; eauto |].
  cbn [forallb fold_opt]. rewrite andb_true_iff, (Hf a x).
  destruct (f a x) as [a1|]; cbn.
  - rewrite (IH a1). split; [now intros [_ ?] | eauto].
  - split; [intros [[? [=]] _] | intros [? [=]]].
Qed.

Lemma fold_opt_keeps {A B : Type} (f : A -> B -> option A) (P : A -> Prop) (l : list B) :
  (forall a x a', f a x = Some a' -> P a -> P a') ->
  forall a a', fold_opt f a l = Some a' -> P a -> P a'.
Proof.
  intros Hf. induction l as [|x l IH]; intros a a' H Ha; cbn [fold_opt] in H.
  - now injection H as <-.
  - destruct (f a x) as [a1|] eqn:E; [| discriminate]. cbn in H.
    eapply IH; [exact H |]. eapply Hf; eassumption.
Qed.

Lemma fold_opt_keeps_on {A B : Type} (f : A -> B -> option A) (P : A -> Prop)
  (Q : B -> bool) (l : list B) :
  (forall a x a', Q x = true -> f a x = Some a' -> P a -> P a') ->
  forallb Q l = true ->
  forall a a', fold_opt f a l = Some a' -> P a -> P a'.
Proof.
  intros Hf. induction l as [|x l IH]; intros Hl a a' H Ha; cbn [fold_opt] in H.
  - now injection H as <-.
  - cbn [forallb] in Hl. apply andb_true_iff in Hl as [Hx Hl].
    destruct (f a x) as [a1|] eqn:E; [| discriminate]. cbn in H.
    eapply IH; [exact Hl | exact H |]. eapply Hf; eassumption.
Qed.

Lemma fold_opt_cons_some {A B : Type} (f : A -> B -> option A) (a : A) (x : B)
  (l : list B) (a' : A) :
  fold_opt f a (x :: l) = Some a' ->
  exists a1, f a x = Some a1 /\ fold_opt f a1 l = Some a'.
Proof.
  cbn [fold_opt]. destruct (f a x) as [a1|]; [| discriminate]. intros H. now exists a1.
Qed.

Lemma fold_opt_app_some {A B : Type} (f : A -> B -> option A) (a : A) (l1 l2 : list B)
  (a' : A) :
  fold_opt f a (l1 ++ l2) = Some a' ->
  exists a1, fold_opt f a l1 = Some a1 /\ fold_opt f a1 l2 = Some a'.
Proof.
  rewrite fold_opt_app. destruct (fold_opt f a l1) as [a1|]; [| discriminate].
  intros H. now exists a1.
Qed.

Lemma existsb_false_forallb {A : Type} (Q : A -> bool) (l : list A) :
  existsb Q l = false -> forallb (fun x => negb (Q x)) l = true.
Proof.
  induction l as [|x l IH]; [reflexivity |]. cbn [existsb forallb].
  intros [-> Hl]%orb_false_iff. now rewrite IH.
Qed.


End LoopFacts.

(** ** The request-body adapter *)

Section AdapterFacts.

Implicit Types (h : heap) (l body processedBody : loc) (s : settings).

(** *** Writes through one reference leave every other object alone *)

Lemma write_field_other h l k v l' :
  l' <> l -> write_field h l k v !! l' = h !! l'.
Proof. intros H. unfold write_field. now apply list_lookup_insert_ne. Qed.

Lemma remove_field_other h l k l' :
  l' <> l -> remove_field h l k !! l' = h !! l'.
Proof. intros H. unfold remove_field. now apply list_lookup_insert_ne. Qed.

Lemma write_field_length h l k v : length (write_field h l k v) = length h.
Proof. unfold write_field. apply length_insert. Qed.

Lemma remove_field_length h l k : length (remove_field h l k) = length h.
Proof. unfold remove_field. apply length_insert. Qed.

Lemma read_write_field h l k v :
  l < length h ->
  read (write_field h l k v) l = VObj (set_field k v (own_fields (read h l))).
Proof.
  intros H. unfold read at 1, write_field.
  now rewrite list_lookup_insert_eq.
Qed.

Lemma read_remove_field h l k :
  l < length h ->
  read (remove_field h l k) l = VObj (delete_field k (own_fields (read h l))).
Proof.
  intros H. unfold read at 1, remove_field.
  now rewrite list_lookup_insert_eq.
Qed.

Lemma frame_of_refl h l : frame_of h h l.
Proof. split; [reflexivity | intros; reflexivity]. Qed.

Lemma frame_of_trans h1 h2 h3 l :
  frame_of h1 h2 l -> frame_of h2 h3 l -> frame_of h1 h3 l.
Proof.
  intros [L1 F1] [L2 F2]. split; [congruence |].
  intros l' Hne. rewrite F2, F1; auto.
Qed.

Lemma write_field_frame h l k v : frame_of h (write_field h l k v) l.
Proof. split; [apply write_field_length | intros; now apply write_field_other]. Qed.

Lemma remove_field_frame h l k : frame_of h (remove_field h l k) l.
Proof. split; [apply remove_field_length | intros; now apply remove_field_other]. Qed.

(** *** The stripping loop *)

Lemma filter_twice {A : Type} (f g : A -> bool) (xs : list A) :
  List.filter f (List.filter g xs) = List.filter (fun x => g x && f x) xs.
Proof.
  induction xs as [|x xs IH]; simpl; [reflexivity |].
  destruct (g x); simpl; [destruct (f x); simpl |]; now rewrite IH.
Qed.

Lemma filter_same {A : Type} (f g : A -> bool) (xs : list A) :
  (forall x, f x = g x) -> List.filter f xs = List.filter g xs.
Proof.
  intros E. induction xs as [|x xs IH]; simpl; [reflexivity |].
  rewrite E, IH. reflexivity.
Qed.

Lemma lookup_field_filter (P : string -> bool) (k : string) (fs : list (string * value)) :
  lookup_field k (List.filter (fun p => P (fst p)) fs)
    = if P k then lookup_field k fs else VUndef.
Proof.
  induction fs as [|[k0 v0] fs IH]; simpl.
  - now destruct (P k).
  - destruct (P k0) eqn:E0; simpl.
    + destruct (String.eqb_spec k k0) as [-> | Hne].
      * now rewrite E0.
      * exact IH.
    + rewrite IH. destruct (String.eqb_spec k k0) as [-> | Hne]; [| reflexivity].
      now rewrite E0.
Qed.

Lemma strip_step_state h0 processedBody fs0 st f :
  processedBody < length h0 ->
  stripped_state h0 processedBody fs0 st ->
  stripped_state h0 processedBody fs0 (strip_step processedBody st f).
Proof.
  intros Hlt [Hfr Hrd]. unfold strip_step.
  destruct (has_field _ _); [| now split].
  split; cbn [fst snd].
  - eapply frame_of_trans; [exact Hfr | apply remove_field_frame].
  - rewrite read_remove_field by (destruct Hfr as [-> _]; exact Hlt).
    rewrite Hrd. cbn [own_fields]. unfold delete_field.
    rewrite filter_twice. f_equal. apply filter_same. intros [k0 v0]. cbn [fst].
    unfold kept. rewrite existsb_app. simpl. rewrite orb_false_r, negb_orb.
    now rewrite (String.eqb_sym (to_string f) k0).
Qed.

Lemma strip_loop_state h0 processedBody fs0 (fs : list value) st :
  processedBody < length h0 ->
  stripped_state h0 processedBody fs0 st ->
  stripped_state h0 processedBody fs0 (fold_left (strip_step processedBody) fs st).
Proof.
  intros Hlt. revert st. induction fs as [|f fs IH]; intros st Hst; simpl.
  - exact Hst.
  - apply IH. now apply strip_step_state.
Qed.

Lemma strip_stage_state h processedBody cli s fs0 :
  processedBody < length h ->
  read h processedBody = VObj fs0 ->
  stripped_state h processedBody fs0 (strip_stage h processedBody cli s).
Proof.
  intros Hlt Hrd.
  assert (stripped_state h processedBody fs0 (h, [])) as H0.
  { split; [apply frame_of_refl |]. cbn [fst snd]. rewrite Hrd. f_equal.
    clear Hrd. induction fs0 as [|p fs0 IH]; simpl; [reflexivity | f_equal; exact IH]. }
  unfold strip_stage. destruct (negb cli && _); [| exact H0].
  now apply strip_loop_state.
Qed.

(** *** The instructions stage writes through [processedBody] only *)

Lemma instructions_stage_frame h body processedBody cli s :
  frame_of h (fst (instructions_stage h body processedBody cli s)) processedBody.
Proof.
  unfold instructions_stage.
  split_ifs; cbn [fst]; first [apply write_field_frame | apply frame_of_refl].
Qed.

Lemma instructions_stage_vendored_frame h body processedBody cli s :
  frame_of h (fst (instructions_stage_vendored h body processedBody cli s)) processedBody.
Proof.
  unfold instructions_stage_vendored.
  split_ifs; cbn [fst]; first [apply write_field_frame | apply frame_of_refl].
Qed.

(** *** What the copy holds *)

Lemma index_key_not_instructions (n : Z) :
  String.eqb "instructions" (string_of_Z n) = false.
Proof.
  unfold string_of_Z. destruct (Z.to_int n) as [d | d]; simpl.
  - destruct d; reflexivity.
  - reflexivity.
Qed.

Lemma lookup_field_imap (f : nat -> value -> string * value) (xs : list value) :
  (forall i x, String.eqb "instructions" (fst (f i x)) = false) ->
  lookup_field "instructions" (imap f xs) = VUndef.
Proof.
  revert f. induction xs as [|x xs IH]; intros f Hf; [reflexivity |].
  cbn [imap lookup_field]. specialize (Hf 0 x) as H0.
  destruct (f 0 x) as [k v]. cbn [fst] in H0. rewrite H0.
  apply IH. intros i y. apply Hf.
Qed.

(** The copy has the client's [instructions] *)
Lemma spread_instructions (b : value) :
  truthy b = true -> typeof b = "object" ->
  lookup_field "instructions" (spread b) = field b "instructions".
Proof.
  destruct b; try discriminate; intros _ _; cbn [spread field].
  - apply lookup_field_imap. intros i x. apply index_key_not_instructions.
  - reflexivity.
Qed.

Lemma hasClientInstructions_eq h body :
  isNonEmptyString (VStr (clientInstructionsOf h body))
    = isNonEmptyString (field (read h body) "instructions").
Proof.
  unfold clientInstructionsOf.
  destruct (field (read h body) "instructions"); reflexivity.
Qed.

Lemma lookup_last (h : heap) (v : value) : (h ++ [v]) !! length h = Some v.
Proof. rewrite lookup_app_r by lia. now rewrite Nat.sub_diag. Qed.

(** The adapter on a body it does copy, stage by stage *)
Lemma adapt_with_copy
  (stage : heap -> loc -> loc -> bool -> settings -> heap * option annotation)
  h body cli (cfg dflt : value) :
  truthy (read h body) = true ->
  typeof (read h body) = "object" ->
  enabled (resolveAdapterConfig cfg dflt) = true ->
  let s := resolveAdapterConfig cfg dflt in
  let st := strip_stage (h ++ [VObj (spread (read h body))]) (length h) cli s in
  let out := stage (fst st) body (length h) cli s in
  adapt_with stage h body cli cfg dflt
    = (fst out,
       {| body := length h;
          applied := (0 <? length (snd st))%nat || bool_decide (snd out <> None);
          r_changes := {| strippedFields := snd st; c_instructions := snd out |} |}).
Proof.
  intros Ht Ho He. unfold adapt_with. rewrite Ht, Ho, He.
  change (negb true || negb ("object" =? "object")%string) with false.
  cbn [negb alloc].
  destruct (strip_stage _ _ _ _) as [h2 stripped]. cbn [fst snd].
  destruct (stage _ _ _ _ _) as [h3 ann]. reflexivity.
Qed.

(** The state in which the instructions stage starts *)
Lemma before_instructions h body cli s :
  truthy (read h body) = true ->
  let st := strip_stage (h ++ [VObj (spread (read h body))]) (length h) cli s in
  length (fst st) = S (length h)
  /\ (forall l, l < length h -> fst st !! l = h !! l)
  /\ read (fst st) body = read h body
  /\ read (fst st) (length h)
     = VObj (List.filter (fun p => kept (snd st) (fst p)) (spread (read h body))).
Proof.
  intros Ht st.
  assert (body < length h) as Hb.
  { unfold read in Ht. destruct (h !! body) eqn:E; [| discriminate].
    now apply lookup_lt_Some in E. }
  destruct (strip_stage_state (h ++ [VObj (spread (read h body))]) (length h) cli s
              (spread (read h body))) as [[Hlen Hfr] Hrd].
  { rewrite length_app. simpl. lia. }
  { unfold read at 1. now rewrite lookup_last. }
  fold st in Hlen, Hfr, Hrd.
  assert (forall l, l < length h -> fst st !! l = h !! l) as Hold.
  { intros l Hl. rewrite Hfr by lia. now apply lookup_app_l. }
  repeat split.
  - rewrite Hlen, length_app. simpl. lia.
  - exact Hold.
  - unfold read. now rewrite Hold.
  - exact Hrd.
Qed.

End AdapterFacts.

Section AdapterClaims.

Implicit Types (h : heap) (l body : loc).

(** The adapter on a body it hands back as it is *)
Lemma adapt_with_passthrough
  (stage : heap -> loc -> loc -> bool -> settings -> heap * option annotation)
  h body cli (cfg dflt : value) :
  truthy (read h body) && String.eqb (typeof (read h body)) "object"
    && enabled (resolveAdapterConfig cfg dflt) = false ->
  adapt_with stage h body cli cfg dflt
    = (h, {| body := body; applied := false; r_changes := no_changes |}).
Proof.
  unfold adapt_with. intros H.
  destruct (truthy (read h body)); [| reflexivity].
  destruct (String.eqb (typeof (read h body)) "object"); [| reflexivity].
  cbn [andb] in H. now rewrite H.
Qed.



(** *** The instructions stage when nothing is to be injected *)

Lemma copy_instructions h body cli s :
  truthy (read h body) = true -> typeof (read h body) = "object" ->
  let st := strip_stage (h ++ [VObj (spread (read h body))]) (length h) cli s in
  field (read (fst st) (length h)) "instructions"
    = after_stripping (snd st) (field (read h body) "instructions").
Proof.
  intros Ht Ho st.
  destruct (before_instructions h body cli s Ht) as (_ & _ & _ & Hrd).
  fold st in Hrd. rewrite Hrd. cbn [field].
  rewrite (lookup_field_filter (kept (snd st))).
  unfold kept, after_stripping.
  destruct (existsb _ (snd st)); cbn [negb]; [reflexivity |].
  now apply spread_instructions.
Qed.

Lemma instructions_stage_blank h body processedBody cli s :
  isNonEmptyString (text (instructions s)) = false ->
  instructions_stage h body processedBody cli s = (h, None).
Proof.
  intros H. unfold instructions_stage. rewrite H, andb_false_r. reflexivity.
Qed.

Lemma instructions_stage_none h body processedBody cli s :
  mode (instructions s) = "none" ->
  String.eqb (applyWhen (instructions s)) "all" || negb cli = true ->
  isNonEmptyString (text (instructions s)) = true ->
  instructions_stage h body processedBody cli s
    = if isNonEmptyString (field (read h body) "instructions")
      then (h, None)
      else (write_field h processedBody "instructions" (text (instructions s)),
            Some {| a_mode := "none"; alreadyPresent := None;
                    clientMissing := Some true; fallback := Some true |}).
Proof.
  intros Hm Hs Ht. unfold instructions_stage.
  rewrite Hm, Hs, Ht, hasClientInstructions_eq. cbn.
  now destruct (isNonEmptyString (field (read h body) "instructions")).
Qed.

(** In the vendored copy [none] never writes *)
Lemma instructions_stage_vendored_none h body processedBody cli s :
  mode (instructions s) = "none" ->
  instructions_stage_vendored h body processedBody cli s = (h, None).
Proof. intros Hm. unfold instructions_stage_vendored. rewrite Hm. reflexivity. Qed.

(** C9 as stated fails: with no server text at all, a configured strip list
    that names [instructions] removes the client's value for a non-CLI
    client. *)
Lemma strip_list_removes_instructions :
  ~ instructions_left_unchanged
      [VObj [("instructions", VStr "CLIENT")]] 0 false
      (VObj [("stripFields", VObj [("fields", VArr [VStr "instructions"])])])
      VUndef.
Proof. intros H. specialize (H eq_refl). cbn in H. destruct H as [_ H]. discriminate H. Qed.

(** C9 (amended): when the resolved server text is blank or absent, the
    adapter records [changes.instructions] as null and writes nothing to
    [instructions], whatever the mode: the result holds the client's value,
    unless [instructions] is itself among the fields the adapter stripped, in
    which case it holds none. *)
Theorem blank_server_text_writes_nothing h body cli (cfg dflt : value) :
  isNonEmptyString (text (instructions (resolveAdapterConfig cfg dflt))) = false ->
  let (h', r) := adaptCodexRequestBody h body cli cfg dflt in
  c_instructions (r_changes r) = None
  /\ field (read h' (Adapter.body r)) "instructions"
     = after_stripping (strippedFields (r_changes r)) (field (read h body) "instructions").
Proof.
  intros Hblank.
  destruct (truthy (read h body)) eqn:Ht;
    [destruct (String.eqb_spec (typeof (read h body)) "object") as [Ho | Ho];
     [destruct (enabled (resolveAdapterConfig cfg dflt)) eqn:He |] |].
  - unfold adaptCodexRequestBody. rewrite adapt_with_copy by assumption. cbn zeta.
    rewrite instructions_stage_blank by assumption.
    cbn [fst snd Adapter.body r_changes strippedFields c_instructions].
    split; [reflexivity |]. now apply copy_instructions.
  - unfold adaptCodexRequestBody, adapt_with. rewrite Ht, He.
    destruct (String.eqb_spec (typeof (read h body)) "object"); [| contradiction].
    cbn. now split.
  - unfold adaptCodexRequestBody, adapt_with. rewrite Ht.
    destruct (String.eqb_spec (typeof (read h body)) "object"); [contradiction |].
    cbn. now split.
  - unfold adaptCodexRequestBody, adapt_with. rewrite Ht. cbn. now split.
Qed.

Lemma blank_server_text_writes_nothing_witness :
  let (h', r) :=
    adaptCodexRequestBody [VObj [("instructions", VStr "CLIENT"); ("temperature", VNum 1)]]
      0 false (VObj [("instructions", VObj [("mode", VStr "overwrite"); ("text", VStr " ")])])
      VUndef in
  c_instructions (r_changes r) = None
  /\ field (read h' (Adapter.body r)) "instructions"
     = after_stripping (strippedFields (r_changes r)) (VStr "CLIENT").
Proof.
  apply (blank_server_text_writes_nothing
           [VObj [("instructions", VStr "CLIENT"); ("temperature", VNum 1)]] 0 false
           (VObj [("instructions", VObj [("mode", VStr "overwrite"); ("text", VStr " ")])])
           VUndef).
  reflexivity.
Defined.

(** C4 as stated fails in its second half for the same reason as C9: the
    stage writes nothing, but a strip list that names [instructions] has
    removed the client's value before. *)
Lemma none_mode_after_stripping :
  ~ client_instructions_kept
      [VObj [("instructions", VStr "CLIENT")]] 0 false
      (VObj [("instructions", VObj [("mode", VStr "none"); ("text", VStr "SERVER")]);
             ("stripFields", VObj [("fields", VArr [VStr "instructions"])])])
      VUndef.
Proof.
  intros H. specialize (H eq_refl eq_refl eq_refl eq_refl). cbn in H.
  destruct H as [H _]. discriminate H.
Qed.

(** C4 (amended): for an object body and an enabled adapter whose resolved
    mode is [none], when the scope applies and the server text is not blank:
    if the client's [instructions] is not a non-blank string (absent, blank,
    or no string at all) the adapter sets [instructions] to the server text
    and annotates the change with [fallback: true]; otherwise it records
    [changes.instructions] as null and writes nothing to [instructions], so
    the result holds the client's value unless [instructions] is itself among
    the fields the adapter stripped. *)
Theorem none_mode_backfill h body cli (cfg dflt : value) :
  let s := resolveAdapterConfig cfg dflt in
  truthy (read h body) = true ->
  typeof (read h body) = "object" ->
  enabled s = true ->
  mode (instructions s) = "none" ->
  String.eqb (applyWhen (instructions s)) "all" || negb cli = true ->
  isNonEmptyString (text (instructions s)) = true ->
  let (h', r) := adaptCodexRequestBody h body cli cfg dflt in
  if isNonEmptyString (field (read h body) "instructions")
  then c_instructions (r_changes r) = None
       /\ field (read h' (Adapter.body r)) "instructions"
          = after_stripping (strippedFields (r_changes r))
                            (field (read h body) "instructions")
  else field (read h' (Adapter.body r)) "instructions" = text (instructions s)
       /\ c_instructions (r_changes r)
          = Some {| a_mode := "none"; alreadyPresent := None;
                    clientMissing := Some true; fallback := Some true |}.
Proof.
  intros s Ht Ho He Hm Hs Hx.
  unfold adaptCodexRequestBody. rewrite adapt_with_copy by assumption. cbn zeta.
  fold s.
  destruct (before_instructions h body cli s Ht) as (Hlen & _ & Hb & _).
  set (st := strip_stage _ _ cli s) in *.
  rewrite (instructions_stage_none (fst st) body (length h) cli s Hm Hs Hx), Hb.
  destruct (isNonEmptyString (field (read h body) "instructions"));
    cbn [fst snd Adapter.body r_changes strippedFields c_instructions].
  - split; [reflexivity |]. now apply copy_instructions.
  - split; [| reflexivity].
    rewrite read_write_field by lia. cbn [field]. apply lookup_field_set_eq.
Qed.

Lemma none_mode_backfill_witness :
  let (h', r) :=
    adaptCodexRequestBody [VObj [("instructions", VStr "  "); ("temperature", VNum 1)]]
      0 true
      (VObj [("instructions",
               VObj [("mode", VStr "none"); ("text", VStr "SERVER");
                     ("applyWhen", VStr "all")])])
      (VStr "DEFAULT") in
  field (read h' (Adapter.body r)) "instructions" = VStr "SERVER"
  /\ c_instructions (r_changes r)
     = Some {| a_mode := "none"; alreadyPresent := None;
               clientMissing := Some true; fallback := Some true |}.
Proof.
  apply (none_mode_backfill
           [VObj [("instructions", VStr "  "); ("temperature", VNum 1)]] 0 true
           (VObj [("instructions",
                    VObj [("mode", VStr "none"); ("text", VStr "SERVER");
                          ("applyWhen", VStr "all")])])
           (VStr "DEFAULT")); reflexivity.
Defined.

(** The vendored copy disagrees with the first half of C4: in [none] mode
    it never backfills. *)
Lemma vendored_none_mode_is_strict h body cli (cfg dflt : value) :
  mode (instructions (resolveAdapterConfig cfg dflt)) = "none" ->
  c_instructions (r_changes (snd (adaptCodexRequestBody_vendored h body cli cfg dflt)))
    = None.
Proof.
  intros Hm. unfold adaptCodexRequestBody_vendored, adapt_with.
  repeat match goal with
         | |- context [if ?c then _ else _] => destruct c
         end; try reflexivity.
  cbn [alloc]. destruct (strip_stage _ _ _ _) as [h2 stripped].
  rewrite instructions_stage_vendored_none by assumption. reflexivity.
Qed.

End AdapterClaims.

(** ** The streaming converter *)

Section Streaming.

Lemma scan_app (seen : bool) (a b : list string) :
  scan seen (a ++ b) = scan seen a && scan (seen || has_start a) b.
Proof.
  revert seen. induction a as [|e a IH]; intros seen.
  - cbn. now rewrite orb_false_r.
  - cbn [scan app has_start existsb]. fold (has_start a).
    rewrite (String.eqb_sym "message_start" e).
    destruct (String.eqb e "message_start"); cbn [orb].
    + rewrite IH, orb_true_r. cbn [orb]. now rewrite andb_assoc.
    + destruct (String.eqb e "content_block_start"); rewrite IH;
        [now rewrite andb_assoc | reflexivity].
Qed.

Lemma is_str_true (v : value) (lit : string) : is_str v lit = true -> v = VStr lit.
Proof. destruct v; try discriminate. simpl. now intros ->%String.eqb_eq. Qed.

(** [processEvent] refines [step_names] *)
Lemma processEvent_names (ev : value) (c : converter) :
  names (fst (processEvent ev c))
    = names c ++ fst (step_names ev (messageStartSent c))
  /\ messageStartSent (fst (processEvent ev c))
     = snd (step_names ev (messageStartSent c)).
Proof.
  unfold processEvent, step_names, names, ensured, delta_names,
    _handleOutputItemAdded, _handleReasoningSummaryPartAdded,
    _handleReasoningSummaryTextDelta, _handleOutputTextDelta,
    _handleFunctionCallArgumentsDelta, write_delta, _handleContentPartAdded,
    _handleBlockStop, _handleOutputItemDone, _handleResponseCompleted,
    _ensureMessageStart, completed_returns, set_tokens.
  cbn [inputTokens cacheReadInputTokens].
  split_ifs; cbn; rewrite ?map_app, ?app_nil_r, <- ?app_assoc; cbn;
    split; congruence.
Qed.

Lemma step_names_ok (ev : value) (sent : bool) :
  scan sent (fst (step_names ev sent)) = true
  /\ snd (step_names ev sent) = sent || has_start (fst (step_names ev sent))
  /\ (opens ev = true -> snd (step_names ev sent) = true).
Proof.
  unfold step_names, opens, ensured, delta_names.
  destruct (truthy ev); cbn [negb orb andb];
    [| now rewrite orb_false_r].
  destruct (truthy (field ev "type")) eqn:Et; cbn [negb].
  2:{ cbn [fst snd scan has_start existsb]. rewrite orb_false_r.
      repeat split. destruct (field ev "type") as [| | | | | t | |]; try discriminate.
      cbn in Et. destruct (String.eqb_spec t ""); [subst; discriminate | discriminate]. }
  destruct (is_str (field ev "type") "response.created") eqn:E1;
    [destruct sent; repeat split; reflexivity |].
  destruct (is_str (field ev "type") "response.output_item.added") eqn:E2;
    [destruct sent; split_ifs; repeat split; reflexivity |].
  destruct (is_str (field ev "type") "response.reasoning_summary_part.added") eqn:E3;
    [destruct sent; repeat split; reflexivity |].
  destruct (is_str (field ev "type") "response.content_part.added") eqn:E4.
  { apply is_str_true in E4. rewrite E4. cbn.
    split_ifs; destruct sent; repeat split; reflexivity. }
  cbn [orb].
  split_ifs; cbn; rewrite ?orb_false_r; repeat split; try reflexivity; discriminate.
Qed.

Lemma processEvent_extends (ev : value) (c : converter) :
  exists out, res (fst (processEvent ev c)) = res c ++ out.
Proof.
  unfold processEvent, _handleOutputItemAdded, _handleReasoningSummaryPartAdded,
    _handleReasoningSummaryTextDelta, _handleOutputTextDelta,
    _handleFunctionCallArgumentsDelta, write_delta, _handleContentPartAdded,
    _handleBlockStop, _handleOutputItemDone, _handleResponseCompleted,
    _ensureMessageStart.
  split_ifs; cbn; rewrite <- ?app_assoc;
    first [ now (exists []; rewrite app_nil_r) | eexists; reflexivity ].
Qed.

Lemma processEvent_flag_ok (ev : value) (c : converter) :
  start_flag_ok c -> start_flag_ok (fst (processEvent ev c)).
Proof.
  intros [Hscan Hsent].
  destruct (processEvent_names ev c) as [Hn Hs].
  destruct (step_names_ok ev (messageStartSent c)) as (Hok & Hflag & _).
  split.
  - rewrite Hn, scan_app, Hscan, <- Hsent. exact Hok.
  - rewrite Hs, Hn, Hflag. unfold has_start. rewrite existsb_app.
    fold (has_start (names c)). now rewrite <- Hsent.
Qed.

Lemma feed_flag_ok (evs : list value) (c : converter) :
  start_flag_ok c -> start_flag_ok (feed evs c).
Proof.
  revert c. induction evs as [|ev evs IH]; intros c Hc; [exact Hc |].
  apply IH. now apply processEvent_flag_ok.
Qed.

Lemma feed_extends (evs : list value) (c : converter) :
  exists out, res (feed evs c) = res c ++ out.
Proof.
  revert c. induction evs as [|ev evs IH]; intros c.
  - exists []. now rewrite app_nil_r.
  - destruct (processEvent_extends ev c) as [o1 H1].
    destruct (IH (fst (processEvent ev c))) as [o2 H2].
    exists (o1 ++ o2). cbn [feed fold_left]. fold (feed evs (fst (processEvent ev c))).
    now rewrite H2, H1, app_assoc.
Qed.

Lemma feed_app (evs1 evs2 : list value) (c : converter) :
  feed (evs1 ++ evs2) c = feed evs2 (feed evs1 c).
Proof. unfold feed. apply fold_left_app. Qed.

Lemma new_converter_flag_ok (baseModel : value) (toolIdMap : jsmap) (g : rng) :
  start_flag_ok (new_converter baseModel toolIdMap g) /\ res (new_converter baseModel toolIdMap g) = [].
Proof.
  unfold new_converter. destruct (random_hex 16 g). now repeat split.
Qed.

(** *** Where [message_start] stands in what the client is sent *)

(** C1 as stated fails: the delta and stop handlers do not call
    [_ensureMessageStart], so a delta that arrives first is written first. *)
Lemma delta_before_message_start :
  ~ start_before_all_blocks
      (names (feed [VObj [("type", VStr "response.output_text.delta"); ("delta", VStr "Hi")];
                    VObj [("type", VStr "response.created")]]
                   (new_converter (VStr "gpt-5") []
                      {| entropy := fun _ => Byte.x00; cursor := 0 |}))).
Proof.
  intros [_ H].
  specialize (H [] "content_block_delta" ["message_start"] eq_refl).
  apply H. cbn. tauto.
Qed.

Lemma has_start_in (tr : list string) : has_start tr = true -> In "message_start" tr.
Proof.
  intros H. apply existsb_exists in H as (x & Hin & Hx).
  apply String.eqb_eq in Hx. now subst.
Qed.

Lemma scan_seen_no_start (tr : list string) :
  scan true tr = true -> count_occ string_dec tr "message_start" = 0.
Proof.
  induction tr as [|e tr IH]; [reflexivity |]. cbn [scan count_occ].
  destruct (string_dec e "message_start") as [-> | Hne].
  - discriminate.
  - destruct (String.eqb_spec e "message_start"); [contradiction |].
    destruct (String.eqb e "content_block_start"); exact IH.
Qed.

Lemma scan_at_most_once (tr : list string) : scan false tr = true -> at_most_once tr.
Proof.
  unfold at_most_once. induction tr as [|e tr IH]; [cbn; lia |]. cbn [scan count_occ].
  destruct (string_dec e "message_start") as [-> | Hne].
  - cbn. intros H. rewrite (scan_seen_no_start tr H). lia.
  - destruct (String.eqb_spec e "message_start"); [contradiction |].
    destruct (String.eqb e "content_block_start"); [discriminate | exact IH].
Qed.

Lemma scan_precedes (seen : bool) (tr : list string) :
  scan seen tr = true ->
  forall pre post, tr = pre ++ "content_block_start" :: post ->
                   seen = true \/ In "message_start" pre.
Proof.
  revert seen. induction tr as [|e tr IH]; intros seen H pre post E.
  - now destruct pre.
  - destruct pre as [|p pre]; cbn in E; injection E as Ee Et; subst e tr.
    + cbn in H. left. now destruct seen.
    + cbn [scan] in H. destruct (String.eqb_spec p "message_start") as [Hp | Hne].
      * right. left. exact Hp.
      * assert (scan seen (pre ++ "content_block_start" :: post) = true) as H'.
        { destruct (String.eqb p "content_block_start"); [| exact H].
          now apply andb_true_iff in H. }
        destruct (IH seen H' pre post eq_refl) as [? | ?]; [now left | right; now right].
Qed.

(** C1 (amended): whatever events the converter is fed, [message_start] is
    written at most once and stands before every [content_block_start]; and
    once a [response.created], [response.output_item.added],
    [response.reasoning_summary_part.added] or [response.content_part.added]
    event has been processed, [message_start] is out, so it stands before all
    that is written for the later events, deltas and stops included. *)
Theorem message_start_once_before_block_starts
  (evs : list value) (baseModel : value) (toolIdMap : jsmap) (g : rng) :
  let c0 := new_converter baseModel toolIdMap g in
  at_most_once (names (feed evs c0))
  /\ precedes_every ["content_block_start"] (names (feed evs c0))
  /\ (forall evs1 ev evs2,
        evs = evs1 ++ ev :: evs2 -> opens ev = true ->
        In "message_start" (names (feed (evs1 ++ [ev]) c0))
        /\ exists later,
            names (feed evs c0) = names (feed (evs1 ++ [ev]) c0) ++ later).
Proof.
  intros c0.
  destruct (new_converter_flag_ok baseModel toolIdMap g) as [H0 _]. fold c0 in H0.
  pose proof (feed_flag_ok evs c0 H0) as [Hscan _].
  split; [| split].
  - now apply scan_at_most_once.
  - intros pre e post E [<- | []].
    destruct (scan_precedes false _ Hscan pre post E) as [? | ?]; [discriminate | assumption].
  - intros evs1 ev evs2 E Hopens. split.
    + rewrite feed_app. cbn [feed fold_left]. fold (feed evs1 c0).
      pose proof (feed_flag_ok evs1 c0 H0) as H1.
      pose proof (processEvent_flag_ok ev _ H1) as [_ Hsent].
      destruct (processEvent_names ev (feed evs1 c0)) as [_ Hs].
      destruct (step_names_ok ev (messageStartSent (feed evs1 c0))) as (_ & _ & Hopen).
      apply has_start_in. rewrite <- Hsent, Hs. now apply Hopen.
    + subst evs. replace (evs1 ++ ev :: evs2) with ((evs1 ++ [ev]) ++ evs2)
        by (now rewrite <- app_assoc).
      rewrite feed_app. destruct (feed_extends evs2 (feed (evs1 ++ [ev]) c0)) as [out Ho].
      exists (map event out). unfold names. now rewrite Ho, map_app.
Qed.

Lemma message_start_once_before_block_starts_witness :
  let c0 := new_converter (VStr "gpt-5") [] {| entropy := fun _ => Byte.x00; cursor := 0 |} in
  let created := VObj [("type", VStr "response.created")] in
  let delta := VObj [("type", VStr "response.output_text.delta"); ("delta", VStr "Hi")] in
  In "message_start" (names (feed ([] ++ [created]) c0))
  /\ exists later,
      names (feed [created; delta] c0) = names (feed ([] ++ [created]) c0) ++ later.
Proof.
  intros c0 created delta.
  destruct (message_start_once_before_block_starts [created; delta] (VStr "gpt-5") []
              {| entropy := fun _ => Byte.x00; cursor := 0 |}) as (_ & _ & H).
  apply (H [] created [delta]); reflexivity.
Defined.

End Streaming.

(** ** The terminal [response.completed] payload *)

Section Completed.

Lemma opt_get_field (v : value) (k : string) : opt_get v k = field v k.
Proof. now destruct v. Qed.




(** *** The streaming converter on the payload *)

Lemma some_function_call_spec (items : list value) :
  some_function_call items
    = if some_reads items then Some (existsb is_function_call items) else None.
Proof.
  induction items as [|item items IH]; [reflexivity |].
  cbn [some_function_call some_reads existsb].
  destruct (non_nullish item) eqn:Hn; [| now destruct item].
  rewrite (get_non_nullish item "type" Hn). cbn [mbind option_bind andb].
  change (is_str (field item "type") "function_call") with (is_function_call item).
  destruct (is_function_call item); [reflexivity | exact IH].
Qed.

(** The items of [output || []] are those of [output] *)
Lemma output_items (resp : value) (items : list value) :
  js_or (field resp "output") (VArr []) = VArr items ->
  has_function_call_item resp = existsb is_function_call items.
Proof.
  unfold has_function_call_item, js_or.
  destruct (truthy (field resp "output")) eqn:Ht.
  - now intros ->.
  - intros [= <-]. now destruct (field resp "output").
Qed.

Lemma output_has_function_call_spec (resp : value) :
  output_has_function_call (field resp "output")
    = match js_or (field resp "output") (VArr []) with
      | VArr items => if some_reads items then Some (has_function_call_item resp) else None
      | _ => None
      end.
Proof.
  unfold output_has_function_call.
  destruct (js_or (field resp "output") (VArr [])) as [| | | | | | items |] eqn:E;
    try reflexivity.
  now rewrite some_function_call_spec, (output_items resp items E).
Qed.

Lemma counts_subtract_spec (resp : value) :
  counts_subtract resp = true <-> is_Some (js_sub (input_count resp) (cached_count resp)).
Proof. apply js_sub_returns. Qed.

(** The handler: the counts are stored; then it throws, or it writes
    [message_delta] with the derived stop reason, and [message_stop] *)
Lemma completed_spec (ev : value) (c : converter) :
  let resp := response_of ev in
  let c1 := set_tokens c (input_count resp) (output_count resp) (cached_count resp) in
  _handleResponseCompleted ev c
    = match (if stream_reads resp
             then js_sub (input_count resp) (cached_count resp) else None) with
      | Some net =>
          (writeAnthropicSseEvent
             (writeAnthropicSseEvent c1 "message_delta"
                (data (message_delta_of (derived_stop_reason resp) (usage_of resp net))))
             "message_stop" (data message_stop_event),
           Returned)
      | None => (c1, Threw)
      end.
Proof.
  intros resp c1. unfold _handleResponseCompleted. fold (response_of ev). fold resp.
  fold (input_count resp) (output_count resp) (cached_count resp). fold c1.
  rewrite output_has_function_call_spec. unfold stream_reads.
  cbn [inputTokens outputTokens cacheReadInputTokens c1 set_tokens].
  destruct (js_or (field resp "output") (VArr [])) as [| | | | | | items |];
    try reflexivity.
  destruct (some_reads items); [| reflexivity]. cbn [andb].
  destruct (js_sub (input_count resp) (cached_count resp)) as [net|] eqn:E.
  - assert (counts_subtract resp = true) as ->
        by (apply counts_subtract_spec; rewrite E; eauto).
    rewrite opt_get_field. unfold derived_stop_reason.
    now destruct (has_function_call_item resp).
  - now destruct (counts_subtract resp).
Qed.

Lemma processEvent_completed (ev : value) (c : converter) :
  field ev "type" = VStr "response.completed" ->
  processEvent ev c = _handleResponseCompleted ev c.
Proof.
  intros H. unfold processEvent. rewrite H.
  destruct ev; try discriminate H; reflexivity.
Qed.

(** The handler returns exactly on the payloads the converter can read *)
Lemma completed_outcome (ev : value) (c : converter) :
  snd (_handleResponseCompleted ev c) = Returned <-> stream_reads (response_of ev) = true.
Proof.
  rewrite completed_spec.
  destruct (stream_reads (response_of ev)) eqn:Hr; [| split; discriminate].
  apply andb_true_iff in Hr as [_ Hs]. apply counts_subtract_spec in Hs as [net ->].
  now split.
Qed.


(** What the handler writes when it returns, and when it throws *)
Lemma completed_written (ev : value) (c : converter) :
  let resp := response_of ev in
  match snd (_handleResponseCompleted ev c) with
  | Returned =>
      exists net,
        js_sub (input_count resp) (cached_count resp) = Some net
        /\ res (fst (_handleResponseCompleted ev c))
           = res c ++ [message_delta_of (derived_stop_reason resp) (usage_of resp net);
                       message_stop_event]
  | Threw => res (fst (_handleResponseCompleted ev c)) = res c
  end.
Proof.
  intros resp. rewrite completed_spec. fold resp.
  destruct (stream_reads resp); [| reflexivity].
  destruct (js_sub (input_count resp) (cached_count resp)) as [net|]; [| reflexivity].
  exists net. split; [reflexivity |]. cbn. now rewrite <- app_assoc.
Qed.

(** *** The non-streaming translator on the payload *)

Lemma summary_texts_spec (parts : list value) :
  summary_texts parts
    = if forallb non_nullish parts
      then Some (map (fun p => js_or (field p "text") (VStr "")) parts)
      else None.
Proof.
  induction parts as [|p parts IH]; [reflexivity |].
  cbn [summary_texts forallb map].
  destruct (non_nullish p) eqn:Hp; [| now destruct p].
  rewrite (get_non_nullish p "text" Hp), IH. cbn [mbind option_bind andb].
  now destruct (forallb non_nullish parts).
Qed.

Lemma summary_parts_ok (parts : list value) :
  forallb summary_part_ok parts
    = forallb non_nullish parts
      && forallb to_primitive_ok (map (fun p => js_or (field p "text") (VStr "")) parts).
Proof.
  induction parts as [|p parts IH]; [reflexivity |].
  cbn [forallb map]. rewrite IH. unfold summary_part_ok.
  destruct (non_nullish p), (to_primitive_ok _), (forallb non_nullish parts);
    reflexivity.
Qed.

Lemma message_part_returns (content : list value) (part : value) :
  non_nullish part = true <-> is_Some (message_part content part).
Proof.
  unfold message_part. destruct (non_nullish part) eqn:Hp.
  - rewrite (get_non_nullish part "type" Hp). cbn [mbind option_bind].
    destruct (is_str _ _); split; eauto.
  - destruct part; try discriminate Hp; (split; [discriminate | intros [? [=]]]).
Qed.

Lemma message_part_tool_use (content : list value) (part : value) (content' : list value) :
  message_part content part = Some content' ->
  existsb is_tool_use content' = existsb is_tool_use content.
Proof.
  unfold message_part. destruct (get part "type") as [ty|]; [| discriminate].
  cbn [mbind option_bind]. destruct (is_str ty "output_text"); intros [= <-]; [| reflexivity].
  rewrite existsb_app. cbn. now rewrite orb_false_r.
Qed.

Lemma characters_are_no_calls (s : string) :
  existsb is_function_call (map (fun a => VStr (String a "")) (list_ascii_of_string s)) = false.
Proof. induction s as [|a s IH]; [reflexivity | exact IH]. Qed.

Lemma characters_are_non_nullish (s : string) :
  forallb non_nullish (map (fun a => VStr (String a "")) (list_ascii_of_string s)) = true.
Proof. induction s as [|a s IH]; [reflexivity | exact IH]. Qed.

(** One turn of the loop over [output] returns exactly on a readable item *)
Lemma output_item_returns (parse : string -> option value) (reverse : jsmap)
  (st : list value * rng) (item : value) :
  output_item_ok item = true <-> is_Some (output_item parse reverse st item).
Proof.
  destruct st as [content g]. unfold output_item_ok, output_item.
  destruct (non_nullish item) eqn:Hn.
  2:{ destruct item; try discriminate Hn; (split; [discriminate | intros [? [=]]]). }
  rewrite (get_non_nullish item "type" Hn). cbn [mbind option_bind andb].
  destruct (is_str (field item "type") "reasoning").
  { destruct (js_or (field item "summary") (VArr [])) as [| | | | | | parts |];
      try (split; [discriminate | intros [? [=]]]).
    rewrite summary_texts_spec, summary_parts_ok.
    destruct (forallb non_nullish parts); [| split; [discriminate | intros [? [=]]]].
    cbn [mbind option_bind andb]. rewrite (join_returns "").
    destruct (join "" _) as [t|]; cbn [mbind option_bind].
    - destruct (truthy _); split; eauto.
    - split; intros [? [=]]. }
  destruct (is_str (field item "type") "message").
  { destruct (js_or (field item "content") (VArr [])) as [| | | | | s | parts |];
      cbn [iterate mbind option_bind];
      try (split; [discriminate | intros [? [=]]]).
    - pose proof (proj1 (fold_opt_returns message_part non_nullish _ message_part_returns
                           content) (characters_are_non_nullish s)) as [content' ->].
      split; eauto.
    - rewrite (fold_opt_returns message_part non_nullish parts message_part_returns content).
      destruct (fold_opt message_part content parts); cbn; split; eauto;
        intros [? [=]]. }
  destruct (is_str (field item "type") "function_call").
  { destruct (mapped_or_fresh _ g). split; eauto. }
  split; eauto.
Qed.

(** A turn of the loop adds a [tool_use] block exactly for a function call *)
Lemma output_item_tool_use (parse : string -> option value) (reverse : jsmap)
  (content : list value) (g : rng) (item : value) (content' : list value) (g' : rng) :
  output_item parse reverse (content, g) item = Some (content', g') ->
  existsb is_tool_use content' = existsb is_tool_use content || is_function_call item.
Proof.
  unfold output_item, is_function_call.
  destruct (get item "type") as [ty|] eqn:Hty; [| discriminate].
  apply get_some in Hty as [-> _].
  cbn [mbind option_bind].
  destruct (is_str (field item "type") "reasoning") eqn:E1.
  { apply is_str_true in E1. rewrite E1. cbn [is_str String.eqb Ascii.eqb Bool.eqb].
    rewrite orb_false_r.
    destruct (js_or _ (VArr [])) as [| | | | | | parts |]; try discriminate.
    destruct (summary_texts parts) as [texts|]; [| discriminate]. cbn [mbind option_bind].
    destruct (join "" texts) as [t|]; [| discriminate]. cbn [mbind option_bind].
    destruct (truthy (VStr t)); intros [= <- <-]; [| reflexivity].
    rewrite existsb_app. cbn. now rewrite orb_false_r. }
  destruct (is_str (field item "type") "message") eqn:E2.
  { apply is_str_true in E2. rewrite E2. cbn [is_str String.eqb Ascii.eqb Bool.eqb].
    rewrite orb_false_r.
    destruct (iterate _) as [parts|]; [| discriminate]. cbn [mbind option_bind].
    destruct (fold_opt message_part content parts) as [c1|] eqn:F; [| discriminate].
    cbn [mbind option_bind]. intros [= <- <-].
    refine (fold_opt_keeps message_part
              (fun c => existsb is_tool_use c = existsb is_tool_use content)
              parts _ content c1 F eq_refl).
    intros a x a' Hx Ha. now rewrite (message_part_tool_use a x a' Hx). }
  destruct (is_str (field item "type") "function_call") eqn:E3.
  { destruct (mapped_or_fresh _ g) as [anthropicId g1]. intros [= <- <-].
    rewrite existsb_app. cbn. now rewrite !orb_true_r. }
  intros [= <- <-]. now rewrite orb_false_r.
Qed.

Lemma output_items_tool_use (parse : string -> option value) (reverse : jsmap)
  (items content : list value) (g : rng) (content' : list value) (g' : rng) :
  fold_opt (output_item parse reverse) (content, g) items = Some (content', g') ->
  existsb is_tool_use content'
    = existsb is_tool_use content || existsb is_function_call items.
Proof.
  revert content g. induction items as [|item items IH]; intros content g.
  - intros [= <- <-]. now rewrite orb_false_r.
  - cbn [fold_opt existsb].
    destruct (output_item parse reverse (content, g) item) as [[c1 g1]|] eqn:E;
      [| discriminate].
    cbn [mbind option_bind]. intros H.
    rewrite (IH c1 g1 H), (output_item_tool_use _ _ _ _ _ _ _ E). now rewrite orb_assoc.
Qed.

(** The translator returns exactly on the payloads it can read *)
Lemma nonstream_returns (parse : string -> option value) (resp baseModel : value)
  (toolIdMap : jsmap) (g : rng) :
  translator_reads resp = true
  <-> is_Some (convertCodexResponseToAnthropic parse resp baseModel toolIdMap g).
Proof.
  unfold translator_reads, convertCodexResponseToAnthropic.
  match goal with
  | |- context [fold_left ?f toolIdMap []] => set (reverse := fold_left f toolIdMap [])
  end.
  destruct (non_nullish resp) eqn:Hn.
  2:{ destruct resp; try discriminate Hn; (split; [discriminate | intros [? [=]]]). }
  rewrite (get_non_nullish resp "output" Hn). cbn [mbind option_bind andb].
  fold (input_count resp) (cached_count resp) (output_count resp).
  assert (forall items : list value,
            forallb output_item_ok items && counts_subtract resp = true
            <-> is_Some
                  (fold_opt (output_item parse reverse) ([], g) items ≫= fun '(content, g1) =>
                     let (x, g2) := random_hex 16 g1 in
                     js_sub (input_count resp) (cached_count resp) ≫= fun net =>
                       Some (VObj [("id", VStr ("msg_" +:+ x));
                                   ("type", VStr "message");
                                   ("role", VStr "assistant");
                                   ("model", VStr CODEX_RESPONSE_MODEL_ALIAS);
                                   ("content", VArr content);
                                   ("stop_reason",
                                     VStr (if existsb
                                                (fun c => is_str (field c "type") "tool_use")
                                                content
                                           then "tool_use"
                                           else if is_str (field resp "status") "incomplete"
                                                   && is_str (opt_get
                                                                (field resp "incomplete_details")
                                                                "reason")
                                                             "max_output_tokens"
                                                then "max_tokens" else "end_turn"));
                                   ("stop_sequence", VNull);
                                   ("usage",
                                     VObj [("input_tokens", net);
                                           ("output_tokens", output_count resp);
                                           ("cache_creation_input_tokens", VNum 0);
                                           ("cache_read_input_tokens", cached_count resp)])],
                             g2))) as Hloop.
  { intros items. rewrite andb_true_iff, counts_subtract_spec.
    rewrite (fold_opt_returns (output_item parse reverse) output_item_ok items
               (output_item_returns parse reverse) ([], g)).
    destruct (fold_opt _ _ items) as [[content g1]|]; cbn [mbind option_bind].
    - destruct (random_hex 16 g1) as [x g2].
      destruct (js_sub _ _) as [net|]; cbn [mbind option_bind]; split; eauto;
        try (intros [_ [? [=]]]); intros [? [=]].
    - split; [intros [[? [=]] _] | intros [? [=]]]. }
  destruct (js_or (field resp "output") (VArr [])) as [| | | | | s | items |];
    cbn [iterate mbind option_bind];
    try (split; [discriminate | intros [? [=]]]).
  - rewrite <- Hloop.
    assert (forallb output_item_ok
              (map (fun a => VStr (String a "")) (list_ascii_of_string s)) = true) as ->;
      [| reflexivity].
    induction s as [|a s IH]; [reflexivity | exact IH].
  - apply Hloop.
Qed.

(** What the translator returns: the derived stop reason, and the usage
    with the difference of the counts *)
Lemma nonstream_result (parse : string -> option value) (resp baseModel : value)
  (toolIdMap : jsmap) (g : rng) (a : value) (g' : rng) :
  convertCodexResponseToAnthropic parse resp baseModel toolIdMap g = Some (a, g') ->
  exists net,
    js_sub (input_count resp) (cached_count resp) = Some net
    /\ field a "stop_reason" = VStr (derived_stop_reason resp)
    /\ field a "usage"
       = VObj [("input_tokens", net);
               ("output_tokens", output_count resp);
               ("cache_creation_input_tokens", VNum 0);
               ("cache_read_input_tokens", cached_count resp)].
Proof.
  unfold convertCodexResponseToAnthropic.
  match goal with
  | |- context [fold_left ?f toolIdMap []] => set (reverse := fold_left f toolIdMap [])
  end.
  destruct (get resp "output") as [out|] eqn:Hout; [| discriminate].
  apply get_some in Hout as [-> _].
  cbn [mbind option_bind].
  destruct (iterate _) as [items|] eqn:Hitems; [| discriminate]. cbn [mbind option_bind].
  destruct (fold_opt _ _ items) as [[content g1]|] eqn:F; [| discriminate].
  cbn [mbind option_bind].
  destruct (random_hex 16 g1) as [x g2].
  fold (input_count resp) (cached_count resp) (output_count resp).
  destruct (js_sub _ _) as [net|]; [| discriminate]. cbn [mbind option_bind].
  intros [= <- <-]. exists net. split; [reflexivity |]. split; [| reflexivity].
  cbn [field lookup_field String.eqb Ascii.eqb Bool.eqb]. f_equal.
  apply output_items_tool_use in F. cbn [existsb orb] in F.
  change (existsb (fun c => is_str (field c "type") "tool_use") content)
    with (existsb is_tool_use content).
  rewrite F, opt_get_field. unfold derived_stop_reason.
  assert (has_function_call_item resp = existsb is_function_call items) as ->.
  { destruct (js_or (field resp "output") (VArr [])) as [| | | | | s | l |] eqn:E;
      try discriminate Hitems; injection Hitems as <-.
    - rewrite characters_are_no_calls. unfold has_function_call_item.
      unfold js_or in E. destruct (truthy (field resp "output")); [now rewrite E | discriminate].
    - now apply output_items. }
  now destruct (existsb is_function_call items).
Qed.

(** *** Stop reason and usage, stream and non-stream *)

(** C6 as stated fails: on an [output] that holds a function call and then
    [null], the streaming converter stops at the call and reports
    [tool_use], while the non-streaming translator reads on and throws at
    the [null]. *)
Lemma stream_reports_what_translator_rejects :
  ~ same_stop_reason (fun _ => None) call_then_null (VStr "gpt-5") []
      {| entropy := fun _ => Byte.x00; cursor := 0 |}
      (new_converter (VStr "gpt-5") [] {| entropy := fun _ => Byte.x00; cursor := 0 |})
  /\ (exists usage,
        res (fst (processEvent call_then_null
                    (new_converter (VStr "gpt-5") []
                       {| entropy := fun _ => Byte.x00; cursor := 0 |})))
          = [message_delta_of "tool_use" usage; message_stop_event])
  /\ convertCodexResponseToAnthropic (fun _ => None) (response_of call_then_null)
       (VStr "gpt-5") [] {| entropy := fun _ => Byte.x00; cursor := 0 |} = None.
Proof.
  split; [| split].
  - intros (s & c' & usage & a & g' & _ & _ & H & _). discriminate H.
  - eexists. reflexivity.
  - reflexivity.
Qed.

(** C6 (amended): on a [response.completed] event each path, whenever it
    returns, reports the derived stop reason of [event.response || {}]
    ([end_turn] by default, [max_tokens] for an incomplete response that ran
    out of output tokens, [tool_use] over both when an output item is a
    function call), so the two agree whenever both return.  The streaming
    converter returns exactly when [output] is falsy or a list with no
    [null] or [undefined] item before its first function call and the
    counts [input_tokens] and [cached_tokens] convert to numbers; when it
    throws it has written nothing.  The non-streaming translator returns
    exactly when [output] is falsy, a string, or a list of readable items,
    and the counts convert to numbers. *)
Theorem stop_reason_derivation (parse : string -> option value)
  (ev baseModel : value) (toolIdMap : jsmap) (g : rng) (c : converter) :
  field ev "type" = VStr "response.completed" ->
  let resp := response_of ev in
  let stream := processEvent ev c in
  let translated := convertCodexResponseToAnthropic parse resp baseModel toolIdMap g in
  (snd stream = Returned <-> stream_reads resp = true)
  /\ (snd stream = Returned ->
      exists usage,
        res (fst stream)
          = res c ++ [message_delta_of (derived_stop_reason resp) usage;
                      message_stop_event])
  /\ (snd stream = Threw -> res (fst stream) = res c)
  /\ (is_Some translated <-> translator_reads resp = true)
  /\ (forall a g',
        translated = Some (a, g') ->
        field a "stop_reason" = VStr (derived_stop_reason resp)).
Proof.
  intros Hty resp stream translated. subst stream translated.
  rewrite (processEvent_completed ev c Hty).
  pose proof (completed_written ev c) as Hw. cbv zeta in Hw. fold resp in Hw.
  split; [apply completed_outcome |].
  split; [| split; [| split]].
  - intros Hr. rewrite Hr in Hw. destruct Hw as (net & _ & Hw). eauto.
  - intros Ht. now rewrite Ht in Hw.
  - symmetry. apply nonstream_returns.
  - intros a g' Ha.
    now destruct (nonstream_result parse resp baseModel toolIdMap g a g' Ha)
      as (net & _ & Hs & _).
Qed.

Lemma stop_reason_derivation_witness :
  let fc := VObj [("type", VStr "function_call"); ("call_id", VStr "call_A");
                  ("name", VStr "run"); ("arguments", VStr "{}")] in
  let resp := VObj [("status", VStr "incomplete");
                    ("incomplete_details", VObj [("reason", VStr "max_output_tokens")]);
                    ("output", VArr [fc; VNull])] in
  let ev := VObj [("type", VStr "response.completed"); ("response", resp)] in
  let g := {| entropy := fun _ => Byte.x00; cursor := 0 |} in
  let c := new_converter (VStr "gpt-5") [] g in
  (exists usage,
      res (fst (processEvent ev c))
        = res c ++ [message_delta_of "tool_use" usage; message_stop_event])
  /\ ~ is_Some (convertCodexResponseToAnthropic (fun _ => None) resp (VStr "gpt-5") [] g).
Proof.
  intros fc resp ev g c.
  destruct (stop_reason_derivation (fun _ => None) ev (VStr "gpt-5") [] g c eq_refl)
    as (Hs & Hw & _ & Ht & _).
  split.
  - apply Hw. apply Hs. reflexivity.
  - intros H. apply Ht in H. discriminate H.
Defined.


(** ... and the negative count is what the sink is handed *)
Lemma negative_input_reaches_sink :
  stream_recordUsage
    (fst (processEvent overcached
            (new_converter (VStr "gpt-5") [] {| entropy := fun _ => Byte.x00; cursor := 0 |})))
  = Some (Some (recorded 10 5 40))
  /\ rec_inputTokens (recorded 10 5 40) = VNum (-30).
Proof. split; reflexivity. Qed.




End Completed.

(** ** Request translation *)

Section Translation.

Lemma fold_opt_total {A B : Type} (f : A -> B -> option A) (P : B -> bool) (l : list B) :
  (forall a x, P x = true -> exists a', f a x = Some a') ->
  forallb P l = true -> forall a, exists a', fold_opt f a l = Some a'.
Proof.
  intros Hf. induction l as [|x l IH]; intros Hl a; [now exists a |].
  cbn [forallb] in Hl. apply andb_true_iff in Hl as [Hx Hl].
  destruct (Hf a x Hx) as [a1 H1]. destruct (IH Hl a1) as [a2 H2].
  exists a2. cbn [fold_opt]. rewrite H1. exact H2.
Qed.

(** *** Where the translation returns *)

Lemma filter_text_spec (parts : list value) :
  filter_text parts
    = if forallb non_nullish parts
      then Some (List.filter (fun c => is_str (field c "type") "text") parts)
      else None.
Proof.
  induction parts as [|p parts IH]; [reflexivity |].
  cbn [filter_text forallb List.filter].
  destruct (non_nullish p) eqn:Hp; [| now destruct p].
  rewrite (get_non_nullish p "type" Hp), IH. cbn [mbind option_bind andb].
  now destruct (forallb non_nullish parts).
Qed.

Lemma result_parts_ok (parts : list value) :
  forallb result_part_ok parts
    = forallb non_nullish parts
      && forallb to_primitive_ok
           (map (fun c => js_or (field c "text") (VStr ""))
                (List.filter (fun c => is_str (field c "type") "text") parts)).
Proof.
  induction parts as [|p parts IH]; [reflexivity |].
  cbn [forallb List.filter]. rewrite IH. unfold result_part_ok.
  destruct (is_str (field p "type") "text"); cbn [negb orb map forallb];
    destruct (non_nullish p), (forallb non_nullish parts);
    rewrite ?andb_true_r, ?andb_false_r; cbn [andb]; try reflexivity;
    now destruct (to_primitive_ok _).
Qed.

(** The text of a [tool_result] is built exactly when its content can be
    read *)
Lemma outputTextOf_returns (b : value) :
  result_content_ok b = true <-> is_Some (outputTextOf b).
Proof.
  unfold result_content_ok, outputTextOf.
  destruct (field b "content") as [| | | | | | parts |]; try (split; eauto; fail).
  rewrite filter_text_spec, result_parts_ok.
  destruct (forallb non_nullish parts); cbn [mbind option_bind andb].
  - apply join_returns.
  - split; [discriminate | intros [? [=]]].
Qed.

Lemma user_block_returns (a : acc) (b : value) :
  user_block_ok b = true <-> is_Some (user_block a b).
Proof.
  unfold user_block_ok, user_block. destruct (non_nullish b) eqn:Hb.
  2:{ destruct b; try discriminate Hb; (split; [discriminate | intros [? [=]]]). }
  rewrite (get_non_nullish b "type" Hb). cbn [mbind option_bind andb].
  destruct (is_str (field b "type") "text") eqn:Et.
  { apply is_str_true in Et. rewrite Et. cbn. split; eauto. }
  destruct (is_str (field b "type") "tool_result"); [| split; eauto].
  rewrite outputTextOf_returns.
  destruct (outputTextOf b); cbn [mbind option_bind]; split; eauto; intros [? [=]].
Qed.

Lemma assistant_block_returns (a : acc) (b : value) :
  non_nullish b = true <-> is_Some (assistant_block a b).
Proof.
  unfold assistant_block. destruct (non_nullish b) eqn:Hb.
  2:{ destruct b; try discriminate Hb; (split; [discriminate | intros [? [=]]]). }
  rewrite (get_non_nullish b "type" Hb). cbn [mbind option_bind].
  destruct (generateCodexCallId (gen a)).
  repeat match goal with |- context [if ?c then _ else _] => destruct c end; split; eauto.
Qed.

Lemma message_step_returns (a : acc) (m : value) :
  turn_ok m = true <-> is_Some (message_step a m).
Proof.
  unfold turn_ok, message_step. destruct (non_nullish m) eqn:Hm.
  2:{ destruct m; try discriminate Hm; (split; [discriminate | intros [? [=]]]). }
  rewrite (get_non_nullish m "role" Hm). cbn [mbind option_bind andb].
  destruct (is_str (field m "role") "user").
  - apply fold_opt_returns. intros a' x. apply user_block_returns.
  - destruct (is_str (field m "role") "assistant"); [| split; eauto].
    apply fold_opt_returns. intros a' x. apply assistant_block_returns.
Qed.

(** The translation of a list of turns returns exactly when every turn can
    be read *)
Lemma translation_returns_iff (ms : list value) (g : rng) :
  forallb turn_ok ms = true <-> is_Some (convertMessagesToCodexInput (VArr ms) g).
Proof.
  unfold convertMessagesToCodexInput. cbn [iterate mbind option_bind].
  apply fold_opt_returns. apply message_step_returns.
Qed.

(** A turn that is a string has no role *)
Lemma characters_are_no_turns (s : string) (a : acc) :
  fold_opt message_step a (map (fun c => VStr (String c "")) (list_ascii_of_string s))
    = Some a.
Proof. induction s as [|c s IH]; [reflexivity | exact IH]. Qed.

(** C10 as stated fails: a [null] block is read for its [type], which is a
    TypeError. *)
Lemma null_block_throws :
  ~ translation_returns
      (VArr [VObj [("role", VStr "user"); ("content", VArr [VNull])]])
      {| entropy := fun _ => Byte.x00; cursor := 0 |}.
Proof. intros [a H]. discriminate H. Qed.

(** C10 (amended): the translation of a list of turns returns exactly when
    every turn can be read, that is: no turn is [null] or [undefined]; no
    content block of a user or assistant turn is; no part of the content
    list of a user turn's [tool_result] block is; and no text part of such a
    list has a text whose conversion to a string throws (an object with a
    [toString] member of its own, or an array that holds one).  In every
    other case it throws.  Messages given as a string translate to an empty
    input, and messages that are neither a list nor a string throw.  Where
    it returns, a turn whose content is neither a string nor a list
    contributes no input items, and a block whose type is none of [text],
    [tool_result] (user) or [text], [thinking], [tool_use] (assistant) is
    dropped without a trace. *)
Theorem translation_returns_on_readable_turns (g : rng) :
  (forall ms,
      (exists a, convertMessagesToCodexInput (VArr ms) g = Some a)
      <-> forallb turn_ok ms = true)
  /\ (forall s,
        convertMessagesToCodexInput (VStr s) g
          = Some {| input := []; toolIdMap := []; gen := g |})
  /\ (forall v,
        match v with VArr _ | VStr _ => false | _ => true end = true ->
        convertMessagesToCodexInput v g = None)
  /\ (forall a m,
        non_nullish m = true ->
        match field m "content" with VStr _ | VArr _ => false | _ => true end = true ->
        message_step a m = Some a)
  /\ (forall a b,
        non_nullish b = true ->
        is_str (field b "type") "text" = false ->
        is_str (field b "type") "tool_result" = false ->
        user_block a b = Some a)
  /\ (forall a b,
        non_nullish b = true ->
        is_str (field b "type") "text" = false ->
        is_str (field b "type") "thinking" = false ->
        is_str (field b "type") "tool_use" = false ->
        assistant_block a b = Some a).
Proof.
  split; [| split; [| split; [| split; [| split]]]].
  - intros ms. symmetry. apply translation_returns_iff.
  - intros s. unfold convertMessagesToCodexInput. cbn [iterate mbind option_bind].
    apply characters_are_no_turns.
  - intros v Hv. now destruct v.
  - intros a m Hm Hc. unfold message_step.
    rewrite (get_non_nullish m "role" Hm). cbn [mbind option_bind].
    assert (normalizeContent (field m "content") = []) as ->.
    { unfold normalizeContent. destruct (field m "content"); try discriminate Hc;
        now destruct (negb _). }
    now repeat match goal with |- context [if ?c then _ else _] => destruct c end.
  - intros a b Hb Ht Hr. unfold user_block.
    rewrite (get_non_nullish b "type" Hb). cbn [mbind option_bind].
    now rewrite Ht, Hr.
  - intros a b Hb Ht Hk Hu. unfold assistant_block.
    rewrite (get_non_nullish b "type" Hb). cbn [mbind option_bind].
    now rewrite Ht, Hk, Hu.
Qed.

Lemma translation_returns_on_readable_turns_witness :
  (exists a,
      convertMessagesToCodexInput
        (VArr [VObj [("role", VStr "user");
                     ("content", VArr [VObj [("type", VStr "image")]; VNum 7;
                                       VObj [("type", VStr "text"); ("text", VStr "hi")]])];
               VObj [("role", VStr "assistant"); ("content", VNum 3)];
               VObj [("role", VStr "system"); ("content", VArr [VNull])]])
        {| entropy := fun _ => Byte.x00; cursor := 0 |} = Some a)
  /\ ~ (exists a,
          convertMessagesToCodexInput
            (VArr [VObj [("role", VStr "user");
                         ("content",
                           VArr [VObj [("type", VStr "tool_result");
                                       ("content",
                                         VArr [VObj [("type", VStr "text");
                                                     ("text",
                                                       VArr [VObj [("toString",
                                                                     VBool true)]])]])]])]])
            {| entropy := fun _ => Byte.x00; cursor := 0 |} = Some a).
Proof.
  destruct (translation_returns_on_readable_turns
              {| entropy := fun _ => Byte.x00; cursor := 0 |}) as (H & _).
  split.
  - apply H. reflexivity.
  - intros E. apply H in E. discriminate E.
Defined.

(** *** Tool-call ids across turns *)





Lemma field_is_non_nullish (v : value) (k : string) (x : value) :
  field v k = x -> x <> VUndef -> non_nullish v = true.
Proof. intros <- H. destruct v; try reflexivity; now contradiction H. Qed.

Lemma is_str_non_nullish (v : value) (k lit : string) :
  is_str (field v k) lit = true -> non_nullish v = true.
Proof.
  intros H. apply is_str_true in H. now apply (field_is_non_nullish v k _ H).
Qed.

(** A turn is walked by its role *)
Lemma message_step_user (a : acc) (m : value) :
  is_str (field m "role") "user" = true ->
  message_step a m = fold_opt user_block a (normalizeContent (field m "content")).
Proof.
  intros H. unfold message_step.
  rewrite (get_non_nullish m "role" (is_str_non_nullish m "role" "user" H)).
  cbn [mbind option_bind]. now rewrite H.
Qed.

Lemma message_step_assistant (a : acc) (m : value) :
  is_str (field m "role") "assistant" = true ->
  message_step a m = fold_opt assistant_block a (normalizeContent (field m "content")).
Proof.
  intros H. unfold message_step.
  rewrite (get_non_nullish m "role" (is_str_non_nullish m "role" "assistant" H)).
  cbn [mbind option_bind]. rewrite H.
  apply is_str_true in H. now rewrite H.
Qed.

(** What a [tool_use] block does *)
Lemma tool_use_block (a : acc) (tu : value) (a' : acc) :
  is_tool_use tu = true ->
  assistant_block a tu = Some a' ->
  a' = {| input := input a ++ [call_item (fst (generateCodexCallId (gen a))) tu];
          toolIdMap := map_set (toolIdMap a) (field tu "id")
                               (VStr (fst (generateCodexCallId (gen a))));
          gen := snd (generateCodexCallId (gen a)) |}.
Proof.
  unfold is_tool_use, assistant_block. intros Hty.
  rewrite (get_non_nullish tu "type" (is_str_non_nullish tu "type" "tool_use" Hty)).
  cbn [mbind option_bind]. rewrite Hty. apply is_str_true in Hty. rewrite Hty.
  cbn [is_str String.eqb Ascii.eqb Bool.eqb].
  destruct (generateCodexCallId (gen a)) as [callId g']. now intros [= <-].
Qed.

(** What a [tool_result] block does *)
Lemma tool_result_block (a : acc) (tr : value) (a' : acc) :
  is_str (field tr "type") "tool_result" = true ->
  user_block a tr = Some a' ->
  exists outputText,
    outputTextOf tr = Some outputText
    /\ a' = push a (call_output_item
                      (js_or (map_get (toolIdMap a) (field tr "tool_use_id"))
                             (field tr "tool_use_id"))
                      outputText).
Proof.
  unfold user_block. intros Hty.
  rewrite (get_non_nullish tr "type" (is_str_non_nullish tr "type" "tool_result" Hty)).
  cbn [mbind option_bind]. rewrite Hty. apply is_str_true in Hty. rewrite Hty.
  cbn [is_str String.eqb Ascii.eqb Bool.eqb].
  destruct (outputTextOf tr) as [outputText|]; [| discriminate].
  cbn [mbind option_bind]. intros [= <-]. now exists outputText.
Qed.


Lemma holds_push (q v : value) (base : list value) (a : acc) (item : value) :
  holds q v base a -> holds q v base (push a item).
Proof.
  intros [Hm [items Hi]]. split; [exact Hm |].
  exists (items ++ [item]). cbn [push input]. now rewrite Hi, app_assoc.
Qed.

(** A user block leaves the tool-id map alone and only appends *)
Lemma user_block_holds (q v : value) (base : list value) (a : acc) (b : value) (a' : acc) :
  user_block a b = Some a' -> holds q v base a -> holds q v base a'.
Proof.
  unfold user_block. destruct (get b "type") as [ty|]; [| discriminate].
  cbn [mbind option_bind]. intros H Ha.
  destruct (is_str ty "text"); [injection H as <-; now apply holds_push |].
  destruct (is_str ty "tool_result"); [| now injection H as <-].
  destruct (outputTextOf b) as [t|]; [| discriminate].
  injection H as <-. now apply holds_push.
Qed.

(** An assistant block that does not take the key over leaves its entry
    alone and only appends *)
Lemma assistant_block_holds (q v : value) (base : list value) (a : acc) (b : value)
  (a' : acc) :
  negb (remaps q b) = true ->
  assistant_block a b = Some a' -> holds q v base a -> holds q v base a'.
Proof.
  intros Hq%negb_true_iff H Ha. destruct (is_tool_use b) eqn:Hb.
  - rewrite (tool_use_block a b a' Hb H). destruct Ha as [Hm [items Hi]].
    unfold remaps in Hq. rewrite Hb in Hq. cbn [andb] in Hq.
    split; cbn [toolIdMap input].
    + now rewrite map_get_set_ne.
    + eexists. rewrite Hi, <- app_assoc. reflexivity.
  - unfold assistant_block in H. unfold is_tool_use in Hb.
    destruct (get b "type") as [ty|] eqn:Hty; [| discriminate].
    apply get_some in Hty as [-> _]. cbn [mbind option_bind] in H. rewrite Hb in H.
    destruct (is_str (field b "type") "thinking"); [now injection H as <- |].
    destruct (is_str (field b "type") "text"); [| now injection H as <-].
    injection H as <-. now apply holds_push.
Qed.

Lemma turn_holds (q v : value) (base : list value) (a : acc) (m : value) (a' : acc) :
  negb (turn_remaps q m) = true ->
  message_step a m = Some a' -> holds q v base a -> holds q v base a'.
Proof.
  intros Hq%negb_true_iff H Ha. unfold turn_remaps in Hq.
  destruct (is_str (field m "role") "user") eqn:Hu.
  { rewrite (message_step_user a m Hu) in H.
    refine (fold_opt_keeps user_block (holds q v base) _ _ a a' H Ha).
    intros a1 x a2. apply user_block_holds. }
  destruct (is_str (field m "role") "assistant") eqn:Hr.
  { rewrite (message_step_assistant a m Hr) in H. cbn [andb] in Hq.
    refine (fold_opt_keeps_on assistant_block (holds q v base)
              (fun b => negb (remaps q b)) _ _ (existsb_false_forallb _ _ Hq) a a' H Ha).
    intros a1 x a2. apply assistant_block_holds. }
  unfold message_step in H. destruct (get m "role") as [role|] eqn:E; [| discriminate].
  apply get_some in E as [-> _]. cbn [mbind option_bind] in H. rewrite Hu, Hr in H.
  now injection H as <-.
Qed.

Lemma holds_any_turn (base : list value) (a : acc) (m : value) (a' : acc) :
  message_step a m = Some a' ->
  (exists items, input a = base ++ items) -> exists items, input a' = base ++ items.
Proof.
  intros H Ha.
  assert (forall a1 x a2, user_block a1 x = Some a2 \/ assistant_block a1 x = Some a2 ->
                          (exists items, input a1 = base ++ items) ->
                          exists items, input a2 = base ++ items) as Hblock.
  { intros a1 x a2 [Hx | Hx] [items Hi].
    - now destruct (user_block_holds VUndef (map_get (toolIdMap a1) VUndef) base a1 x a2 Hx)
        as [_ ?]; [split; eauto |].
    - unfold assistant_block in Hx. destruct (get x "type") as [ty|]; [| discriminate].
      cbn [mbind option_bind] in Hx.
      destruct (is_str ty "thinking"); [injection Hx as <-; eauto |].
      destruct (is_str ty "text").
      { injection Hx as <-. cbn [push input]. eexists. rewrite Hi, <- app_assoc. reflexivity. }
      destruct (is_str ty "tool_use"); [| injection Hx as <-; eauto].
      destruct (generateCodexCallId (gen a1)). injection Hx as <-. cbn [input].
      eexists. rewrite Hi, <- app_assoc. reflexivity. }
  unfold message_step in H. destruct (get m "role") as [role|]; [| discriminate].
  cbn [mbind option_bind] in H.
  destruct (is_str role "user").
  { refine (fold_opt_keeps user_block (fun a => exists items, input a = base ++ items)
              _ _ a a' H Ha).
    intros a1 x a2 Hx. apply (Hblock a1 x a2). now left. }
  destruct (is_str role "assistant"); [| now injection H as <-].
  refine (fold_opt_keeps assistant_block (fun a => exists items, input a = base ++ items)
            _ _ a a' H Ha).
  intros a1 x a2 Hx. apply (Hblock a1 x a2). now right.
Qed.

(** *** Counting calls *)

Lemma unchanged_calls_refl (a : acc) : unchanged_calls a a.
Proof. now repeat split. Qed.

Lemma unchanged_calls_trans (a b c : acc) :
  unchanged_calls a b -> unchanged_calls b c -> unchanged_calls a c.
Proof. intros (? & ? & ? & ?) (? & ? & ? & ?). repeat split; congruence. Qed.

Lemma push_calls (a : acc) (item : value) :
  toolIdMap (push a item) = toolIdMap a /\ gen (push a item) = gen a
  /\ calls (push a item) = calls a ++ (if is_function_call item then [item] else [])
  /\ call_outputs (push a item)
     = call_outputs a ++ (if is_call_output item then [item] else []).
Proof.
  unfold calls, call_outputs, push. cbn [input toolIdMap gen].
  rewrite !List.filter_app. cbn [List.filter]. repeat split.
Qed.

Lemma push_quiet (a0 a : acc) (item : value) :
  is_function_call item = false -> is_call_output item = false ->
  unchanged_calls a0 a -> unchanged_calls a0 (push a item).
Proof.
  intros Hc Ho Ha. apply unchanged_calls_trans with a; [exact Ha |].
  destruct (push_calls a item) as (Hm & Hg & Hcs & Hos).
  rewrite Hc in Hcs. rewrite Ho in Hos. rewrite app_nil_r in Hcs, Hos. now repeat split.
Qed.

Lemma quiet_user_block_step (a0 a : acc) (b : value) (a' : acc) :
  quiet_user_block b = true ->
  user_block a b = Some a' -> unchanged_calls a0 a -> unchanged_calls a0 a'.
Proof.
  unfold quiet_user_block, user_block. intros Hq%negb_true_iff.
  destruct (get b "type") as [ty|] eqn:Hty; [| discriminate].
  apply get_some in Hty as [-> _]. cbn [mbind option_bind]. rewrite Hq.
  destruct (is_str (field b "type") "text"); intros [= <-]; [| tauto].
  now apply push_quiet.
Qed.

Lemma quiet_assistant_block_step (a0 a : acc) (b : value) (a' : acc) :
  quiet_assistant_block b = true ->
  assistant_block a b = Some a' -> unchanged_calls a0 a -> unchanged_calls a0 a'.
Proof.
  unfold quiet_assistant_block, assistant_block. intros Hq%negb_true_iff.
  destruct (get b "type") as [ty|] eqn:Hty; [| discriminate].
  apply get_some in Hty as [-> _]. cbn [mbind option_bind]. rewrite Hq.
  destruct (is_str (field b "type") "thinking"); [intros [= <-]; tauto |].
  destruct (is_str (field b "type") "text"); intros [= <-]; [| tauto].
  now apply push_quiet.
Qed.

Lemma quiet_turn_step (a0 a : acc) (m : value) (a' : acc) :
  quiet_turn m = true ->
  message_step a m = Some a' -> unchanged_calls a0 a -> unchanged_calls a0 a'.
Proof.
  unfold quiet_turn, message_step. intros Hq.
  destruct (get m "role") as [role|] eqn:Hr; [| discriminate].
  apply get_some in Hr as [-> _]. cbn [mbind option_bind].
  destruct (is_str (field m "role") "user").
  - apply (fold_opt_keeps_on user_block (unchanged_calls a0) quiet_user_block); [| exact Hq].
    intros a1 x a2. apply quiet_user_block_step.
  - destruct (is_str (field m "role") "assistant"); [| intros [= <-]; tauto].
    apply (fold_opt_keeps_on assistant_block (unchanged_calls a0) quiet_assistant_block);
      [| exact Hq].
    intros a1 x a2. apply quiet_assistant_block_step.
Qed.




(** Two calls answered out of order, and an answer to no call: each answer
    carries the id drawn for its own call, the orphan its own id *)
Lemma answers_find_their_calls :
  let tu id := VObj [("type", VStr "tool_use"); ("id", VStr id); ("name", VStr "run")] in
  let tr id := VObj [("type", VStr "tool_result"); ("tool_use_id", VStr id);
                     ("content", VStr "done")] in
  let g := {| entropy := fun n => if (n <? 12)%nat then Byte.x0a else Byte.x0b;
              cursor := 0 |} in
  (fun a => map (fun item => (field item "type", field item "call_id")) (input a))
    <$> convertMessagesToCodexInput
          (VArr [VObj [("role", VStr "assistant"); ("content", VArr [tu "A"; tu "B"])];
                 VObj [("role", VStr "user"); ("content", VArr [tr "B"; tr "A"; tr "C"])]])
          g
  = Some [(VStr "function_call", VStr "call_0a0a0a0a0a0a0a0a0a0a0a0a");
          (VStr "function_call", VStr "call_0b0b0b0b0b0b0b0b0b0b0b0b");
          (VStr "function_call_output", VStr "call_0b0b0b0b0b0b0b0b0b0b0b0b");
          (VStr "function_call_output", VStr "call_0a0a0a0a0a0a0a0a0a0a0a0a");
          (VStr "function_call_output", VStr "C")].
Proof. vm_compute. reflexivity. Qed.

End Translation.

(** ** The request-body adapter, stage by stage *)

Section AdapterStages.

Lemma blank_rev_app (s1 s2 : string) :
  blank (String.rev_app s1 s2) = blank s1 && blank s2.
Proof.
  revert s2. induction s1 as [|a s1 IH]; intros s2; [reflexivity |].
  cbn [String.rev_app]. rewrite IH. cbn [blank all_chars].
  fold (blank s1). fold (blank s2). destruct (is_ws a), (blank s1); reflexivity.
Qed.

Lemma blank_rev (s : string) : blank (String.rev s) = blank s.
Proof. unfold String.rev. rewrite blank_rev_app. cbn. apply andb_true_r. Qed.

Lemma trimStart_blank (s : string) : blank s = true -> trimStart s = "".
Proof.
  induction s as [|a s IH]; [reflexivity |]. cbn [blank all_chars trimStart].
  intros [Ha Hs]%andb_true_iff. rewrite Ha. now apply IH.
Qed.

Lemma trimStart_not_blank (s : string) : blank s = false -> blank (trimStart s) = false.
Proof.
  induction s as [|a s IH]; [discriminate |]. cbn [blank all_chars trimStart].
  destruct (is_ws a) eqn:Ha; cbn [andb].
  - exact IH.
  - intros _. cbn [blank all_chars]. now rewrite Ha.
Qed.

Lemma not_blank_not_empty (s : string) : blank s = false -> String.eqb s "" = false.
Proof. now destruct s. Qed.

Lemma trim_empty_iff_blank (s : string) : String.eqb (trim s) "" = blank s.
Proof.
  unfold trim, trimEnd. destruct (blank s) eqn:Hb.
  - now rewrite (trimStart_blank s Hb).
  - apply not_blank_not_empty. rewrite blank_rev. apply trimStart_not_blank.
    rewrite blank_rev. now apply trimStart_not_blank.
Qed.

Lemma isNonEmptyString_blank (s : string) : isNonEmptyString (VStr s) = negb (blank s).
Proof. cbn [isNonEmptyString]. now rewrite trim_empty_iff_blank. Qed.

Lemma blank_append (a b : string) : blank (a +:+ b) = blank a && blank b.
Proof.
  induction a as [|x a IH]; [reflexivity |].
  rewrite append_cons. cbn [blank all_chars]. fold (blank (a +:+ b)). fold (blank a).
  rewrite IH. now rewrite andb_assoc.
Qed.

Lemma prefix_append (p r : string) : String.prefix p (p +:+ r) = true.
Proof.
  induction p as [|x p IH]; [now destruct r |].
  rewrite append_cons. cbn [String.prefix]. destruct (ascii_dec x x); [exact IH | contradiction].
Qed.

Lemma prefix_split (p s : string) : String.prefix p s = true -> exists r, s = p +:+ r.
Proof.
  revert s. induction p as [|x p IH]; intros s H; [now exists s |].
  destruct s as [|y s]; [discriminate |]. cbn [String.prefix] in H.
  destruct (ascii_dec x y) as [-> | ?]; [| discriminate].
  destruct (IH s H) as [r ->]. exists r. now rewrite append_cons.
Qed.

Lemma has_field_filter (P : string -> bool) (k : string) (fs : list (string * value)) :
  has_field k (List.filter (fun p => P (fst p)) fs) = P k && has_field k fs.
Proof.
  induction fs as [|[k0 v0] fs IH]; cbn [List.filter has_field existsb fst].
  - now rewrite andb_false_r.
  - destruct (P k0) eqn:E0; cbn [existsb fst]; fold (has_field k (List.filter (fun p => P (fst p)) fs));
      fold (has_field k fs); rewrite IH.
    + destruct (String.eqb_spec k k0) as [-> | ?]; [now rewrite E0 | reflexivity].
    + destruct (String.eqb_spec k k0) as [-> | ?]; [now rewrite E0 | reflexivity].
Qed.

Lemma has_field_delete (k kf : string) (fs : list (string * value)) :
  has_field k (delete_field kf fs) = negb (String.eqb kf k) && has_field k fs.
Proof. unfold delete_field. apply (has_field_filter (fun x => negb (String.eqb kf x))). Qed.

Lemma lookup_field_absent (k : string) (fs : list (string * value)) :
  has_field k fs = false -> lookup_field k fs = VUndef.
Proof.
  induction fs as [|[k0 v0] fs IH]; [reflexivity |]. cbn [has_field existsb fst lookup_field].
  destruct (String.eqb k k0); [discriminate | exact IH].
Qed.

Lemma strip_loop_listed (h0 : heap) (pb : loc) (fs0 : list (string * value))
  (fs : list value) (st : heap * list value) (k : string) :
  pb < length h0 ->
  stripped_state h0 pb fs0 st ->
  listed (snd (fold_left (strip_step pb) fs st)) k
    = listed (snd st) k || (listed fs k && has_field k (own_fields (read (fst st) pb))).
Proof.
  intros Hlt. revert st. induction fs as [|f fs IH]; intros st Hst.
  - cbn. now rewrite orb_false_r.
  - cbn [fold_left]. rewrite (IH _ (strip_step_state h0 pb fs0 st f Hlt Hst)).
    unfold strip_step. cbn [listed existsb]. fold (listed fs k).
    destruct (has_field (to_string f) (own_fields (read (fst st) pb))) eqn:Hf; cbn [fst snd].
    + rewrite read_remove_field by (destruct Hst as [[-> _] _]; exact Hlt).
      cbn [own_fields]. rewrite has_field_delete.
      unfold listed. rewrite existsb_app. cbn [existsb]. rewrite orb_false_r.
      destruct (String.eqb_spec (to_string f) k) as [<- | ?]; cbn [negb andb orb].
      * rewrite Hf. now rewrite !orb_true_r.
      * now rewrite orb_false_r.
    + destruct (String.eqb_spec (to_string f) k) as [<- | ?]; cbn [orb]; [| reflexivity].
      rewrite Hf. now rewrite !andb_false_r.
Qed.

Lemma strip_loop_in (h0 : heap) (pb : loc) (fs0 : list (string * value))
  (fs : list value) (st : heap * list value) (f : value) :
  pb < length h0 ->
  stripped_state h0 pb fs0 st ->
  In f (snd (fold_left (strip_step pb) fs st)) ->
  In f (snd st) \/ (In f fs /\ has_field (to_string f) fs0 = true).
Proof.
  intros Hlt. revert st. induction fs as [|x fs IH]; intros st Hst Hin.
  - now left.
  - cbn [fold_left] in Hin.
    destruct (IH _ (strip_step_state h0 pb fs0 st x Hlt Hst) Hin) as [H | [H1 H2]].
    + unfold strip_step in H.
      destruct (has_field (to_string x) (own_fields (read (fst st) pb))) eqn:Hx;
        cbn [snd] in H; [| now left].
      apply in_app_or in H as [H | [<- | []]]; [now left |].
      right. split; [now left |].
      destruct Hst as [_ Hrd]. rewrite Hrd in Hx. cbn [own_fields] in Hx.
      rewrite (has_field_filter (kept (snd st))) in Hx.
      now apply andb_true_iff in Hx.
    + right. split; [now right | exact H2].
Qed.

Lemma filter_kept_nil (fs : list (string * value)) :
  List.filter (fun p => kept [] (fst p)) fs = fs.
Proof. induction fs as [|p fs IH]; simpl; [reflexivity | f_equal; exact IH]. Qed.

Implicit Types (h : heap) (l body processedBody : loc) (s : settings).

Lemma resolved_mode (cfg dflt : value) :
  let m := mode (instructions (resolveAdapterConfig cfg dflt)) in
  m = "prepend" \/ m = "overwrite" \/ m = "none".
Proof.
  cbn [resolveAdapterConfig instructions mode]. unfold normalizeInstructionsMode.
  set (m := match _ with VStr s => toLowerCase s | _ => "" end).
  destruct (String.eqb_spec m "prepend") as [-> | _]; [now left |].
  destruct (String.eqb_spec m "overwrite") as [-> | _]; [right; now left |].
  destruct (String.eqb_spec m "none") as [-> | _]; cbn; auto.
Qed.

Lemma non_empty_string_is_string (v : value) :
  isNonEmptyString v = true -> exists t, v = VStr t /\ blank t = false.
Proof.
  destruct v; try discriminate. intros H. eexists. split; [reflexivity |].
  rewrite isNonEmptyString_blank in H. now apply negb_true_iff in H.
Qed.

(** What the stage leaves in every field but [instructions] *)
Lemma instructions_stage_other h body processedBody cli s (k : string) cur :
  processedBody < length h ->
  read h processedBody = VObj cur ->
  k <> "instructions" ->
  field (read (fst (instructions_stage h body processedBody cli s)) processedBody) k
    = lookup_field k cur.
Proof.
  intros Hlt Hrd Hk. unfold instructions_stage.
  split_ifs; cbn [fst]; rewrite ?read_write_field by exact Hlt; rewrite Hrd; cbn [field own_fields];
    rewrite ?lookup_field_set_ne by exact Hk; reflexivity.
Qed.

(** X1: a request from the Codex CLI is left alone under the default scope.
    When the resolved [applyWhen] is [non_codex] and the client is the CLI,
    the adapter reports [applied: false], strips nothing and annotates
    nothing; when it did copy the body, the copy has the fields of the
    input, in their order. *)
Theorem cli_request_is_left_alone h body (cfg dflt : value) :
  applyWhen (instructions (resolveAdapterConfig cfg dflt)) = "non_codex" ->
  let (h', r) := adaptCodexRequestBody h body true cfg dflt in
  applied r = false
  /\ r_changes r = no_changes
  /\ (truthy (read h body) = true -> typeof (read h body) = "object" ->
      spread (read h' (Adapter.body r)) = spread (read h body)).
Proof.
  intros Hw. unfold adaptCodexRequestBody.
  destruct (truthy (read h body) && String.eqb (typeof (read h body)) "object"
            && enabled (resolveAdapterConfig cfg dflt)) eqn:Hgo.
  - apply andb_true_iff in Hgo as [[Ht Ho]%andb_true_iff He].
    apply String.eqb_eq in Ho.
    rewrite adapt_with_copy by assumption. cbn zeta.
    unfold strip_stage, instructions_stage. rewrite Hw. cbn.
    split; [reflexivity |]. split; [reflexivity |]. intros _ _.
    unfold read at 1. now rewrite lookup_last.
  - rewrite adapt_with_passthrough by assumption. cbn. auto.
Qed.

Lemma cli_request_is_left_alone_witness :
  let (h', r) :=
    adaptCodexRequestBody [VObj [("temperature", VNum 1); ("instructions", VStr "mine")]] 0 true
      (VObj [("instructions", VObj [("text", VStr "SERVER")])]) VUndef in
  applied r = false
  /\ r_changes r = no_changes
  /\ (truthy (VObj [("temperature", VNum 1); ("instructions", VStr "mine")]) = true ->
      typeof (VObj [("temperature", VNum 1); ("instructions", VStr "mine")]) = "object" ->
      spread (read h' (Adapter.body r))
        = spread (VObj [("temperature", VNum 1); ("instructions", VStr "mine")])).
Proof.
  apply (cli_request_is_left_alone
           [VObj [("temperature", VNum 1); ("instructions", VStr "mine")]] 0
           (VObj [("instructions", VObj [("text", VStr "SERVER")])]) VUndef).
  reflexivity.
Defined.

(** What the stripping stage took from the copy *)
Lemma strip_stage_listed h body cli s :
  let stripping := negb cli && strip_enabled (stripFields s) in
  let st := strip_stage (h ++ [VObj (spread (read h body))]) (length h) cli s in
  (forall k, listed (snd st) k
             = stripping && listed (fields (stripFields s)) k
               && has_field k (spread (read h body)))
  /\ (forall f, In f (snd st) -> stripping = true /\ In f (fields (stripFields s))).
Proof.
  intros stripping st.
  set (h1 := (h ++ [VObj (spread (read h body))])%list) in *.
  assert (length h < length h1) as Hlt by (unfold h1; rewrite length_app; simpl; lia).
  assert (stripped_state h1 (length h) (spread (read h body)) (h1, [])) as H0.
  { split; [apply frame_of_refl |]. cbn [fst snd]. unfold read at 1, h1.
    rewrite lookup_last. simpl. f_equal. symmetry. apply filter_kept_nil. }
  assert (st = if stripping
               then fold_left (strip_step (length h)) (fields (stripFields s)) (h1, [])
               else (h1, [])) as Est by reflexivity.
  rewrite Est. destruct stripping; [| now split].
  split.
  - intros k.
    rewrite (strip_loop_listed h1 (length h) (spread (read h body)) _ _ k Hlt H0).
    cbn [fst snd listed existsb orb andb]. unfold read at 1, h1.
    now rewrite lookup_last.
  - intros f Hin.
    destruct (strip_loop_in h1 (length h) (spread (read h body)) _ _ f Hlt H0 Hin)
      as [[] | [H _]]. now split.
Qed.

(** What the copy holds outside [instructions] once both stages are done *)
Lemma copy_other_fields h body cli s (k : string) :
  truthy (read h body) = true ->
  k <> "instructions" ->
  let st := strip_stage (h ++ [VObj (spread (read h body))]) (length h) cli s in
  field (read (fst (instructions_stage (fst st) body (length h) cli s)) (length h)) k
    = if listed (snd st) k then VUndef else lookup_field k (spread (read h body)).
Proof.
  intros Ht Hk st.
  destruct (before_instructions h body cli s Ht) as (Hlen & _ & _ & Hrd). fold st in Hlen, Hrd.
  rewrite (instructions_stage_other (fst st) body (length h) cli s k _ ltac:(lia) Hrd Hk).
  rewrite (lookup_field_filter (kept (snd st))).
  unfold kept. fold (listed (snd st) k). now destruct (listed (snd st) k).
Qed.

(** X2: what field stripping does. For an object body and an enabled
    adapter, stripping is in force exactly for a non-CLI client with
    [stripFields.enabled]; the fields reported as stripped are then exactly
    the configured ones the body had, each of them a configured field; and
    outside [instructions] the result has no configured field and every
    other field of the input with its value. *)
Theorem stripping_removes_the_listed_fields h body cli (cfg dflt : value) :
  let s := resolveAdapterConfig cfg dflt in
  let stripping := negb cli && strip_enabled (stripFields s) in
  truthy (read h body) = true ->
  typeof (read h body) = "object" ->
  enabled s = true ->
  let (h', r) := adaptCodexRequestBody h body cli cfg dflt in
  (forall k, listed (strippedFields (r_changes r)) k
             = stripping && listed (fields (stripFields s)) k
               && has_field k (spread (read h body)))
  /\ (forall f, In f (strippedFields (r_changes r)) ->
        stripping = true /\ In f (fields (stripFields s)))
  /\ (forall k, k <> "instructions" ->
        field (read h' (Adapter.body r)) k
          = if stripping && listed (fields (stripFields s)) k then VUndef
            else lookup_field k (spread (read h body))).
Proof.
  intros s stripping Ht Ho He.
  unfold adaptCodexRequestBody. rewrite adapt_with_copy by assumption. cbn zeta. fold s.
  destruct (strip_stage_listed h body cli s) as [Hl Hin]. fold stripping in Hl, Hin.
  cbn [Adapter.body r_changes strippedFields].
  split; [exact Hl |]. split; [exact Hin |].
  intros k Hk. rewrite (copy_other_fields h body cli s k Ht Hk), Hl.
  destruct (stripping && listed (fields (stripFields s)) k); cbn [andb]; [| reflexivity].
  destruct (has_field k (spread (read h body))) eqn:Hf; [reflexivity |].
  now apply lookup_field_absent.
Qed.

Lemma stripping_removes_the_listed_fields_witness :
  let (h', r) :=
    adaptCodexRequestBody [VObj [("model", VStr "gpt-5"); ("temperature", VNum 1)]] 0 false
      VUndef VUndef in
  (forall k, listed (strippedFields (r_changes r)) k
             = listed DEFAULT_NON_CODEX_FIELDS_TO_REMOVE k
               && has_field k [("model", VStr "gpt-5"); ("temperature", VNum 1)])
  /\ (forall f, In f (strippedFields (r_changes r)) ->
        true = true /\ In f DEFAULT_NON_CODEX_FIELDS_TO_REMOVE)
  /\ (forall k, k <> "instructions" ->
        field (read h' (Adapter.body r)) k
          = if listed DEFAULT_NON_CODEX_FIELDS_TO_REMOVE k then VUndef
            else lookup_field k [("model", VStr "gpt-5"); ("temperature", VNum 1)]).
Proof.
  apply (stripping_removes_the_listed_fields
           [VObj [("model", VStr "gpt-5"); ("temperature", VNum 1)]] 0 false VUndef VUndef);
    reflexivity.
Defined.

Lemma prefix_refl (p : string) : String.prefix p p = true.
Proof. induction p as [|a p IH]; [reflexivity |]. cbn. destruct (ascii_dec a a); [exact IH | contradiction]. Qed.

Lemma prefix_not_blank (p s : string) :
  String.prefix p s = true -> blank p = false -> blank s = false.
Proof.
  intros H Hp. apply prefix_split in H as [r ->]. rewrite blank_append, Hp. reflexivity.
Qed.

Lemma trimStart_blank_false (s : string) : blank (trimStart s) = false -> blank s = false.
Proof.
  intros H. destruct (blank s) eqn:E; [| reflexivity].
  rewrite (trimStart_blank s E) in H. discriminate.
Qed.

(** The server text is found at the head of the client's only when the
    client's is not blank *)
Lemma already_present_not_blank (S c : string) :
  blank S = false ->
  startsWith c S || startsWith (trimStart c) S = true ->
  blank c = false.
Proof.
  intros HS [H | H]%orb_true_iff; unfold startsWith in H.
  - eapply prefix_not_blank; eassumption.
  - apply trimStart_blank_false. eapply prefix_not_blank; eassumption.
Qed.

Lemma client_text_is_field h body :
  blank (clientInstructionsOf h body) = false ->
  field (read h body) "instructions" = VStr (clientInstructionsOf h body).
Proof.
  unfold clientInstructionsOf. destruct (field (read h body) "instructions"); try discriminate.
  reflexivity.
Qed.

(** The stage in [prepend] mode *)
Lemma instructions_stage_prepend h body processedBody cli s (S : string) :
  processedBody < length h ->
  mode (instructions s) = "prepend" ->
  String.eqb (applyWhen (instructions s)) "all" || negb cli = true ->
  text (instructions s) = VStr S ->
  blank S = false ->
  let c := clientInstructionsOf h body in
  let out := instructions_stage h body processedBody cli s in
  exists R,
    field (read (fst out) processedBody) "instructions" = VStr R
    /\ startsWith R S || startsWith (trimStart R) S = true
    /\ (blank c = false -> exists pre, R = pre +:+ c)
    /\ (blank c = true -> R = S)
    /\ exists a, snd out = Some a /\ a_mode a = "prepend"
         /\ alreadyPresent a
            = Some (negb (blank c) && (startsWith c S || startsWith (trimStart c) S)).
Proof.
  intros Hlt Hm Hs Ht HS c out. subst out. unfold instructions_stage.
  rewrite Hm, Hs, Ht. rewrite !isNonEmptyString_blank, HS. fold c.
  change ("prepend" =? "overwrite")%string with false.
  change ("prepend" =? "prepend")%string with true.
  rewrite ?to_string_str. cbn [negb andb]. cbv iota.
  destruct (blank c) eqn:Hc; cbn [negb andb].
  - exists S. cbn [fst snd]. rewrite read_write_field by exact Hlt. cbn [field].
    rewrite lookup_field_set_eq. unfold startsWith at 1. rewrite prefix_refl.
    repeat split; try discriminate.
    eexists; repeat split.
  - destruct (startsWith c S || startsWith (trimStart c) S) eqn:Ha.
    + exists c. cbn [fst snd]. rewrite read_write_field by exact Hlt. cbn [field].
      rewrite lookup_field_set_eq.
      split; [now apply client_text_is_field |]. split; [exact Ha |].
      split; [intros _; now exists "" |]. split; [discriminate |].
      eexists; repeat split.
    + exists (S +:+ nl +:+ nl +:+ c). cbn [fst snd]. rewrite read_write_field by exact Hlt. cbn [field].
      rewrite lookup_field_set_eq. split; [reflexivity |].
      split; [unfold startsWith at 1; now rewrite prefix_append |].
      split; [intros _; exists (S +:+ nl +:+ nl); now rewrite !append_assoc |].
      split; [discriminate |].
      eexists; repeat split.
Qed.

Lemma field_string_object (v : value) (k R : string) :
  field v k = VStr R -> truthy v = true /\ typeof v = "object".
Proof.
  destruct v; cbn; try discriminate; try (destruct (String.eqb k "length"); discriminate).
  now split.
Qed.

(** The adapter on a body it copies, seen from the instructions stage *)
Lemma adapt_with_view
  (stage : heap -> loc -> loc -> bool -> settings -> heap * option annotation)
  h body cli (cfg dflt : value) :
  truthy (read h body) = true ->
  typeof (read h body) = "object" ->
  enabled (resolveAdapterConfig cfg dflt) = true ->
  let s := resolveAdapterConfig cfg dflt in
  exists h2 stripped,
    length h < length h2
    /\ read h2 body = read h body
    /\ adapt_with stage h body cli cfg dflt
       = (fst (stage h2 body (length h) cli s),
          {| body := length h;
             applied := (0 <? length stripped)%nat
                        || bool_decide (snd (stage h2 body (length h) cli s) <> None);
             r_changes := {| strippedFields := stripped;
                             c_instructions := snd (stage h2 body (length h) cli s) |} |}).
Proof.
  intros Ht Ho He s.
  destruct (before_instructions h body cli s Ht) as (Hlen & _ & Hb & _).
  eexists _, _. split; [| split; [exact Hb |]].
  - rewrite Hlen. lia.
  - now apply adapt_with_copy.
Qed.

(** X3: [overwrite] wins over the client and over stripping. For an object
    body and an enabled adapter in [overwrite] mode, in scope and with a
    non-blank server text, the result's [instructions] is the server text,
    whatever the client sent and whatever the strip list names; the change
    is annotated [{mode: 'overwrite'}] and [applied] is true. *)
Theorem overwrite_replaces_the_instructions h body cli (cfg dflt : value) :
  let s := resolveAdapterConfig cfg dflt in
  truthy (read h body) = true ->
  typeof (read h body) = "object" ->
  enabled s = true ->
  mode (instructions s) = "overwrite" ->
  String.eqb (applyWhen (instructions s)) "all" || negb cli = true ->
  isNonEmptyString (text (instructions s)) = true ->
  let (h', r) := adaptCodexRequestBody h body cli cfg dflt in
  field (read h' (Adapter.body r)) "instructions" = text (instructions s)
  /\ c_instructions (r_changes r)
     = Some {| a_mode := "overwrite"; alreadyPresent := None;
               clientMissing := None; fallback := None |}
  /\ applied r = true.
Proof.
  intros s Ht Ho He Hm Hs Hx. unfold adaptCodexRequestBody.
  destruct (adapt_with_view instructions_stage h body cli cfg dflt Ht Ho He)
    as (h2 & stripped & Hlt & _ & ->).
  fold s. unfold instructions_stage. rewrite Hm, Hs, Hx.
  cbn [andb fst snd Adapter.body r_changes c_instructions applied].
  change ("overwrite" =? "overwrite")%string with true. cbv iota. cbn [fst snd].
  rewrite read_write_field by exact Hlt. cbn [field]. rewrite lookup_field_set_eq.
  split; [reflexivity |]. split; [reflexivity |]. apply orb_true_r.
Qed.

Lemma overwrite_replaces_the_instructions_witness :
  let (h', r) :=
    adaptCodexRequestBody [VObj [("instructions", VStr "mine")]] 0 false
      (VObj [("stripFields", VObj [("fields", VArr [VStr "instructions"])])])
      (VStr "SERVER") in
  field (read h' (Adapter.body r)) "instructions" = VStr "SERVER"
  /\ c_instructions (r_changes r)
     = Some {| a_mode := "overwrite"; alreadyPresent := None;
               clientMissing := None; fallback := None |}
  /\ applied r = true.
Proof.
  apply (overwrite_replaces_the_instructions
           [VObj [("instructions", VStr "mine")]] 0 false
           (VObj [("stripFields", VObj [("fields", VArr [VStr "instructions"])])])
           (VStr "SERVER")); reflexivity.
Defined.

(** X4: [prepend] puts the server text first. For an object body and an
    enabled adapter in [prepend] mode, in scope and with a non-blank server
    text, the result's [instructions] is a string that starts with the
    server text, possibly after leading white space; it ends with the
    client's text when the client sent a non-blank one, and is the server
    text alone otherwise; [applied] is true. *)
Theorem prepend_leads_with_the_server_text h body cli (cfg dflt : value) :
  let s := resolveAdapterConfig cfg dflt in
  truthy (read h body) = true ->
  typeof (read h body) = "object" ->
  enabled s = true ->
  mode (instructions s) = "prepend" ->
  String.eqb (applyWhen (instructions s)) "all" || negb cli = true ->
  isNonEmptyString (text (instructions s)) = true ->
  let (h', r) := adaptCodexRequestBody h body cli cfg dflt in
  exists R,
    field (read h' (Adapter.body r)) "instructions" = VStr R
    /\ startsWith R (to_string (text (instructions s)))
       || startsWith (trimStart R) (to_string (text (instructions s))) = true
    /\ (if isNonEmptyString (field (read h body) "instructions")
        then exists pre, R = pre +:+ to_string (field (read h body) "instructions")
        else VStr R = text (instructions s))
    /\ applied r = true.
Proof.
  intros s Ht Ho He Hm Hs Hx. unfold adaptCodexRequestBody.
  destruct (adapt_with_view instructions_stage h body cli cfg dflt Ht Ho He)
    as (h2 & stripped & Hlt & Hb & ->).
  fold s. destruct (non_empty_string_is_string _ Hx) as (S & HS & HSb).
  destruct (instructions_stage_prepend h2 body (length h) cli s S Hlt Hm Hs HS HSb)
    as (R & HR & Hlead & Hc & Hm' & a & Ha & _).
  cbn [Adapter.body r_changes c_instructions applied].
  exists R. split; [exact HR |]. rewrite HS. rewrite ?to_string_str.
  split; [exact Hlead |]. split.
  - rewrite <- Hb, <- hasClientInstructions_eq, isNonEmptyString_blank.
    destruct (blank (clientInstructionsOf h2 body)) eqn:E; cbn [negb].
    + now rewrite Hm'.
    + destruct (Hc eq_refl) as [pre ->]. exists pre.
      now rewrite (client_text_is_field h2 body E).
  - rewrite Ha. apply orb_true_r.
Qed.

Lemma prepend_leads_with_the_server_text_witness :
  let (h', r) :=
    adaptCodexRequestBody [VObj [("instructions", VStr "mine")]] 0 false
      (VObj [("instructions", VObj [("mode", VStr "PREPEND")])]) (VStr "SERVER") in
  exists R,
    field (read h' (Adapter.body r)) "instructions" = VStr R
    /\ startsWith R "SERVER" || startsWith (trimStart R) "SERVER" = true
    /\ (exists pre, R = pre +:+ "mine")
    /\ applied r = true.
Proof.
  apply (prepend_leads_with_the_server_text
           [VObj [("instructions", VStr "mine")]] 0 false
           (VObj [("instructions", VObj [("mode", VStr "PREPEND")])]) (VStr "SERVER"));
    reflexivity.
Defined.

(** X5: [prepend] is idempotent. Running the adapter again on its own
    result, with the same configuration, leaves [instructions] as the first
    run set it, and the second run annotates [{mode: 'prepend',
    alreadyPresent: true}]. *)
Theorem prepend_twice_is_prepend_once h body cli (cfg dflt : value) :
  let s := resolveAdapterConfig cfg dflt in
  truthy (read h body) = true ->
  typeof (read h body) = "object" ->
  enabled s = true ->
  mode (instructions s) = "prepend" ->
  String.eqb (applyWhen (instructions s)) "all" || negb cli = true ->
  isNonEmptyString (text (instructions s)) = true ->
  let (h1, r1) := adaptCodexRequestBody h body cli cfg dflt in
  let (h2, r2) := adaptCodexRequestBody h1 (Adapter.body r1) cli cfg dflt in
  field (read h2 (Adapter.body r2)) "instructions"
    = field (read h1 (Adapter.body r1)) "instructions"
  /\ c_instructions (r_changes r2)
     = Some {| a_mode := "prepend"; alreadyPresent := Some true;
               clientMissing := None; fallback := None |}.
Proof.
  intros s Ht Ho He Hm Hs Hx. unfold adaptCodexRequestBody.
  destruct (adapt_with_view instructions_stage h body cli cfg dflt Ht Ho He)
    as (ha & stripped & Hlt & _ & ->).
  fold s. destruct (non_empty_string_is_string _ Hx) as (S & HS & HSb).
  destruct (instructions_stage_prepend ha body (length h) cli s S Hlt Hm Hs HS HSb)
    as (R & HR & Hlead & _).
  set (h1 := fst (instructions_stage ha body (length h) cli s)) in *.
  cbn [Adapter.body].
  destruct (field_string_object _ _ _ HR) as [Ht1 Ho1].
  destruct (adapt_with_view instructions_stage h1 (length h) cli cfg dflt Ht1 Ho1 He)
    as (hb & stripped' & Hlt' & Hb' & ->).
  fold s. cbn [Adapter.body r_changes c_instructions].
  assert (clientInstructionsOf hb (length h) = R) as Hc.
  { unfold clientInstructionsOf. now rewrite Hb', HR. }
  pose proof (already_present_not_blank S R HSb Hlead) as HRb.
  unfold instructions_stage. rewrite Hm, Hs, Hx, Hc, HS, isNonEmptyString_blank, HRb.
  change ("prepend" =? "overwrite")%string with false.
  change ("prepend" =? "prepend")%string with true.
  rewrite ?to_string_str. cbn [negb andb]. cbv iota. rewrite Hlead. cbn [fst snd].
  rewrite read_write_field by exact Hlt'. cbn [field]. rewrite lookup_field_set_eq.
  rewrite Hb'. now split.
Qed.

Lemma prepend_twice_is_prepend_once_witness :
  let (h1, r1) :=
    adaptCodexRequestBody [VObj [("instructions", VStr "mine")]] 0 false
      (VObj [("instructions", VObj [("mode", VStr "prepend")])]) (VStr "SERVER") in
  let (h2, r2) :=
    adaptCodexRequestBody h1 (Adapter.body r1) false
      (VObj [("instructions", VObj [("mode", VStr "prepend")])]) (VStr "SERVER") in
  field (read h2 (Adapter.body r2)) "instructions"
    = field (read h1 (Adapter.body r1)) "instructions"
  /\ c_instructions (r_changes r2)
     = Some {| a_mode := "prepend"; alreadyPresent := Some true;
               clientMissing := None; fallback := None |}.
Proof.
  apply (prepend_twice_is_prepend_once
           [VObj [("instructions", VStr "mine")]] 0 false
           (VObj [("instructions", VObj [("mode", VStr "prepend")])]) (VStr "SERVER"));
    reflexivity.
Defined.

Lemma not_blank_truthy (c : string) : blank c = false -> truthy (VStr c) = true.
Proof. intros H. cbn. now rewrite (not_blank_not_empty c H). Qed.

Lemma instructions_stage_vendored_agrees h body processedBody cli s :
  backfill_case h body cli s = false ->
  instructions_stage_vendored h body processedBody cli s
    = instructions_stage h body processedBody cli s.
Proof.
  unfold backfill_case, instructions_stage_vendored, instructions_stage.
  rewrite <- hasClientInstructions_eq.
  set (c := clientInstructionsOf h body).
  destruct (String.eqb (applyWhen (instructions s)) "all" || negb cli);
    [| now rewrite !andb_false_r].
  destruct (isNonEmptyString (text (instructions s))) eqn:Hx;
    [| now rewrite !andb_false_r].
  destruct (non_empty_string_is_string _ Hx) as (S & HS & HSb).
  destruct (String.eqb_spec (mode (instructions s)) "none") as [-> | Hn];
    cbn [negb andb].
  - intros ->. reflexivity.
  - intros _.
    destruct (String.eqb (mode (instructions s)) "overwrite"); [reflexivity |].
    destruct (String.eqb (mode (instructions s)) "prepend"); [| reflexivity].
    rewrite HS. rewrite ?to_string_str. rewrite isNonEmptyString_blank.
    destruct (startsWith c S || startsWith (trimStart c) S) eqn:Ha.
    + rewrite (already_present_not_blank S c HSb Ha).
      rewrite (not_blank_truthy c (already_present_not_blank S c HSb Ha)). reflexivity.
    + rewrite !andb_false_r.
      change (truthy (VStr (trim c))) with (negb (String.eqb (trim c) "")).
      rewrite trim_empty_iff_blank.
      destruct (blank c) eqn:Hc; cbn [negb]; [now rewrite andb_false_r |].
      now rewrite (not_blank_truthy c Hc).
Qed.

(** X6: the two copies of the adapter return the same heap and the same
    result on every call but one kind: an object body, an enabled adapter,
    mode [none], the scope applying, a non-blank server text and no
    non-blank client [instructions]. There the repository copy backfills and
    the vendored copy does not. *)
Theorem vendored_copy_differs_only_in_backfill h body cli (cfg dflt : value) :
  let s := resolveAdapterConfig cfg dflt in
  adaptCodexRequestBody_vendored h body cli cfg dflt
    = adaptCodexRequestBody h body cli cfg dflt
  <-> adapter_runs h body s && backfill_case h body cli s = false.
Proof.
  intros s. unfold adaptCodexRequestBody_vendored, adaptCodexRequestBody, adapter_runs.
  destruct (truthy (read h body) && String.eqb (typeof (read h body)) "object"
            && enabled s) eqn:Hgo.
  - apply andb_true_iff in Hgo as [[Ht Ho]%andb_true_iff He].
    apply String.eqb_eq in Ho.
    destruct (adapt_with_view instructions_stage h body cli cfg dflt Ht Ho He)
      as (h2 & stripped & Hlt & Hb & E1).
    rewrite !adapt_with_copy by assumption. cbn zeta. fold s.
    destruct (before_instructions h body cli s Ht) as (_ & _ & Hb' & _).
    set (st := strip_stage _ _ cli s) in *.
    assert (backfill_case (fst st) body cli s = backfill_case h body cli s) as Hbc.
    { unfold backfill_case. now rewrite Hb'. }
    cbn [andb]. rewrite <- Hbc. split.
    + intros Heq. destruct (backfill_case (fst st) body cli s) eqn:Hcase; [| reflexivity].
      exfalso. apply (f_equal (fun p => c_instructions (r_changes (snd p)))) in Heq.
      cbn [snd r_changes c_instructions] in Heq.
      unfold backfill_case in Hcase.
      apply andb_true_iff in Hcase as [[[Hm Hs]%andb_true_iff Hx]%andb_true_iff Hc].
      apply String.eqb_eq in Hm. apply negb_true_iff in Hc.
      rewrite (instructions_stage_vendored_none _ _ _ _ _ Hm) in Heq.
      rewrite (instructions_stage_none _ _ _ _ _ Hm Hs Hx), Hc in Heq.
      discriminate Heq.
    + intros Hcase. now rewrite (instructions_stage_vendored_agrees _ _ _ _ _ Hcase).
  - rewrite !adapt_with_passthrough by assumption. cbn [andb]. now split.
Qed.

Lemma prepend_stage_not_blank h body cli (cfg dflt : value) :
  let s := resolveAdapterConfig cfg dflt in
  truthy (read h body) = true ->
  typeof (read h body) = "object" ->
  enabled s = true ->
  mode (instructions s) = "prepend" ->
  String.eqb (applyWhen (instructions s)) "all" || negb cli = true ->
  isNonEmptyString (text (instructions s)) = true ->
  let (h', r) := adaptCodexRequestBody h body cli cfg dflt in
  isNonEmptyString (field (read h' (Adapter.body r)) "instructions") = true.
Proof.
  intros s Ht Ho He Hm Hs Hx. unfold adaptCodexRequestBody.
  destruct (adapt_with_view instructions_stage h body cli cfg dflt Ht Ho He)
    as (h2 & stripped & Hlt & _ & ->).
  fold s. destruct (non_empty_string_is_string _ Hx) as (S & HS & HSb).
  destruct (instructions_stage_prepend h2 body (length h) cli s S Hlt Hm Hs HS HSb)
    as (R & HR & Hlead & _).
  cbn [Adapter.body]. rewrite HR, isNonEmptyString_blank.
  now rewrite (already_present_not_blank S R HSb Hlead).
Qed.

Lemma overwrite_stage_not_blank h body cli (cfg dflt : value) :
  let s := resolveAdapterConfig cfg dflt in
  truthy (read h body) = true ->
  typeof (read h body) = "object" ->
  enabled s = true ->
  mode (instructions s) = "overwrite" ->
  String.eqb (applyWhen (instructions s)) "all" || negb cli = true ->
  isNonEmptyString (text (instructions s)) = true ->
  let (h', r) := adaptCodexRequestBody h body cli cfg dflt in
  isNonEmptyString (field (read h' (Adapter.body r)) "instructions") = true.
Proof.
  intros s Ht Ho He Hm Hs Hx. unfold adaptCodexRequestBody.
  destruct (adapt_with_view instructions_stage h body cli cfg dflt Ht Ho He)
    as (h2 & stripped & Hlt & _ & ->).
  fold s. unfold instructions_stage. rewrite Hm, Hs, Hx.
  change ("overwrite" =? "overwrite")%string with true. cbn [andb]. cbv iota.
  cbn [fst snd Adapter.body].
  rewrite read_write_field by exact Hlt. cbn [field]. now rewrite lookup_field_set_eq.
Qed.

(** X7: the adapter never lets blank instructions through where it has a
    text to give. For an object body and an enabled adapter, in scope and
    with a non-blank server text, the result's [instructions] is a non-blank
    string, unless the stage wrote nothing (mode [none] over a client text)
    and the strip list itself removed [instructions]. *)
Theorem outbound_instructions_are_not_blank h body cli (cfg dflt : value) :
  let s := resolveAdapterConfig cfg dflt in
  truthy (read h body) = true ->
  typeof (read h body) = "object" ->
  enabled s = true ->
  String.eqb (applyWhen (instructions s)) "all" || negb cli = true ->
  isNonEmptyString (text (instructions s)) = true ->
  let (h', r) := adaptCodexRequestBody h body cli cfg dflt in
  isNonEmptyString (field (read h' (Adapter.body r)) "instructions") = true
  \/ (c_instructions (r_changes r) = None
      /\ listed (strippedFields (r_changes r)) "instructions" = true).
Proof.
  intros s Ht Ho He Hs Hx.
  destruct (resolved_mode cfg dflt) as [Hm | [Hm | Hm]]; cbv zeta in Hm; fold s in Hm.
  - pose proof (prepend_stage_not_blank h body cli cfg dflt Ht Ho He Hm Hs Hx) as H.
    destruct (adaptCodexRequestBody h body cli cfg dflt) as [h' r]. now left.
  - pose proof (overwrite_stage_not_blank h body cli cfg dflt Ht Ho He Hm Hs Hx) as H.
    destruct (adaptCodexRequestBody h body cli cfg dflt) as [h' r]. now left.
  - unfold adaptCodexRequestBody. rewrite adapt_with_copy by assumption. cbn zeta. fold s.
    destruct (before_instructions h body cli s Ht) as (Hlen & _ & Hb & _).
    pose proof (copy_instructions h body cli s Ht Ho) as Hcopy. cbv zeta in Hcopy.
    set (st := strip_stage _ _ cli s) in *.
    rewrite (instructions_stage_none (fst st) body (length h) cli s Hm Hs Hx), Hb.
    destruct (isNonEmptyString (field (read h body) "instructions")) eqn:Hc;
      cbn [fst snd Adapter.body r_changes strippedFields c_instructions].
    + rewrite Hcopy. unfold after_stripping. fold (listed (snd st) "instructions").
      destruct (listed (snd st) "instructions"); [right; now split | now left].
    + left. rewrite read_write_field by lia. cbn [field].
      now rewrite lookup_field_set_eq.
Qed.

Lemma outbound_instructions_are_not_blank_witness :
  let (h', r) :=
    adaptCodexRequestBody [VObj [("instructions", VStr "mine")]] 0 false
      (VObj [("instructions", VObj [("mode", VStr "none"); ("text", VStr "SERVER")]);
             ("stripFields", VObj [("fields", VArr [VStr "instructions"])])])
      VUndef in
  isNonEmptyString (field (read h' (Adapter.body r)) "instructions") = true
  \/ (c_instructions (r_changes r) = None
      /\ listed (strippedFields (r_changes r)) "instructions" = true).
Proof.
  apply (outbound_instructions_are_not_blank
           [VObj [("instructions", VStr "mine")]] 0 false
           (VObj [("instructions", VObj [("mode", VStr "none"); ("text", VStr "SERVER")]);
                  ("stripFields", VObj [("fields", VArr [VStr "instructions"])])])
           VUndef); reflexivity.
Defined.

Lemma object_or_empty_field (x : value) (k : string) :
  field (object_or_empty x) k
    = if truthy x && String.eqb (typeof x) "object" then field x k else VUndef.
Proof. unfold object_or_empty. now destruct (truthy x && String.eqb (typeof x) "object"). Qed.

(** X8: whatever the raw configuration is, the resolved mode is one of
    [prepend], [overwrite] and [none], the resolved scope is [all] or
    [non_codex], the strip list is not empty, the text is the default or a
    non-blank string of the configuration, and the adapter is disabled only
    by an object whose [enabled] is [false] itself. *)
Theorem resolved_settings_are_normal (cfg dflt : value) :
  let s := resolveAdapterConfig cfg dflt in
  In (mode (instructions s)) ["prepend"; "overwrite"; "none"]
  /\ In (applyWhen (instructions s)) ["all"; "non_codex"]
  /\ fields (stripFields s) <> []
  /\ (text (instructions s) = dflt \/ isNonEmptyString (text (instructions s)) = true)
  /\ (enabled s = false
      <-> truthy cfg && String.eqb (typeof cfg) "object" = true
          /\ field cfg "enabled" = VBool false).
Proof.
  intros s. split; [| split; [| split; [| split]]].
  - destruct (resolved_mode cfg dflt) as [H | [H | H]]; cbv zeta in H; fold s in H;
      rewrite H; cbn; auto.
  - cbn [s resolveAdapterConfig instructions applyWhen]. unfold normalizeApplyWhen.
    destruct (String.eqb _ "all"); cbn; auto.
  - cbn [s resolveAdapterConfig stripFields fields].
    destruct (field _ "fields") as [| | | | | |[|f fs]|]; discriminate.
  - cbn [s resolveAdapterConfig instructions text].
    destruct (isNonEmptyString (field _ "text")) eqn:E; auto.
  - cbn [s resolveAdapterConfig enabled]. rewrite object_or_empty_field.
    destruct (truthy cfg && String.eqb (typeof cfg) "object").
    + destruct (field cfg "enabled") as [| |[|]| | | | |]; cbn; intuition congruence.
    + cbn. intuition congruence.
Qed.

End AdapterStages.

(** ** Request translation: what the outbound body holds *)

Section TranslationMore.

Lemma parsed_effort (m : value) :
  reasoningEffort (parseModelWithReasoning m) = VNull
  \/ exists e, reasoningEffort (parseModelWithReasoning m) = VStr e
               /\ In e KNOWN_REASONING_EFFORTS.
Proof.
  unfold parseModelWithReasoning. destruct m; try (now left).
  destruct (negb (truthy (VStr s))); [now left |].
  destruct (_ <=? 0)%Z; [now left |].
  destruct (existsb _ KNOWN_REASONING_EFFORTS) eqn:E; [| now left].
  right. eexists. split; [reflexivity |]. now apply known_effort_in.
Qed.

Lemma known_effort_truthy (e : string) :
  In e KNOWN_REASONING_EFFORTS -> truthy (VStr e) = true.
Proof. intros [<- | [<- | [<- | [<- | []]]]]; reflexivity. Qed.

(** X9: the outbound body always names a reasoning effort. When the request
    translates, [reasoning] is [{effort, summary: 'auto'}] with a known
    effort: the suffix of the model name when it has one; else, for enabled
    thinking with a truthy [budget_tokens], [medium] when the budget, read
    as a number, is at most 20000 and [high] when it is larger or no number;
    else [medium]. *)
Theorem outbound_reasoning_effort (body baseModel : value) (g : rng) (r : codex_request) :
  convertAnthropicRequestToCodex body baseModel g = Some r ->
  exists e,
    lookup_field "reasoning" (codexBody r)
      = VObj [("effort", VStr e); ("summary", VStr "auto")]
    /\ In e KNOWN_REASONING_EFFORTS
    /\ (forall s, reasoningEffort (parseModelWithReasoning baseModel) = VStr s -> e = s)
    /\ (reasoningEffort (parseModelWithReasoning baseModel) = VNull ->
        let thinking := field body "thinking" in
        let budget := field thinking "budget_tokens" in
        if truthy thinking && is_str (field thinking "type") "enabled" && truthy budget
        then exists x,
               to_number budget = Some x
               /\ e = match x with
                      | Num n => if num_leb n 20000 then "medium" else "high"
                      | NaN => "high"
                      end
        else e = "medium").
Proof.
  unfold convertAnthropicRequestToCodex. intros H.
  destruct (get body "thinking") as [thinking|] eqn:Hth; [simpl in H | discriminate].
  apply get_some in Hth as [-> _].
  destruct (thinkingBudgetToEffort _) as [fallbackEffort|] eqn:Hfb;
    [simpl in H | discriminate].
  destruct (convertMessagesToCodexInput _ g) as [a|]; [simpl in H | discriminate].
  destruct (convertToolsToCodex _) as [tools|]; [simpl in H | discriminate].
  injection H as <-. cbn [codexBody].
  set (th := field body "thinking") in *.
  set (eff := js_or (js_or _ _) (VStr "medium")).
  assert (exists e, eff = VStr e /\ In e KNOWN_REASONING_EFFORTS
            /\ (forall s, reasoningEffort (parseModelWithReasoning baseModel) = VStr s -> e = s)
            /\ (reasoningEffort (parseModelWithReasoning baseModel) = VNull ->
                if truthy th && is_str (field th "type") "enabled"
                   && truthy (field th "budget_tokens")
                then exists x,
                       to_number (field th "budget_tokens") = Some x
                       /\ e = match x with
                              | Num n => if num_leb n 20000 then "medium" else "high"
                              | NaN => "high"
                              end
                else e = "medium")) as (e & He & Hin & Hs & Hn).
  { subst eff. destruct (parsed_effort baseModel) as [E | (e & E & Hin)]; rewrite E.
    - unfold js_or at 2. cbn [truthy]. unfold thinkingBudgetToEffort in Hfb.
      destruct (truthy th); cbn [negb orb andb] in *;
        [| injection Hfb as <-; exists "medium"; cbn; intuition congruence].
      destruct (is_str (field th "type") "enabled"); cbn [negb orb andb] in *;
        [| injection Hfb as <-; exists "medium"; cbn; intuition congruence].
      destruct (truthy (field th "budget_tokens")); cbn [negb orb andb] in *;
        [| injection Hfb as <-; exists "medium"; cbn; intuition congruence].
      unfold js_le in Hfb.
      destruct (to_number (field th "budget_tokens")) as [x|]; [| discriminate].
      cbn [mbind option_bind] in Hfb. injection Hfb as <-.
      destruct x as [n|]; [destruct (num_leb n 20000) eqn:Hle |].
      + exists "medium". cbn. repeat split; try tauto; try discriminate.
        intros _. exists (Num n). now rewrite Hle.
      + exists "high". cbn. repeat split; try tauto; try discriminate.
        intros _. exists (Num n). now rewrite Hle.
      + exists "high". cbn. repeat split; try tauto; try discriminate.
        intros _. now exists NaN.
    - exists e. unfold js_or. rewrite (known_effort_truthy e Hin). cbv iota.
      rewrite (known_effort_truthy e Hin).
      split; [reflexivity |]. split; [exact Hin |]. split; [| discriminate].
      intros s [= ->]. reflexivity. }
  exists e. rewrite He, (known_effort_truthy e Hin).
  rewrite lookup_field_add_if_eq. auto.
Qed.

Lemma outbound_reasoning_effort_witness :
  let body := VObj [("thinking", VObj [("type", VStr "enabled");
                                       ("budget_tokens", VStr "1e3")])] in
  let g := {| entropy := fun _ => Byte.x00; cursor := 0 |} in
  exists e,
    lookup_field "reasoning"
      (codexBody
         {| codexBody := [("model", VStr "gpt-5"); ("input", VArr []);
                          ("reasoning", VObj [("effort", VStr "medium");
                                              ("summary", VStr "auto")])];
            r_toolIdMap := []; r_actualModel := VStr "gpt-5"; r_gen := g |})
      = VObj [("effort", VStr e); ("summary", VStr "auto")]
    /\ In e KNOWN_REASONING_EFFORTS
    /\ (forall s, reasoningEffort (parseModelWithReasoning (VStr "gpt-5")) = VStr s -> e = s)
    /\ (reasoningEffort (parseModelWithReasoning (VStr "gpt-5")) = VNull ->
        let thinking := field body "thinking" in
        let budget := field thinking "budget_tokens" in
        if truthy thinking && is_str (field thinking "type") "enabled" && truthy budget
        then exists x,
               to_number budget = Some x
               /\ e = match x with
                      | Num n => if num_leb n 20000 then "medium" else "high"
                      | NaN => "high"
                      end
        else e = "medium").
Proof.
  intros body g.
  apply (outbound_reasoning_effort body (VStr "gpt-5") g).
  vm_compute. reflexivity.
Defined.

(** X10: a part that [extractInstructionsFromSystem] passes over (a falsy
    part, one whose type is not [text] or whose text is no string, a billing
    header, a system reminder) changes nothing wherever it stands in the
    list. *)
Theorem system_filter_passes_over_skipped_parts (pre post : list value) (x : value) :
  skipped_system_part x = true ->
  extractInstructionsFromSystem (VArr (pre ++ x :: post))
    = extractInstructionsFromSystem (VArr (pre ++ post)).
Proof.
  intros Hx. unfold extractInstructionsFromSystem. cbn [truthy negb].
  rewrite !map_app, !concat_app. cbn [map concat].
  match goal with |- context [(?c ++ _)%list] =>
    match c with (if _ then _ else _) => replace c with (@nil string) end end;
    [reflexivity |].
  unfold skipped_system_part in Hx.
  destruct (negb (truthy x) || negb (is_str (field x "type") "text")); [reflexivity |].
  cbn [orb] in Hx. destruct (field x "text"); try reflexivity.
  apply orb_true_iff in Hx as [-> | Hx]; [reflexivity |].
  rewrite Hx. now destruct (startsWith _ "x-anthropic-billing-header").
Qed.

Lemma system_filter_passes_over_skipped_parts_witness :
  extractInstructionsFromSystem
    (VArr ([text_part "Be brief."]
           ++ text_part " <system-reminder>today</system-reminder>" :: [text_part "Use tools."]))
  = extractInstructionsFromSystem (VArr ([text_part "Be brief."] ++ [text_part "Use tools."])).
Proof.
  apply (system_filter_passes_over_skipped_parts
           [text_part "Be brief."] [text_part "Use tools."]
           (text_part " <system-reminder>today</system-reminder>")).
  reflexivity.
Defined.

(** X11: a system prompt given as one text part reads as the same prompt
    given as a string, except that a text starting with [<system-reminder>]
    is dropped as a part and kept as a string. *)
Theorem system_string_and_single_part (t : string) :
  extractInstructionsFromSystem (VArr [text_part t])
    = if startsWith (trim t) "<system-reminder>" then ""
      else extractInstructionsFromSystem (VStr t).
Proof.
  unfold extractInstructionsFromSystem, text_part.
  cbn [truthy negb map field lookup_field is_str orb].
  change ("type" =? "type")%string with true.
  change ("text" =? "type")%string with false.
  change ("text" =? "text")%string with true. cbv iota. cbn [orb negb].
  destruct (startsWith (trim t) "x-anthropic-billing-header") eqn:Hb.
  - cbn. destruct (startsWith (trim t) "<system-reminder>"); [reflexivity |].
    now destruct (String.eqb t "").
  - destruct (startsWith (trim t) "<system-reminder>"); [reflexivity |].
    cbn. destruct (String.eqb_spec t "") as [-> | _]; reflexivity.
Qed.

Lemma map_tools_spec (ts : list value) :
  if forallb non_nullish ts
  then exists outs, map_tools ts = Some outs /\ Forall2 function_of ts outs
  else map_tools ts = None.
Proof.
  induction ts as [|t ts IH]; cbn [forallb map_tools].
  - exists []. split; [reflexivity | constructor].
  - destruct (non_nullish t) eqn:Ht; cbn [andb].
    + rewrite (get_non_nullish t "name" Ht). cbn [mbind option_bind].
      destruct (forallb non_nullish ts).
      * destruct IH as (outs & -> & Hall). cbn [mbind option_bind].
        eexists. split; [reflexivity |]. constructor; [| exact Hall].
        unfold function_of. cbn [field lookup_field].
        repeat split.
        -- unfold js_or. destruct (truthy (field t "description")) eqn:E; [| reflexivity].
           now destruct (field t "description").
        -- intros E. unfold js_or. cbn. now rewrite E.
        -- unfold js_or. cbn. now destruct (truthy (field t "input_schema")) eqn:E.
        -- intros E. unfold js_or. cbn. now rewrite E.
      * rewrite IH. reflexivity.
    + destruct t; try discriminate Ht; reflexivity.
Qed.

(** X12: tools translate one to one. A non-empty list without [null] or
    [undefined] becomes a list of as many functions, in order, each with the
    tool's name, a description that is never [undefined] and parameters that
    are never missing; a [null] or [undefined] entry makes the translation
    throw; anything else than a non-empty list gives [undefined], and the
    outbound body has a [tools] field exactly for a non-empty list. *)
Theorem tools_become_functions (tools : value) :
  match tools with
  | VArr (t :: ts) =>
      if forallb non_nullish (t :: ts)
      then exists outs,
             convertToolsToCodex tools = Some (VArr outs)
             /\ Forall2 function_of (t :: ts) outs
      else convertToolsToCodex tools = None
  | _ => convertToolsToCodex tools = Some VUndef
  end
  /\ forall body baseModel g r,
       field body "tools" = tools ->
       convertAnthropicRequestToCodex body baseModel g = Some r ->
       has_field "tools" (codexBody r)
         = match tools with VArr (_ :: _) => true | _ => false end.
Proof.
  split.
  - destruct tools as [| | | | | | [|t ts] |]; try reflexivity.
    pose proof (map_tools_spec (t :: ts)) as H. unfold convertToolsToCodex.
    destruct (forallb non_nullish (t :: ts)).
    + destruct H as (outs & -> & Hall). exists outs. now split.
    + now rewrite H.
  - intros body baseModel g r Hb H. unfold convertAnthropicRequestToCodex in H.
    destruct (get body "thinking") as [thinking|]; [simpl in H | discriminate].
    destruct (thinkingBudgetToEffort thinking) as [fallbackEffort|];
      [simpl in H | discriminate].
    destruct (convertMessagesToCodexInput _ g) as [a|]; [simpl in H | discriminate].
    rewrite Hb in H.
    destruct (convertToolsToCodex tools) as [out|] eqn:Hc; [simpl in H | discriminate].
    injection H as <-. cbn [codexBody].
    rewrite !has_field_add_if. cbn [has_field existsb fst].
    change ("tools" =? "reasoning")%string with false.
    change ("tools" =? "tool_choice")%string with false.
    change ("tools" =? "tools")%string with true.
    change ("tools" =? "stream")%string with false.
    change ("tools" =? "max_output_tokens")%string with false.
    change ("tools" =? "instructions")%string with false.
    change ("tools" =? "model")%string with false.
    change ("tools" =? "input")%string with false.
    rewrite !andb_false_r, !orb_false_r, andb_true_r. cbn [orb].
    destruct tools as [| | | | | | [|t ts] |]; try (injection Hc as <-; reflexivity).
    unfold convertToolsToCodex in Hc.
    destruct (map_tools (t :: ts)); [| discriminate]. now injection Hc as <-.
Qed.

Lemma tools_become_functions_witness :
  (exists outs,
     convertToolsToCodex (VArr [VObj [("name", VStr "run")]]) = Some (VArr outs)
     /\ Forall2 function_of [VObj [("name", VStr "run")]] outs)
  /\ has_field "tools"
       (codexBody
          {| codexBody := [("model", VStr "gpt-5"); ("input", VArr []);
                           ("tools", VArr [VObj [("type", VStr "function");
                                                 ("name", VStr "run");
                                                 ("description", VStr "");
                                                 ("parameters", VObj [])]]);
                           ("reasoning", VObj [("effort", VStr "medium");
                                               ("summary", VStr "auto")])];
             r_toolIdMap := []; r_actualModel := VStr "gpt-5";
             r_gen := {| entropy := fun _ => Byte.x00; cursor := 0 |} |})
     = true.
Proof.
  destruct (tools_become_functions (VArr [VObj [("name", VStr "run")]])) as [H1 H2].
  split; [exact H1 |].
  apply (H2 (VObj [("tools", VArr [VObj [("name", VStr "run")]])]) (VStr "gpt-5")
            {| entropy := fun _ => Byte.x00; cursor := 0 |}); reflexivity.
Defined.

(** *** What the loop over the messages keeps *)

Lemma message_step_keeps (P : acc -> Prop) :
  (forall a x a', user_block a x = Some a' -> P a -> P a') ->
  (forall a x a', assistant_block a x = Some a' -> P a -> P a') ->
  forall a m a', message_step a m = Some a' -> P a -> P a'.
Proof.
  intros Hu Ha a m a' H Hp. unfold message_step in H.
  destruct (get m "role") as [role|]; [cbn in H | discriminate].
  destruct (is_str role "user").
  - eapply fold_opt_keeps; [exact Hu | exact H | exact Hp].
  - destruct (is_str role "assistant").
    + eapply fold_opt_keeps; [exact Ha | exact H | exact Hp].
    + now injection H as <-.
Qed.

Lemma user_block_effect (a : acc) (b : value) (a' : acc) :
  user_block a b = Some a' -> block_effect a a'.
Proof.
  unfold user_block. intros H.
  destruct (get b "type") as [ty|]; [cbn in H | discriminate].
  destruct (is_str ty "text").
  - injection H as <-. now eapply effect_push.
  - destruct (is_str ty "tool_result").
    + destruct (outputTextOf b) as [t|]; [cbn in H | discriminate].
      injection H as <-. now eapply effect_push.
    + injection H as <-. now apply effect_none.
Qed.

Lemma assistant_block_effect (a : acc) (b : value) (a' : acc) :
  assistant_block a b = Some a' -> block_effect a a'.
Proof.
  unfold assistant_block. intros H.
  destruct (get b "type") as [ty|]; [cbn in H | discriminate].
  destruct (is_str ty "thinking"); [injection H as <-; now apply effect_none |].
  destruct (is_str ty "text"); [injection H as <-; now eapply effect_push |].
  destruct (is_str ty "tool_use"); [| injection H as <-; now apply effect_none].
  destruct (generateCodexCallId (gen a)) as [callId g'] eqn:E.
  injection H as <-. now apply (effect_call _ _ b).
Qed.

Lemma translation_keeps (P : acc -> Prop) (messages : value) (g : rng) (a : acc) :
  (forall a a', block_effect a a' -> P a -> P a') ->
  convertMessagesToCodexInput messages g = Some a ->
  P {| input := []; toolIdMap := []; gen := g |} -> P a.
Proof.
  intros Hstep H H0. unfold convertMessagesToCodexInput in H.
  destruct (iterate messages) as [msgs|]; [cbn in H | discriminate].
  eapply fold_opt_keeps; [| exact H | exact H0].
  apply message_step_keeps.
  - intros a1 x a2 Hx. apply Hstep. now apply user_block_effect with x.
  - intros a1 x a2 Hx. apply Hstep. now apply assistant_block_effect with x.
Qed.

(** *** The ids of the calls *)

Lemma map_set_values (P : value -> Prop) (m : jsmap) (k v : value) :
  Forall (fun e => P (snd e)) m -> P v -> Forall (fun e => P (snd e)) (map_set m k v).
Proof.
  intros Hm Hv. induction m as [|[k' v'] m IH]; cbn [map_set].
  - now constructor.
  - inversion Hm as [|? ? H1 H2]; subst.
    destruct (same_value_zero k' k); constructor; auto.
Qed.

Lemma call_ids_step (g : rng) (a a' : acc) :
  block_effect a a' -> call_ids_in_order g a -> call_ids_in_order g a'.
Proof.
  intros [-> | item -> Hitem | block Hin Hmap Hgen] (He & Hc & Hids & Hm); [now repeat split | |].
  - destruct (push_calls a item) as (Hm' & Hg' & Hc' & _).
    rewrite Hitem, app_nil_r in Hc'.
    unfold call_ids_in_order. rewrite Hm', Hg', Hc'. now repeat split.
  - assert (calls a' = calls a ++ [call_item (fst (generateCodexCallId (gen a))) block]) as Hc'.
    { unfold calls. rewrite Hin, List.filter_app. cbn. reflexivity. }
    assert (fst (generateCodexCallId (gen a)) = nth_call_id g (length (calls a))) as Hid.
    { unfold generateCodexCallId, random_hex, randomBytes, nth_call_id. cbn [fst].
      now rewrite He, Hc. }
    rewrite Hid in Hc', Hmap.
    unfold call_ids_in_order. rewrite Hc', Hgen, Hmap, length_app. cbn [length].
    split; [exact He |]. split; [| split].
    + unfold generateCodexCallId, random_hex, randomBytes. cbn [snd cursor]. lia.
    + intros i c Hi. apply lookup_app_Some in Hi as [Hi | [Hge Hi]]; [now apply Hids |].
      destruct (i - length (calls a)) as [|n] eqn:En; [| discriminate Hi].
      injection Hi as <-. replace i with (length (calls a)) by lia. reflexivity.
    + apply (map_set_values
               (fun v => exists i, i < length (calls a) + 1 /\ v = VStr (nth_call_id g i))).
      * eapply Forall_impl; [exact Hm |]. intros e (i & Hi & Hv). exists i. split; [lia | exact Hv].
      * exists (length (calls a)). split; [lia | reflexivity].
Qed.

(** X13: each [tool_use] block draws the next 12 bytes of entropy. In the
    input built for any messages, the [i]-th [function_call] item has the id
    made of the bytes [12 i .. 12 i + 11] after the starting point; every id
    of the tool map is one of them; and nothing else reads the entropy
    source. *)
Theorem call_ids_are_drawn_in_order (messages : value) (g : rng) (a : acc) :
  convertMessagesToCodexInput messages g = Some a ->
  (forall i c, calls a !! i = Some c -> field c "call_id" = VStr (nth_call_id g i))
  /\ (forall k v, In (k, v) (toolIdMap a) ->
        exists i, i < length (calls a) /\ v = VStr (nth_call_id g i))
  /\ entropy (gen a) = entropy g
  /\ cursor (gen a) = cursor g + 12 * length (calls a).
Proof.
  intros H.
  assert (call_ids_in_order g a) as (He & Hc & Hids & Hm).
  { apply (translation_keeps (call_ids_in_order g) messages g a (call_ids_step g) H).
    unfold call_ids_in_order, calls. cbn. repeat split; try lia; [discriminate | constructor]. }
  repeat split; try assumption.
  intros k v Hin. rewrite List.Forall_forall in Hm. apply (Hm (k, v) Hin).
Qed.

Lemma call_ids_are_drawn_in_order_witness :
  let g := {| entropy := fun n => if (n <? 12)%nat then Byte.x00 else Byte.xff; cursor := 0 |} in
  let tu id := VObj [("type", VStr "tool_use"); ("id", VStr id); ("name", VStr "run")] in
  exists a,
    convertMessagesToCodexInput
      (VArr [VObj [("role", VStr "assistant"); ("content", VArr [tu "A"; tu "B"])]]) g = Some a
    /\ (forall i c, calls a !! i = Some c -> field c "call_id" = VStr (nth_call_id g i))
    /\ (forall k v, In (k, v) (toolIdMap a) ->
          exists i, i < length (calls a) /\ v = VStr (nth_call_id g i))
    /\ entropy (gen a) = entropy g
    /\ cursor (gen a) = cursor g + 12 * length (calls a).
Proof.
  intros g tu. eexists. split; [reflexivity |].
  apply (call_ids_are_drawn_in_order
           (VArr [VObj [("role", VStr "assistant"); ("content", VArr [tu "A"; tu "B"])]]) g).
  reflexivity.
Defined.

(** *** An answer to a call that was never made *)

(** X14: an answer to a call that was never made is forwarded under the
    client's own id. Take a list of turns that can all be read and a
    [tool_result] block of one of its user turns, such that no [tool_use]
    block of an earlier assistant turn has the block's [tool_use_id] as its
    id. The translation returns, and the block becomes a
    [function_call_output] item whose [call_id] is the block's
    [tool_use_id] as it came. If moreover no turn holds a [tool_use] block
    or another [tool_result] block, this is the only
    [function_call_output] item, there is no [function_call] item, the tool
    map stays empty and no entropy is read. *)
Theorem orphan_tool_result_keeps_the_client_id
  (g : rng) (before after : list value) (user : value)
  (u_pre u_post : list value) (tr : value) :
  is_str (field user "role") "user" = true ->
  normalizeContent (field user "content") = u_pre ++ tr :: u_post ->
  is_str (field tr "type") "tool_result" = true ->
  existsb (turn_remaps (field tr "tool_use_id")) before = false ->
  forallb turn_ok (before ++ user :: after) = true ->
  exists a pre post outputText,
    convertMessagesToCodexInput (VArr (before ++ user :: after)) g = Some a
    /\ input a = pre ++ call_output_item (field tr "tool_use_id") outputText :: post
    /\ outputTextOf tr = Some outputText
    /\ (forallb quiet_turn (before ++ after) = true ->
        forallb quiet_user_block (u_pre ++ u_post) = true ->
        calls a = []
        /\ call_outputs a = [call_output_item (field tr "tool_use_id") outputText]
        /\ toolIdMap a = []
        /\ gen a = g).
Proof.
  intros Hur Huc Htr Hbefore Hok.
  set (q := field tr "tool_use_id") in *.
  apply translation_returns_iff with (g := g) in Hok as [a5 F].
  pose proof F as F0. unfold convertMessagesToCodexInput in F.
  cbn [iterate mbind option_bind] in F.
  set (a0 := {| input := []; toolIdMap := []; gen := g |}) in F.
  apply fold_opt_app_some in F as (a1 & F1 & F).
  apply fold_opt_cons_some in F as (a4 & FU & F5).
  rewrite (message_step_user a1 user Hur), Huc in FU.
  apply fold_opt_app_some in FU as (a2 & F2 & FU).
  apply fold_opt_cons_some in FU as (a3 & F3 & F4).
  destruct (tool_result_block a2 tr a3 Htr F3) as (outputText & Hout & E3). fold q in E3.
  assert (holds q VUndef [] a2) as [Hmap _].
  { refine (fold_opt_keeps user_block (holds q VUndef []) u_pre _ a1 a2 F2 _).
    - intros a x a'. apply user_block_holds.
    - refine (fold_opt_keeps_on message_step (holds q VUndef [])
                (fun m => negb (turn_remaps q m)) before _
                (existsb_false_forallb _ _ Hbefore) a0 a1 F1 _).
      + intros a x a'. apply turn_holds.
      + split; [reflexivity | now exists []]. }
  rewrite Hmap in E3. change (js_or VUndef q) with q in E3.
  set (base := input a2 ++ [call_output_item q outputText]).
  assert (exists post, input a5 = base ++ post) as [post Hpost].
  { assert (exists items, input a4 = base ++ items) as H4.
    { refine (fold_opt_keeps user_block (fun a => exists items, input a = base ++ items)
                u_post _ a3 a4 F4 _).
      - intros a x a' Hx Ha.
        now destruct (user_block_holds VUndef (map_get (toolIdMap a) VUndef) base a x a' Hx)
          as [_ ?]; [split; eauto |].
      - exists []. rewrite E3. cbn [push input]. now rewrite app_nil_r. }
    refine (fold_opt_keeps message_step (fun a => exists items, input a = base ++ items)
              after _ a4 a5 F5 H4).
    intros a x a'. apply holds_any_turn. }
  exists a5, (input a2), post, outputText.
  split; [exact F0 |].
  split; [rewrite Hpost; unfold base; now rewrite <- app_assoc |].
  split; [exact Hout |].
  intros Hturns Hblocks.
  rewrite forallb_app in Hturns, Hblocks.
  apply andb_true_iff in Hturns as [Q1 Q5]. apply andb_true_iff in Hblocks as [Q2 Q4].
  assert (unchanged_calls a0 a2) as (M2 & G2 & C2 & O2).
  { refine (fold_opt_keeps_on user_block (unchanged_calls a0) quiet_user_block
              u_pre _ Q2 a1 a2 F2 _).
    - intros a x a'. apply quiet_user_block_step.
    - refine (fold_opt_keeps_on message_step (unchanged_calls a0) quiet_turn
                before _ Q1 a0 a1 F1 (unchanged_calls_refl a0)).
      intros a x a'. apply quiet_turn_step. }
  assert (unchanged_calls a3 a5) as (M5 & G5 & C5 & O5).
  { refine (fold_opt_keeps_on message_step (unchanged_calls a3) quiet_turn
              after _ Q5 a4 a5 F5 _).
    - intros a x a'. apply quiet_turn_step.
    - refine (fold_opt_keeps_on user_block (unchanged_calls a3) quiet_user_block
                u_post _ Q4 a3 a4 F4 (unchanged_calls_refl a3)).
      intros a x a'. apply quiet_user_block_step. }
  destruct (push_calls a2 (call_output_item q outputText)) as (M3 & G3 & C3 & O3).
  rewrite <- E3 in M3, G3, C3, O3. cbn in C3, O3. rewrite app_nil_r in C3.
  repeat split.
  - rewrite C5, C3, C2. reflexivity.
  - rewrite O5, O3, O2. reflexivity.
  - rewrite M5, M3, M2. reflexivity.
  - rewrite G5, G3, G2. reflexivity.
Qed.

Lemma orphan_tool_result_keeps_the_client_id_witness :
  let tu := VObj [("type", VStr "tool_use"); ("id", VStr "toolu_01"); ("name", VStr "run")] in
  let tr := VObj [("type", VStr "tool_result"); ("tool_use_id", VStr "toolu_gone");
                  ("content", VStr "done")] in
  let assistant := VObj [("role", VStr "assistant"); ("content", VArr [tu])] in
  let user := VObj [("role", VStr "user"); ("content", VArr [tr])] in
  exists a pre post outputText,
    convertMessagesToCodexInput (VArr ([assistant] ++ user :: []))
      {| entropy := fun _ => Byte.x00; cursor := 0 |} = Some a
    /\ input a = pre ++ call_output_item (VStr "toolu_gone") outputText :: post
    /\ outputTextOf tr = Some outputText
    /\ (forallb quiet_turn ([assistant] ++ []) = true ->
        forallb quiet_user_block ([] ++ []) = true ->
        calls a = []
        /\ call_outputs a = [call_output_item (VStr "toolu_gone") outputText]
        /\ toolIdMap a = []
        /\ gen a = {| entropy := fun _ => Byte.x00; cursor := 0 |}).
Proof.
  intros tu tr assistant user.
  apply (orphan_tool_result_keeps_the_client_id
           {| entropy := fun _ => Byte.x00; cursor := 0 |}
           [assistant] [] user [] [] tr);
    reflexivity.
Defined.

(** *** The arguments of a call *)

Lemma stringify_shape (v : value) :
  v <> VUndef -> exists t, stringify v = Some t /\ json_shape v t.
Proof.
  destruct v as [| | [|] | [z | m e | s] | | | |]; cbn [stringify json_shape finite]; eauto.
  intros H. now contradiction H.
Qed.

(** X15: the [arguments] of a call. A [tool_use] block appends one
    [function_call] item under a fresh call id, with the block's name; its
    [arguments] is the block's [input] itself when that is a string,
    [undefined] when the block has no [input], and otherwise the JSON text
    of the [input]: [null], [true], [false], the digits of a finite number,
    or the bracketed text of an array or an object. *)
Theorem tool_use_arguments (a : acc) (block : value) :
  is_tool_use block = true ->
  exists a' item,
    assistant_block a block = Some a'
    /\ input a' = input a ++ [item]
    /\ field item "type" = VStr "function_call"
    /\ field item "call_id" = VStr (fst (generateCodexCallId (gen a)))
    /\ field item "name" = field block "name"
    /\ match field block "input" with
       | VUndef => field item "arguments" = VUndef
       | VStr s => field item "arguments" = VStr s
       | input =>
           exists t,
             stringify input = Some t
             /\ field item "arguments" = VStr t
             /\ json_shape input t
       end.
Proof.
  intros Hty.
  destruct (proj1 (assistant_block_returns a block)
              (is_str_non_nullish block "type" "tool_use" Hty)) as [a' Ha].
  pose proof (tool_use_block a block a' Hty Ha) as E.
  exists a', (call_item (fst (generateCodexCallId (gen a))) block).
  split; [exact Ha |]. rewrite E. cbn [input]. split; [reflexivity |].
  unfold call_item. cbn [field lookup_field String.eqb Ascii.eqb Bool.eqb].
  repeat (split; [reflexivity |]).
  destruct (field block "input") as [| | b | n | | s | l | fs] eqn:Ei;
    cbn [typeof String.eqb Ascii.eqb Bool.eqb]; try reflexivity;
    unfold JSON_stringify;
    match goal with |- context [stringify ?v] =>
      destruct (stringify_shape v ltac:(discriminate)) as (t & Ht & Hs); rewrite Ht
    end; eauto.
Qed.

Lemma tool_use_arguments_witness :
  let input := VObj [("b", VNum 1); ("2", VStr "x");
                     ("a", VArr [VNull; VBool true; VNum (Frac 1 1)])] in
  let block := VObj [("type", VStr "tool_use"); ("id", VStr "toolu_1");
                     ("name", VStr "run"); ("input", input)] in
  let a := {| input := []; toolIdMap := [];
              gen := {| entropy := fun _ => Byte.x00; cursor := 0 |} |} in
  (exists a' item,
      assistant_block a block = Some a'
      /\ Bridge.input a' = [] ++ [item]
      /\ field item "type" = VStr "function_call"
      /\ field item "call_id" = VStr "call_000000000000000000000000"
      /\ field item "name" = VStr "run"
      /\ exists t,
           stringify input = Some t
           /\ field item "arguments" = VStr t
           /\ json_shape input t)
  /\ stringify input
     = Some ("{" +:+ quote "2" +:+ ":" +:+ quote "x" +:+ ","
                 +:+ quote "b" +:+ ":1," +:+ quote "a" +:+ ":[null,true,0.5]}").
Proof.
  intros input block a. split; [| vm_compute; reflexivity].
  apply (tool_use_arguments a block). reflexivity.
Defined.

(** *** Later turns never revise what earlier turns produced *)

Lemma block_effect_extends (a0 a a' : acc) :
  block_effect a a' ->
  (exists rest, input a = input a0 ++ rest) ->
  exists rest, input a' = input a0 ++ rest.
Proof.
  intros [-> | item -> _ | block Hin _ _] [rest Hr]; [now exists rest | |].
  - exists (rest ++ [item]). cbn [push input]. rewrite Hr. now rewrite app_assoc.
  - eexists. rewrite Hin, Hr. now rewrite <- app_assoc.
Qed.

(** X16: later turns never revise what earlier turns produced: when the
    translation of a conversation returns, so does the translation of each
    of its prefixes, and its input is a prefix of the whole input. *)
Theorem input_of_a_prefix_is_a_prefix (ms1 ms2 : list value) (g : rng) (a : acc) :
  convertMessagesToCodexInput (VArr (ms1 ++ ms2)) g = Some a ->
  exists a1 rest,
    convertMessagesToCodexInput (VArr ms1) g = Some a1
    /\ input a = input a1 ++ rest.
Proof.
  unfold convertMessagesToCodexInput. cbn [iterate mbind option_bind].
  rewrite fold_opt_app.
  destruct (fold_opt message_step _ ms1) as [a1|]; [cbn | discriminate].
  intros H. exists a1.
  destruct (fold_opt_keeps message_step (fun x => exists rest, input x = input a1 ++ rest) ms2
              (message_step_keeps _
                 (fun x b x' Hb => block_effect_extends a1 x x' (user_block_effect x b x' Hb))
                 (fun x b x' Hb => block_effect_extends a1 x x'
                                     (assistant_block_effect x b x' Hb)))
              a1 a H) as [rest Hr].
  { exists []. now rewrite app_nil_r. }
  exists rest. split; [reflexivity | exact Hr].
Qed.

Lemma input_of_a_prefix_is_a_prefix_witness :
  exists a1 rest,
    convertMessagesToCodexInput
      (VArr [VObj [("role", VStr "user"); ("content", VStr "hello")]])
      {| entropy := fun _ => Byte.x00; cursor := 0 |} = Some a1
    /\ [VObj [("role", VStr "user"); ("content", VStr "hello")];
        VObj [("type", VStr "message"); ("role", VStr "assistant");
              ("content", VArr [VObj [("type", VStr "output_text"); ("text", VStr "hi")]])]]
       = input a1 ++ rest.
Proof.
  apply (input_of_a_prefix_is_a_prefix
           [VObj [("role", VStr "user"); ("content", VStr "hello")]]
           [VObj [("role", VStr "assistant"); ("content", VStr "hi")]]
           {| entropy := fun _ => Byte.x00; cursor := 0 |}
           {| input := [VObj [("role", VStr "user"); ("content", VStr "hello")];
                        VObj [("type", VStr "message"); ("role", VStr "assistant");
                              ("content", VArr [VObj [("type", VStr "output_text");
                                                      ("text", VStr "hi")]])]];
              toolIdMap := [];
              gen := {| entropy := fun _ => Byte.x00; cursor := 0 |} |}).
  reflexivity.
Defined.

End TranslationMore.

(** ** The streaming converter: indices and tool ids *)

Section StreamingMore.

Lemma stops_app (l1 l2 : list sse) : stops (l1 ++ l2) = (stops l1 + stops l2)%Z.
Proof. unfold stops. rewrite List.filter_app, length_app. lia. Qed.

Lemma indexed_from_app (n : Z) (l1 l2 : list sse) :
  indexed_from n (l1 ++ l2) = indexed_from n l1 && indexed_from (n + stops l1) l2.
Proof.
  revert n. induction l1 as [|e l1 IH]; intros n.
  - cbn. now rewrite Z.add_0_r.
  - cbn [app indexed_from]. rewrite IH, andb_assoc. do 2 f_equal.
    unfold stops. cbn [List.filter]. destruct (is_stop e); cbn [length]; lia.
Qed.

Lemma processEvent_index_ok (ev : value) (c : converter) :
  index_ok c -> index_ok (fst (processEvent ev c)).
Proof.
  intros [Hi Hc].
  unfold index_ok, processEvent, _handleOutputItemAdded, _handleReasoningSummaryPartAdded,
    _handleReasoningSummaryTextDelta, _handleOutputTextDelta,
    _handleFunctionCallArgumentsDelta, write_delta, _handleContentPartAdded,
    _handleBlockStop, _handleOutputItemDone, _handleResponseCompleted,
    _ensureMessageStart.
  split_ifs;
    cbn -[stops indexed_from];
    rewrite <- ?app_assoc, ?indexed_from_app, ?stops_app, ?Hi, ?Hc;
    cbn; rewrite ?Z.add_0_r, ?Z.eqb_refl; split; first [reflexivity | lia].
Qed.

(** X17: block indices. Whatever events the converter is fed, every
    [content_block_start], [content_block_delta] and [content_block_stop] it
    wrote carries as [index] the number of [content_block_stop] events
    written before it, and [currentBlockIndex] is the number of blocks
    closed. *)
Theorem block_events_carry_the_running_index
  (baseModel : value) (toolIdMap : jsmap) (g : rng) (evs : list value) :
  let c := feed evs (new_converter baseModel toolIdMap g) in
  indexed_from 0 (res c) = true
  /\ currentBlockIndex c = stops (res c).
Proof.
  intros c.
  assert (index_ok (new_converter baseModel toolIdMap g)) as H0.
  { unfold new_converter. destruct (random_hex 16 g). now split. }
  change (index_ok c). subst c. revert H0.
  generalize (new_converter baseModel toolIdMap g).
  induction evs as [|ev evs IH]; intros c0 Hc; [exact Hc |].
  cbn [feed fold_left]. fold (feed evs (fst (processEvent ev c0))).
  apply IH. now apply processEvent_index_ok.
Qed.

(** *** Looking a Codex id up, in the stream and outside it *)

Lemma same_value_zero_str (s : string) (v : value) :
  same_value_zero (VStr s) v = strict_eq (VStr s) v.
Proof. now destruct v. Qed.

Lemma strict_eq_str_l (s : string) (v : value) : strict_eq (VStr s) v = true -> v = VStr s.
Proof. destruct v; try discriminate. cbn. now intros ->%String.eqb_eq. Qed.

Lemma same_value_zero_str_r (k : value) (s : string) :
  same_value_zero k (VStr s) = true -> k = VStr s.
Proof. destruct k; try discriminate. cbn. now intros ->%String.eqb_eq. Qed.

Lemma map_get_set_str (m : jsmap) (s : string) (x v : value) :
  map_get (map_set m (VStr s) x) v
    = if same_value_zero (VStr s) v then x else map_get m v.
Proof.
  induction m as [|[k' v'] m IH]; cbn [map_set map_get]; [reflexivity |].
  destruct (same_value_zero k' (VStr s)) eqn:E; cbn [map_get].
  - apply same_value_zero_str_r in E as ->.
    now destruct (same_value_zero (VStr s) v).
  - rewrite IH. destruct (same_value_zero (VStr s) v) eqn:Ev; [| reflexivity].
    rewrite same_value_zero_str in Ev. apply strict_eq_str_l in Ev as ->.
    now rewrite E.
Qed.

Lemma string_valued_in (m : jsmap) (e : value * value) :
  string_valued m -> In e m -> exists s, snd e = VStr s.
Proof. unfold string_valued. rewrite List.Forall_forall. intros H He. now apply H. Qed.

Lemma reverse_miss (m acc : jsmap) (v : value) :
  string_valued m ->
  (forall e, In e m -> strict_eq (snd e) v = false) ->
  map_get (fold_left (fun m e => map_set m (snd e) (fst e)) m acc) v = map_get acc v.
Proof.
  revert acc. induction m as [|[k x] m IH]; intros acc Hs Hm; [reflexivity |].
  inversion Hs as [|? ? [s Hx] Hs']; subst. cbn [snd fst] in *. subst x.
  cbn [fold_left fst snd]. rewrite IH; [| exact Hs' | intros e He; apply Hm; now right].
  rewrite map_get_set_str, same_value_zero_str.
  pose proof (Hm (k, VStr s) (or_introl eq_refl)) as H0. cbn [snd] in H0.
  now rewrite H0.
Qed.

Lemma other_values_differ (m : jsmap) (s : string) :
  string_valued m -> ~ In (VStr s) (map snd m) ->
  forall e, In e m -> strict_eq (snd e) (VStr s) = false.
Proof.
  intros Hs Hn e He. destruct (string_valued_in m e Hs He) as [s' Hs'].
  rewrite Hs'. cbn. destruct (String.eqb_spec s' s) as [-> | _]; [| reflexivity].
  exfalso. apply Hn. rewrite <- Hs'. now apply in_map.
Qed.

Lemma reverse_hit (m acc : jsmap) (k : value) (s : string) :
  string_valued m -> List.NoDup (map snd m) -> In (k, VStr s) m ->
  map_get (fold_left (fun m e => map_set m (snd e) (fst e)) m acc) (VStr s) = k.
Proof.
  revert acc. induction m as [|[k' x] m IH]; intros acc Hs Hn Hin; [contradiction |].
  inversion Hs as [|? ? _ Hs']; subst. inversion Hn as [|? ? Hx Hn']; subst.
  cbn [fold_left fst snd]. destruct Hin as [[= -> ->] | Hin].
  - rewrite reverse_miss; [| exact Hs' | now apply other_values_differ].
    rewrite map_get_set_str. cbn. now rewrite String.eqb_refl.
  - now apply IH.
Qed.

Lemma stream_miss (m : jsmap) (v : value) :
  (forall e, In e m -> strict_eq (snd e) v = false) -> _getAnthropicToolId m v = VNull.
Proof.
  induction m as [|[k x] m IH]; intros Hm; [reflexivity |]. cbn [_getAnthropicToolId].
  pose proof (Hm (k, x) (or_introl eq_refl)) as H0. cbn [snd] in H0.
  rewrite H0. apply IH. intros e He. apply Hm. now right.
Qed.

Lemma stream_hit (m : jsmap) (k : value) (s : string) :
  string_valued m -> List.NoDup (map snd m) -> In (k, VStr s) m ->
  _getAnthropicToolId m (VStr s) = k.
Proof.
  induction m as [|[k' x] m IH]; intros Hs Hn Hin; [contradiction |].
  inversion Hs as [|? ? _ Hs']; subst. inversion Hn as [|? ? Hx Hn']; subst.
  cbn [_getAnthropicToolId]. destruct Hin as [[= -> ->] | Hin].
  - cbn. now rewrite String.eqb_refl.
  - cbn [snd] in Hx.
    assert (strict_eq x (VStr s) = false) as ->.
    { destruct (string_valued_in _ (k', x) Hs (or_introl eq_refl)) as [s' E].
      cbn [snd] in E. subst x. cbn. destruct (String.eqb_spec s' s) as [-> | _]; [| reflexivity].
      exfalso. apply Hx. change (VStr s) with (snd (k, VStr s)). now apply in_map. }
    now apply IH.
Qed.

(** X18: the stream and the non-streaming translator find the same tool id.
    For a tool map whose Codex ids are strings, no two alike, the linear
    scan of the stream and the reversed map of the non-streaming translator
    both give, for a mapped Codex id, the client's id it was mapped from;
    and for any id at all they lead to the same [tool_use] id and draw the
    same entropy. *)
Theorem both_translators_find_the_same_tool_id (m : jsmap) :
  string_valued m ->
  List.NoDup (map snd m) ->
  (forall k s, In (k, VStr s) m ->
     _getAnthropicToolId m (VStr s) = k
     /\ map_get (fold_left (fun m e => map_set m (snd e) (fst e)) m []) (VStr s) = k)
  /\ (forall v g,
        mapped_or_fresh (_getAnthropicToolId m v) g
          = mapped_or_fresh
              (map_get (fold_left (fun m e => map_set m (snd e) (fst e)) m []) v) g).
Proof.
  intros Hs Hn. split.
  - intros k s Hin. split; [now apply stream_hit | now apply reverse_hit].
  - intros v g. destruct (existsb (fun e => strict_eq (snd e) v) m) eqn:E.
    + apply existsb_exists in E as ([k x] & Hin & Hx). cbn [snd] in Hx.
      destruct (string_valued_in m (k, x) Hs Hin) as [s Hsx]. cbn [snd] in Hsx. subst x.
      apply strict_eq_str_l in Hx as ->.
      now rewrite (stream_hit m k s Hs Hn Hin), (reverse_hit m [] k s Hs Hn Hin).
    + assert (forall e, In e m -> strict_eq (snd e) v = false) as Hm.
      { intros e He. destruct (strict_eq (snd e) v) eqn:Ee; [| reflexivity].
        rewrite <- E. symmetry. apply existsb_exists. now exists e. }
      now rewrite (stream_miss m v Hm), (reverse_miss m [] v Hs Hm).
Qed.

Lemma both_translators_find_the_same_tool_id_witness :
  let m := [(VStr "toolu_A", VStr "call_1"); (VStr "toolu_B", VStr "call_2")] in
  (forall k s, In (k, VStr s) m ->
     _getAnthropicToolId m (VStr s) = k
     /\ map_get (fold_left (fun m e => map_set m (snd e) (fst e)) m []) (VStr s) = k)
  /\ (forall v g,
        mapped_or_fresh (_getAnthropicToolId m v) g
          = mapped_or_fresh
              (map_get (fold_left (fun m e => map_set m (snd e) (fst e)) m []) v) g).
Proof.
  intros m. apply (both_translators_find_the_same_tool_id m).
  - repeat constructor; cbn; eauto.
  - repeat constructor; cbn; intuition discriminate.
Defined.

(** X19: the stream gives a call back its client id. For a tool map as in
    X18 that maps a non-empty client id to a Codex id, the
    [response.output_item.added] event of a function call with that Codex id
    returns, writes a [content_block_start] last, for a [tool_use] block
    whose id is the client's, and reads no entropy. *)
Theorem stream_restores_the_client_tool_id
  (c : converter) (ev item k : value) (s : string) :
  string_valued (c_toolIdMap c) ->
  List.NoDup (map snd (c_toolIdMap c)) ->
  In (k, VStr s) (c_toolIdMap c) ->
  truthy k = true ->
  field ev "type" = VStr "response.output_item.added" ->
  field ev "item" = item ->
  field item "type" = VStr "function_call" ->
  field item "call_id" = VStr s ->
  exists pre d,
    snd (processEvent ev c) = Returned
    /\ res (fst (processEvent ev c))
       = res c ++ pre ++ [{| event := "content_block_start"; data := d |}]
    /\ field (field d "content_block") "type" = VStr "tool_use"
    /\ field (field d "content_block") "id" = k
    /\ c_gen (fst (processEvent ev c)) = c_gen c.
Proof.
  intros Hs Hn Hin Hk Hty Hitem Hit Hid.
  assert (truthy ev = true) as Hev.
  { destruct ev; try discriminate Hty; try reflexivity;
      cbn in Hty; destruct (String.eqb "type" "length"); discriminate. }
  assert (truthy item = true) as Hi.
  { destruct item; try discriminate Hit; try reflexivity;
      cbn in Hit; destruct (String.eqb "type" "length"); discriminate. }
  unfold processEvent. rewrite Hev, Hty.
  cbn [truthy negb orb is_str String.eqb Ascii.eqb Bool.eqb].
  unfold _handleOutputItemAdded. rewrite Hitem.
  replace (js_or item (VObj [])) with item by (unfold js_or; now rewrite Hi).
  rewrite Hit. cbn [is_str String.eqb Ascii.eqb Bool.eqb]. rewrite Hid.
  assert (c_toolIdMap (set_currentFunctionCall (_ensureMessageStart c) (VStr s)
                         (field item "name")) = c_toolIdMap c) as ->.
  { unfold _ensureMessageStart. now destruct (messageStartSent c). }
  rewrite (stream_hit _ k s Hs Hn Hin). unfold mapped_or_fresh. rewrite Hk.
  unfold _ensureMessageStart.
  destruct (messageStartSent c); cbn [fst res c_gen writeAnthropicSseEvent set_gen
    set_currentFunctionCall set_messageStartSent]; [exists [] | eexists [_]];
    eexists; (split; [reflexivity |]); (split; [now rewrite <- ?app_assoc |]);
    now repeat split.
Qed.

Lemma stream_restores_the_client_tool_id_witness :
  let ev := VObj [("type", VStr "response.output_item.added");
                  ("item", VObj [("type", VStr "function_call"); ("call_id", VStr "call_2");
                                 ("name", VStr "run")])] in
  let c := new_converter (VStr "gpt-5")
             [(VStr "toolu_A", VStr "call_1"); (VStr "toolu_B", VStr "call_2")]
             {| entropy := fun _ => Byte.x00; cursor := 0 |} in
  exists pre d,
    snd (processEvent ev c) = Returned
    /\ res (fst (processEvent ev c))
       = res c ++ pre ++ [{| event := "content_block_start"; data := d |}]
    /\ field (field d "content_block") "type" = VStr "tool_use"
    /\ field (field d "content_block") "id" = VStr "toolu_B"
    /\ c_gen (fst (processEvent ev c)) = c_gen c.
Proof.
  intros ev c.
  apply (stream_restores_the_client_tool_id c ev
           (VObj [("type", VStr "function_call"); ("call_id", VStr "call_2");
                  ("name", VStr "run")])
           (VStr "toolu_B") "call_2"); try reflexivity.
  - repeat constructor; cbn; eauto.
  - repeat constructor; cbn; intuition discriminate.
  - cbn. auto.
Defined.

End StreamingMore.

(** ** The frames on the wire *)

Section Framing.

Lemma one_line_append (a b : string) : one_line (a +:+ b) = one_line a && one_line b.
Proof.
  unfold one_line. induction a as [|x a IH]; [reflexivity |].
  rewrite append_cons. cbn [all_chars]. now rewrite IH, andb_assoc.
Qed.

Lemma one_line_concat (sep : string) (l : list string) :
  one_line sep = true -> forallb one_line l = true -> one_line (String.concat sep l) = true.
Proof.
  intros Hsep. induction l as [|x l IH]; [reflexivity |]. cbn [forallb String.concat].
  intros [Hx Hl]%andb_true_iff. destruct l as [|y l]; [exact Hx |].
  change (x ++ sep ++ String.concat sep (y :: l))%string
    with (x +:+ sep +:+ String.concat sep (y :: l)).
  rewrite !one_line_append, Hx, Hsep. now apply IH.
Qed.

Lemma quote_char_one_line (a : ascii) : one_line (quote_char a) = true.
Proof. destruct a as [[] [] [] [] [] [] [] []]; reflexivity. Qed.

Lemma quote_one_line (s : string) : one_line (quote s) = true.
Proof.
  unfold quote. rewrite !one_line_append.
  assert (one_line (quote_body s) = true) as ->.
  { induction s as [|a s IH]; [reflexivity |]. cbn [quote_body].
    now rewrite one_line_append, quote_char_one_line. }
  reflexivity.
Qed.

Lemma uint_one_line (d : Decimal.uint) : one_line (NilEmpty.string_of_uint d) = true.
Proof. induction d; cbn; auto. Qed.

Lemma string_of_Z_one_line (n : Z) : one_line (string_of_Z n) = true.
Proof.
  unfold string_of_Z. destruct (Z.to_int n) as [d | d]; cbn; apply uint_one_line.
Qed.

Lemma zeros_one_line (n : nat) : one_line (zeros n) = true.
Proof. induction n as [|n IH]; [reflexivity | exact IH]. Qed.

Lemma substring_one_line (n m : nat) (s : string) :
  one_line s = true -> one_line (String.substring n m s) = true.
Proof.
  unfold one_line. revert n m. induction s as [|a s IH]; intros n m H.
  - now destruct n, m.
  - cbn [all_chars] in H. apply andb_true_iff in H as [Ha Hs].
    destruct n as [|n]; [destruct m as [|m] |]; cbn [String.substring all_chars];
      [reflexivity | rewrite Ha; now apply IH | now apply IH].
Qed.

Lemma layout_one_line (ds : string) (n : Z) :
  one_line ds = true -> one_line (layout ds n) = true.
Proof.
  intros H. unfold layout.
  repeat match goal with |- context [if ?c then _ else _] => destruct c end;
    rewrite ?one_line_append, ?zeros_one_line, ?string_of_Z_one_line,
      ?(substring_one_line _ _ ds H), ?H; reflexivity.
Qed.

Lemma positive_to_string_one_line (p q : Z) : one_line (positive_to_string p q) = true.
Proof.
  unfold positive_to_string.
  destruct (shortest _ _ _ _ _ _) as [s0 j0]. destruct (strip_zeros _ _ _) as [s j].
  apply layout_one_line, string_of_Z_one_line.
Qed.

Lemma number_to_string_one_line (n : num) : one_line (number_to_string n) = true.
Proof.
  destruct n as [z | m e | s]; cbn [number_to_string].
  - destruct (_ <=? _)%Z; [apply string_of_Z_one_line |].
    rewrite one_line_append, positive_to_string_one_line. now destruct (z <? 0)%Z.
  - destruct (m =? 0)%Z; [reflexivity |].
    rewrite one_line_append, positive_to_string_one_line. now destruct (m <? 0)%Z.
  - now destruct s.
Qed.

(** *** The order of the members *)

Lemma first_members_in {A : Type} (seen : list string) (ms : list (string * A))
  (m : string * A) :
  In m (first_members seen ms) -> In m ms.
Proof.
  revert seen. induction ms as [|[k x] ms IH]; intros seen; [easy |].
  cbn [first_members]. destruct (existsb _ seen).
  - intros H. right. now apply IH with seen.
  - intros [<- | H]; [now left | right; now apply IH with (k :: seen)].
Qed.

Lemma insert_index_in {A : Type} (i : Z) (m : string * A) (l : list (Z * (string * A)))
  (x : Z * (string * A)) :
  In x (insert_index i m l) -> x = (i, m) \/ In x l.
Proof.
  induction l as [|[j m'] l IH]; cbn [insert_index].
  - intros [<- | []]. now left.
  - destruct (i <? j)%Z.
    + intros [<- | H]; [now left | now right].
    + intros [<- | H]; [right; now left |].
      destruct (IH H) as [-> | H']; [now left | right; now right].
Qed.

(** Ordering the members neither adds nor changes one *)
Lemma own_property_order_in {A : Type} (ms : list (string * A)) (m : string * A) :
  In m (own_property_order ms) -> In m ms.
Proof.
  unfold own_property_order. intros [H | H]%in_app_or.
  - apply (first_members_in [] ms).
    apply in_map_iff in H as ([i m'] & <- & H). cbn [snd].
    induction (first_members [] ms) as [|m0 l IH]; [easy |].
    cbn [fold_right] in H. destruct (array_index (fst m0)).
    + apply insert_index_in in H as [[= _ <-] | H]; [now left | right; now apply IH].
    + right. now apply IH.
  - apply (first_members_in [] ms). now apply filter_In in H as [H _].
Qed.

Lemma members_one_line (l : list (string * option string)) :
  Forall (fun p => forall t, snd p = Some t -> one_line t = true) l ->
  forallb one_line
    (concat (map (fun p => match snd p with
                           | Some t => [quote (fst p) +:+ ":" +:+ t]
                           | None => []
                           end) l)) = true.
Proof.
  induction 1 as [|[k o] l Hx _ IH]; [reflexivity |]. cbn [map concat snd fst].
  rewrite forallb_app, IH, andb_true_r. cbn [snd] in Hx.
  destruct o as [t|]; [| reflexivity].
  cbn [forallb]. now rewrite !one_line_append, quote_one_line, (Hx t eq_refl).
Qed.

(** The JSON text of a value holds no C0 control character *)
Lemma stringify_one_line (v : value) (s : string) :
  stringify v = Some s -> one_line s = true.
Proof.
  revert s. induction v as [| | b | n | | t | l IH | fs IH] using value_nested_ind;
    intros s H; cbn [stringify] in H.
  - discriminate.
  - now injection H as <-.
  - destruct b; now injection H as <-.
  - destruct n as [z | m e | sg]; injection H as <-;
      [exact (number_to_string_one_line (Int z))
      | exact (number_to_string_one_line (Frac m e))
      | reflexivity].
  - now injection H as <-.
  - injection H as <-. apply quote_one_line.
  - injection H as <-. rewrite !one_line_append. cbn [andb].
    rewrite one_line_concat; [reflexivity | reflexivity |].
    induction IH as [|x l Hx _ IHl]; [reflexivity |]. cbn [map forallb]. rewrite IHl, andb_true_r.
    destruct (stringify x) as [t|] eqn:E; [now apply Hx | reflexivity].
  - injection H as <-. rewrite !one_line_append. cbn [andb].
    rewrite one_line_concat; [reflexivity | reflexivity |].
    apply members_one_line. apply List.Forall_forall. intros [k o] Hin t Ht.
    apply own_property_order_in, in_map_iff in Hin as ([k' x] & [= <- <-] & Hin).
    rewrite List.Forall_forall in IH. cbn [snd] in *. now apply (IH (k', x) Hin).
Qed.

Lemma processEvent_event_names (ev : value) (c : converter) :
  Forall (fun e => one_line (event e) = true) (res c) ->
  Forall (fun e => one_line (event e) = true) (res (fst (processEvent ev c))).
Proof.
  intros H.
  unfold processEvent, _handleOutputItemAdded, _handleReasoningSummaryPartAdded,
    _handleReasoningSummaryTextDelta, _handleOutputTextDelta,
    _handleFunctionCallArgumentsDelta, write_delta, _handleContentPartAdded,
    _handleBlockStop, _handleOutputItemDone, _handleResponseCompleted,
    _ensureMessageStart.
  split_ifs; cbn; rewrite <- ?app_assoc; try exact H;
    apply Forall_app; (split; [exact H |]); repeat constructor.
Qed.

Lemma feed_event_names (evs : list value) (c : converter) :
  Forall (fun e => one_line (event e) = true) (res c) ->
  Forall (fun e => one_line (event e) = true) (res (feed evs c)).
Proof.
  revert c. induction evs as [|ev evs IH]; intros c Hc; [exact Hc |].
  apply IH. now apply processEvent_event_names.
Qed.

(** X20: frames on the wire. Every event the converter wrote goes out as two
    chunks, an [event:] line and a [data:] line followed by an empty line,
    and neither line holds a C0 control character (a code unit below 32), in
    particular no line feed and no carriage return, so no text of the model
    can break a frame. *)
Theorem sse_frames_are_two_lines
  (baseModel : value) (toolIdMap : jsmap) (g : rng) (evs : list value) (e : sse) :
  In e (res (feed evs (new_converter baseModel toolIdMap g))) ->
  exists body,
    frame e = ["event: " +:+ event e +:+ nl; "data: " +:+ body +:+ nl +:+ nl]
    /\ one_line ("event: " +:+ event e) = true
    /\ one_line ("data: " +:+ body) = true.
Proof.
  intros Hin.
  assert (Forall (fun e => one_line (event e) = true)
                 (res (feed evs (new_converter baseModel toolIdMap g)))) as Hall.
  { apply feed_event_names. unfold new_converter. destruct (random_hex 16 g). constructor. }
  rewrite List.Forall_forall in Hall. specialize (Hall e Hin).
  exists (to_string (JSON_stringify (data e))).
  split; [reflexivity |]. split.
  - now rewrite one_line_append, Hall.
  - rewrite one_line_append. cbn [andb]. unfold JSON_stringify.
    destruct (stringify (data e)) as [s|] eqn:E; [| reflexivity].
    rewrite ?to_string_str. now apply stringify_one_line with (data e).
Qed.

Lemma sse_frames_are_two_lines_witness :
  let e := {| event := "content_block_delta";
              data := VObj [("type", VStr "content_block_delta"); ("index", VNum 0);
                            ("delta", VObj [("type", VStr "text_delta");
                                            ("text", VStr ("a" +:+ nl +:+ "b"))])] |} in
  exists body,
    frame e = ["event: " +:+ event e +:+ nl; "data: " +:+ body +:+ nl +:+ nl]
    /\ one_line ("event: " +:+ event e) = true
    /\ one_line ("data: " +:+ body) = true.
Proof.
  intros e.
  apply (sse_frames_are_two_lines (VStr "gpt-5") []
           {| entropy := fun _ => Byte.x00; cursor := 0 |}
           [VObj [("type", VStr "response.output_text.delta");
                  ("delta", VStr ("a" +:+ nl +:+ "b"))]] e).
  cbn. now left.
Defined.

End Framing.

(** ** The request sent upstream *)

Section HandlerFacts.

Lemma instructions_stage_object (h : heap) (body processedBody : loc) (cli : bool)
  (s : settings) (cur : list (string * value)) :
  processedBody < length h ->
  read h processedBody = VObj cur ->
  exists cur', read (fst (instructions_stage h body processedBody cli s)) processedBody
               = VObj cur'.
Proof.
  intros Hlt Hrd. unfold instructions_stage.
  split_ifs; cbn [fst]; rewrite ?read_write_field by exact Hlt; eauto.
Qed.

Lemma field_after_write (h : heap) (l : loc) (k k' : string) (v : value)
  (cur : list (string * value)) :
  l < length h -> read h l = VObj cur -> k <> k' ->
  field (read (write_field h l k' v) l) k = lookup_field k cur.
Proof.
  intros Hlt Hrd Hk. rewrite read_write_field by exact Hlt. rewrite Hrd.
  cbn [field own_fields]. now apply lookup_field_set_ne.
Qed.

(** X21: what is posted upstream. When the handler posts a body, the request
    translated, the body's [stream] is [true] whatever the client asked for,
    and outside [stream] and [instructions] it holds the translated body
    (with [store: false] unless the account is an [openai-responses] one):
    every field with its value, except the configured strip fields when the
    adapter is enabled, the client is not the Codex CLI and stripping is on. *)
Theorem posted_body_is_the_translation_adapted
  (reqBody baseModel : value) (accountType : string) (userAgent adapterConfig : value)
  (g : rng) (h : heap) (finalBody : loc) :
  handleAnthropicMessagesToCodex reqBody baseModel accountType userAgent adapterConfig g
    = Some (h, finalBody) ->
  let s := resolveAdapterConfig adapterConfig VUndef in
  let isCodexCLI := codexCliPattern_test (to_string (js_or userAgent (VStr ""))) in
  let stripping := enabled s && negb isCodexCLI && strip_enabled (stripFields s) in
  exists r,
    convertAnthropicRequestToCodex reqBody baseModel g = Some r
    /\ field (read h finalBody) "stream" = VBool true
    /\ forall k, k <> "stream" -> k <> "instructions" ->
         field (read h finalBody) k
           = if stripping && listed (fields (stripFields s)) k then VUndef
             else lookup_field k (translated_body accountType r).
Proof.
  intros H s cli stripping. unfold handleAnthropicMessagesToCodex in H.
  destruct (convertAnthropicRequestToCodex reqBody baseModel g) as [r|]; [| discriminate].
  exists r. split; [reflexivity |]. cbn [mbind option_bind alloc length app] in H.
  fold cli in H. unfold adaptCodexRequestBody in H.
  set (h1 := if String.eqb accountType "openai-responses" then _ else _) in H.
  assert (h1 = [VObj (translated_body accountType r)]) as Eh1.
  { unfold h1, translated_body. now destruct (String.eqb accountType "openai-responses"). }
  clearbody h1. subst h1.
  set (tb := translated_body accountType r) in *.
  destruct (enabled s) eqn:He.
  - rewrite (adapt_with_copy instructions_stage [VObj tb] 0 cli adapterConfig VUndef
               eq_refl eq_refl He) in H.
    cbv zeta in H. fold s in H. cbn [length] in H.
    change (read [VObj tb] 0) with (VObj tb) in H. cbn [spread] in H.
    destruct (strip_stage_listed [VObj tb] 0 cli s) as [Hl _].
    destruct (before_instructions [VObj tb] 0 cli s eq_refl) as (Hlen & Hold & _ & Hrd).
    cbn [length] in Hl, Hlen, Hold, Hrd.
    change (read [VObj tb] 0) with (VObj tb) in Hl, Hlen, Hold, Hrd. cbn [spread] in *.
    set (st := strip_stage ([VObj tb] ++ [VObj tb]) 1 cli s) in *.
    pose proof (instructions_stage_frame (fst st) 0 1 cli s) as [Hlen3 Hfr3].
    destruct (instructions_stage_object (fst st) 0 1 cli s _ ltac:(lia) Hrd) as [cur' Hcur'].
    pose proof (fun k Hk => copy_other_fields [VObj tb] 0 cli s k eq_refl Hk) as Hother.
    cbn [length] in Hother. change (read [VObj tb] 0) with (VObj tb) in Hother.
    cbn [spread] in Hother. fold st in Hother.
    set (out := instructions_stage (fst st) 0 1 cli s) in *.
    assert (forall k, (if listed (snd st) k then VUndef else lookup_field k tb)
                      = if stripping && listed (fields (stripFields s)) k then VUndef
                        else lookup_field k tb) as Hsame.
    { intros k. rewrite Hl. unfold stripping. cbn [andb].
      destruct (negb cli && strip_enabled (stripFields s) && listed (fields (stripFields s)) k);
        cbn [andb]; [| reflexivity].
      destruct (has_field k tb) eqn:Hf; [reflexivity |]. now apply lookup_field_absent. }
    cbn [applied Adapter.body] in H.
    destruct ((0 <? length (snd st))%nat || bool_decide (snd out <> None)) eqn:Happ.
    + injection H as <- <-. split.
      * rewrite read_write_field by lia. cbn [field]. apply lookup_field_set_eq.
      * intros k Hk Hi. rewrite (field_after_write (fst out) 1 k "stream" (VBool true) cur' ltac:(lia) Hcur' Hk).
        rewrite <- Hsame, <- (Hother k Hi). now rewrite Hcur'.
    + injection H as <- <-.
      assert (read (fst out) 0 = VObj tb) as Hrd0.
      { unfold read. rewrite Hfr3 by lia. now rewrite Hold by lia. }
      split.
      * rewrite read_write_field by lia. cbn [field]. apply lookup_field_set_eq.
      * intros k Hk Hi. rewrite (field_after_write (fst out) 0 k "stream" (VBool true) tb ltac:(lia) Hrd0 Hk).
        rewrite <- Hsame. apply orb_false_iff in Happ as [Hnone _].
        destruct (snd st); [reflexivity | discriminate Hnone].
  - rewrite (adapt_with_passthrough instructions_stage [VObj tb] 0 cli adapterConfig VUndef)
      in H by (fold s; now rewrite He, andb_false_r).
    cbn [applied Adapter.body] in H. injection H as <- <-.
    split.
    + rewrite read_write_field by (cbn; lia). cbn [field]. apply lookup_field_set_eq.
    + intros k Hk _.
      now rewrite (field_after_write [VObj tb] 0 k "stream" (VBool true) tb
                     ltac:(cbn; lia) eq_refl Hk).
Qed.

Lemma posted_body_is_the_translation_adapted_witness :
  exists h finalBody,
    handleAnthropicMessagesToCodex
      (VObj [("stream", VBool false); ("max_tokens", VNum 100); ("messages", VArr [])])
      (VStr "gpt-5") "openai" (VStr "curl/8.0") VUndef
      {| entropy := fun _ => Byte.x00; cursor := 0 |} = Some (h, finalBody)
    /\ field (read h finalBody) "stream" = VBool true
    /\ field (read h finalBody) "store" = VBool false
    /\ field (read h finalBody) "max_output_tokens" = VUndef.
Proof.
  do 2 eexists. split; [vm_compute; reflexivity |].
  match goal with |- field (read ?h ?l) _ = _ /\ _ =>
    destruct (posted_body_is_the_translation_adapted
                (VObj [("stream", VBool false); ("max_tokens", VNum 100);
                       ("messages", VArr [])])
                (VStr "gpt-5") "openai" (VStr "curl/8.0") VUndef
                {| entropy := fun _ => Byte.x00; cursor := 0 |} h l
                ltac:(vm_compute; reflexivity))
      as (r & Hr & Hstream & Hrest)
  end.
  vm_compute in Hr. injection Hr as <-.
  split; [exact Hstream |]. split.
  - rewrite (Hrest "store") by discriminate. vm_compute. reflexivity.
  - rewrite (Hrest "max_output_tokens") by discriminate. vm_compute. reflexivity.
Defined.

(** *** The pattern that tells the Codex CLI *)

Lemma toLowerCase_append (a b : string) :
  toLowerCase (a +:+ b) = toLowerCase a +:+ toLowerCase b.
Proof.
  induction a as [|x a IH]; [reflexivity |].
  rewrite append_cons. cbn [toLowerCase]. rewrite append_cons. now f_equal.
Qed.

Lemma lower_char_idem (a : ascii) : lower_char (lower_char a) = lower_char a.
Proof. destruct a as [[] [] [] [] [] [] [] []]; reflexivity. Qed.

Lemma toLowerCase_idem (s : string) : toLowerCase (toLowerCase s) = toLowerCase s.
Proof.
  induction s as [|x s IH]; [reflexivity |]. cbn [toLowerCase].
  now rewrite lower_char_idem, IH.
Qed.

Lemma after_literal_some (p s t : string) : after_literal p s = Some t -> s = p +:+ t.
Proof.
  revert s. induction p as [|a p IH]; intros s H.
  - cbn in H. now injection H as <-.
  - destruct s as [|b s]; [discriminate |]. cbn [after_literal] in H.
    destruct (Ascii.eqb_spec a b) as [<- | _]; [| discriminate].
    rewrite append_cons. f_equal. now apply IH.
Qed.

Lemma after_literal_append (p s t r : string) :
  after_literal p s = Some t -> after_literal p (s +:+ r) = Some (t +:+ r).
Proof.
  revert s. induction p as [|a p IH]; intros s H.
  - cbn in H. injection H as <-. now destruct s.
  - destruct s as [|b s]; [discriminate |]. rewrite append_cons. cbn [after_literal] in *.
    destruct (Ascii.eqb a b); [now apply IH | discriminate].
Qed.

(** X22: the pattern that tells the Codex CLI looks at the head of the user
    agent only, in either case: lower-casing the user agent changes nothing;
    an accepted user agent stays accepted whatever is appended to it; and
    its lower-case form is one of the three names, a slash, and a digit or
    dot followed by anything. *)
Theorem cli_pattern_reads_the_head_only (userAgent : string) :
  codexCliPattern_test (toLowerCase userAgent) = codexCliPattern_test userAgent
  /\ (codexCliPattern_test userAgent = true ->
      (forall rest, codexCliPattern_test (userAgent +:+ rest) = true)
      /\ exists name a version,
           In name ["codex_vscode"; "codex_cli_rs"; "codex_exec"]
           /\ toLowerCase userAgent = name +:+ "/" +:+ String a version
           /\ is_digit a || Ascii.eqb a "." = true).
Proof.
  split.
  - unfold codexCliPattern_test. now rewrite toLowerCase_idem.
  - unfold codexCliPattern_test. intros H.
    apply existsb_exists in H as (name & Hin & H).
    destruct (after_literal (name +:+ "/") (toLowerCase userAgent)) as [[|a version]|] eqn:E;
      try discriminate.
    split.
    + intros rest. apply existsb_exists. exists name. split; [exact Hin |].
      rewrite toLowerCase_append, (after_literal_append _ _ _ _ E), append_cons. exact H.
    + exists name, a, version. split; [exact Hin |]. split; [| exact H].
      apply after_literal_some in E. now rewrite E, append_assoc.
Qed.

Lemma cli_pattern_reads_the_head_only_witness :
  codexCliPattern_test (toLowerCase "Codex_CLI_rs/0.42 (Mac OS)")
    = codexCliPattern_test "Codex_CLI_rs/0.42 (Mac OS)"
  /\ (forall rest, codexCliPattern_test ("Codex_CLI_rs/0.42 (Mac OS)" +:+ rest) = true)
  /\ exists name a version,
       In name ["codex_vscode"; "codex_cli_rs"; "codex_exec"]
       /\ toLowerCase "Codex_CLI_rs/0.42 (Mac OS)" = name +:+ "/" +:+ String a version
       /\ is_digit a || Ascii.eqb a "." = true.
Proof.
  destruct (cli_pattern_reads_the_head_only "Codex_CLI_rs/0.42 (Mac OS)") as [H1 H2].
  split; [exact H1 |]. apply H2. reflexivity.
Defined.

End HandlerFacts.
